(** * split_Movie: the video splitter of [app.py]

    A shallow embedding of [app.py] and the properties of its chunk
    planning, its two splitter strategies and its orchestrator.

    Conventions of the model.
    - Everything outside the interpreter (the file system, [subprocess],
      the [moviepy] library, the [import] machinery, [input]) is an oracle
      of the environment [Env]; an oracle sees the whole history of the
      run, so the same call may answer differently at different times.
    - Every external call is appended to a trace of events together with
      its answer.  [print] calls are not modelled: they only narrate.
    - Exceptions are the instances of Python's [Exception]; a
      [KeyboardInterrupt] is an asynchronous signal and is not modelled.
      Releasing a clip ([close]) never raises.
    - A Python [float] is a rational number or one of inf, -inf, nan (a
      zero has no sign).  The one arithmetic operation of the program on
      floats, [duration / chunk_duration], converts the int to a float
      and rounds the quotient to the nearest binary64 value, ties to
      even, as IEEE 754 division does.  Comparisons of a float with an
      int are exact, as in Python.  Integers are unbounded ([Z]). *)

From Stdlib Require Import ZArith QArith Qround Qminmax Qpower List String Ascii.
From Stdlib Require Import Bool Lia Lqa SpecFloat.
From Stdlib Require Import DecimalString DecimalPos DecimalZ FinFun.
Import ListNotations.

Local Open Scope string_scope.
Local Open Scope list_scope.
Local Open Scope Z_scope.

(* ================================================================== *)
(** * Python values and built-ins *)
(* ================================================================== *)

Module Py.

(** Exception classes that the program raises, catches by class, or that
    the libraries it calls raise.  All are subclasses of [Exception]. *)
Inductive exn : Type :=
| FileNotFoundError
| CalledProcessError
| ImportError
| ValueError
| OverflowError
| ZeroDivisionError
| EOFError
| OSError (msg : string)
| PyException (msg : string).

Definition is_ImportError (e : exn) : bool :=
  match e with ImportError => true | _ => false end.

(** [except (subprocess.CalledProcessError, FileNotFoundError)] *)
Definition is_CalledProcessError_or_FileNotFoundError (e : exn) : bool :=
  match e with CalledProcessError | FileNotFoundError => true | _ => false end.

(** The outcome of evaluating an expression or a call. *)
Inductive result (A : Type) : Type :=
| Ok (a : A)
| Raise (e : exn).
Arguments Ok {A} a.
Arguments Raise {A} e.

(** A Python float. *)
Inductive pyfloat : Type :=
| Finite (q : Q)
| PosInf
| NegInf
| NaN.

Definition float_of_int (z : Z) : pyfloat := Finite (inject_Z z).

(** [bool(x)] for a float: only zero is falsy. *)
Definition truthy (x : pyfloat) : bool :=
  match x with
  | Finite q => negb (Qeq_bool q 0)
  | _ => true
  end.

(** [x <= n] for a float [x] and an int [n]. *)
Definition le_int (x : pyfloat) (n : Z) : bool :=
  match x with
  | Finite q => Qle_bool q (inject_Z n)
  | NegInf => true
  | PosInf | NaN => false
  end.

(** [x < n] for a float [x] and an int [n]. *)
Definition lt_int (x : pyfloat) (n : Z) : bool :=
  match x with
  | Finite q => Qle_bool q (inject_Z n) && negb (Qeq_bool q (inject_Z n))
  | NegInf => true
  | PosInf | NaN => false
  end.

(** ** Binary64 rounding

    The finite binary64 values are the rationals m * 2^e with
    |m| < 2^53 and -1074 <= e <= 971. *)

(** The exponent of the binade of [x > 0]: the [g] with
    2^g <= x < 2^(g+1). *)
Definition floor_log2 (x : Q) : Z :=
  let g := Z.log2 (Qnum x) - Z.log2 (Zpos (Qden x)) in
  if Qle_bool (2 ^ g) x then g else g - 1.

(** The nearest integer, the even one of two that are equally near. *)
Definition round_half_even (y : Q) : Z :=
  let f := Qfloor y in
  match (y - inject_Z f ?= 1 # 2)%Q with
  | Lt => f
  | Gt => f + 1
  | Eq => if Z.even f then f else f + 1
  end.

(** The binary64 value nearest to [x > 0]: 53 significant bits, the unit
    in the last place no smaller than 2^-1074 (gradual underflow), and
    inf once the rounded value reaches 2^1024. *)
Definition round64_pos (x : Q) : pyfloat :=
  let e := Z.max (floor_log2 x - 52) (-1074) in
  let m := round_half_even (x / 2 ^ e) in
  let v := (inject_Z m * 2 ^ e)%Q in
  if Qle_bool (2 ^ 1024) v then PosInf else Finite (Qred v).

Definition round64 (x : Q) : pyfloat :=
  match (x ?= 0)%Q with
  | Eq => Finite 0
  | Gt => round64_pos x
  | Lt => match round64_pos (- x) with
          | Finite q => Finite (- q)
          | _ => NegInf
          end
  end.

(** The conversion of an int operand to a float: the nearest binary64
    value, and [OverflowError] ("int too large to convert to float") when
    there is no finite one. *)
Definition int_to_float (n : Z) : result Q :=
  match round64 (inject_Z n) with
  | Finite q => Ok q
  | _ => Raise OverflowError
  end.

(** [x / n] for a float [x] and an int [n]: the int is converted first,
    then a zero divisor raises, then the quotient is rounded. *)
Definition div_int (x : pyfloat) (n : Z) : result pyfloat :=
  match int_to_float n with
  | Raise e => Raise e
  | Ok b =>
      if Qeq_bool b 0 then Raise ZeroDivisionError
      else Ok match x with
              | Finite q => round64 (q / b)
              | PosInf => if Qle_bool 0 b then PosInf else NegInf
              | NegInf => if Qle_bool 0 b then NegInf else PosInf
              | NaN => NaN
              end
  end.

(** The same operations by the IEEE 754 specification of the standard
    library ([SpecFloat], binary64 is precision 53 and [emax] 1024), to
    compare [round64] with: the value of a specified float, the float of
    an int, and the quotient of the float M * 2^E by the int L. *)
Definition pyfloat_of_spec (x : spec_float) : pyfloat :=
  match x with
  | S754_zero _ => Finite 0
  | S754_infinity s => if s then NegInf else PosInf
  | S754_nan => NaN
  | S754_finite s m e =>
      Finite (Qred (inject_Z (if s then Zneg m else Zpos m) * 2 ^ e))
  end.

Definition spec_of_int (n : Z) : spec_float :=
  binary_normalize 53 1024 n 0 false.

Definition spec_div (M E L : Z) : pyfloat :=
  pyfloat_of_spec
    (SFdiv 53 1024 (binary_normalize 53 1024 M E false) (spec_of_int L)).

(** [math.ceil(x)] *)
Definition math_ceil (x : pyfloat) : result Z :=
  match x with
  | Finite q => Ok (Qceiling q)
  | PosInf | NegInf => Raise OverflowError
  | NaN => Raise ValueError
  end.

(** [min(n, x)] for an int [n] and a float [x]: the second argument is
    chosen only when it is strictly smaller than the first. *)
Definition min_int_float (n : Z) (x : pyfloat) : pyfloat :=
  if lt_int x n then x else float_of_int n.

(** [range(n)] *)
Definition range (n : Z) : list Z := map Z.of_nat (seq 0 (Z.to_nat n)).

(** [str(n)] for an int. *)
Definition str (n : Z) : string := NilZero.string_of_int (Z.to_int n).

(** [s.strip()].  A character of a string is a code point below 256;
    those that [str.isspace] accepts are 9-13, 28-32, 133 and 160. *)
Definition isspace (c : ascii) : bool :=
  let n := nat_of_ascii c in
  (((9 <=? n) && (n <=? 13)) || ((28 <=? n) && (n <=? 32))
   || (n =? 133) || (n =? 160))%nat.

Fixpoint lstrip (s : string) : string :=
  match s with
  | EmptyString => EmptyString
  | String c s' => if isspace c then lstrip s' else s
  end.

Fixpoint rstrip (s : string) : string :=
  match s with
  | EmptyString => EmptyString
  | String c s' =>
      match rstrip s' with
      | EmptyString => if isspace c then EmptyString else String c EmptyString
      | r => String c r
      end
  end.

Definition strip (s : string) : string := rstrip (lstrip s).

(** [subprocess.CompletedProcess] *)
Record CompletedProcess : Type := {
  returncode : Z;
  stdout : string;
  stderr : string
}.

End Py.
Import Py.

(* ================================================================== *)
(** * The outside world: events, oracles, and the monad of runs *)
(* ================================================================== *)

(** A clip object of the editing library (the opened video or one of its
    sub-clips), identified by the position of the event that created it. *)
Definition handle : Type := nat.

(** One external call together with its answer. *)
Inductive event : Type :=
| EvInput (answer : result string)
| EvExists (path : string) (answer : bool)
| EvRun (cmd : list string) (answer : result CompletedProcess)
| EvMakedirs (path : string) (answer : result unit)
| EvCopy2 (src dst : string) (answer : result unit)
| EvImport (module_name : string) (answer : result unit)
| EvOpen (path : string) (answer : result (handle * pyfloat))
| EvSubclip (parent : handle) (start_time end_time : pyfloat)
            (answer : result handle)
| EvWrite (clip : handle) (file : string) (codec audio_codec : option string)
          (answer : result unit)
| EvClose (clip : handle).

Definition trace : Type := list event.

(** The environment.  The first nine fields answer an external call given
    the history of the run; the last three are the pure library functions
    [float], [pathlib.Path(p).suffix] and [os.path.join], whose results
    depend on the platform but not on the history. *)
Record Env : Type := {
  builtin_input : trace -> result string;
  os_path_exists : trace -> string -> bool;
  subprocess_run : trace -> list string -> result CompletedProcess;
  os_makedirs : trace -> string -> result unit;
  shutil_copy2 : trace -> string -> string -> result unit;
  import_module : trace -> string -> result unit;
  moviepy_VideoFileClip : trace -> string -> result pyfloat;
  moviepy_subclip : trace -> handle -> pyfloat -> pyfloat -> result unit;
  moviepy_write_videofile :
    trace -> handle -> string -> option string -> option string -> result unit;
  builtin_float : string -> result pyfloat;
  path_suffix : string -> string;
  os_path_join : string -> string -> string
}.

(** A computation reads and extends the trace and returns or raises. *)
Definition M (A : Type) : Type := trace -> result A * trace.

Definition ret {A : Type} (a : A) : M A := fun t => (Ok a, t).

Definition raise {A : Type} (e : exn) : M A := fun t => (Raise e, t).

Definition bind {A B : Type} (m : M A) (k : A -> M B) : M B :=
  fun t =>
    match m t with
    | (Ok a, t') => k a t'
    | (Raise e, t') => (Raise e, t')
    end.

(** An expression that may raise, evaluated inside a computation. *)
Definition lift {A : Type} (r : result A) : M A := fun t => (r, t).

(** [try: m  except Exception as e: h e] *)
Definition try_except {A : Type} (m : M A) (h : exn -> M A) : M A :=
  fun t =>
    match m t with
    | (Ok a, t') => (Ok a, t')
    | (Raise e, t') => h e t'
    end.

(** [try: m  except <classes>: h], the classes given by [catches]. *)
Definition try_except_only {A : Type} (catches : exn -> bool)
           (m : M A) (h : M A) : M A :=
  fun t =>
    match m t with
    | (Ok a, t') => (Ok a, t')
    | (Raise e, t') => if catches e then h t' else (Raise e, t')
    end.

(** [for i in l: s = body i s] *)
Fixpoint for_each {S : Type} (l : list Z) (body : Z -> S -> M S) (s : S)
  : M S :=
  match l with
  | [] => ret s
  | i :: l' => bind (body i s) (for_each l' body)
  end.

Declare Scope run_scope.
Delimit Scope run_scope with run.
Notation "x <- m ;; k" := (bind m (fun x => k))
  (at level 61, m at next level, right associativity) : run_scope.
Notation "m ;; k" := (bind m (fun _ => k))
  (at level 61, right associativity) : run_scope.
Local Open Scope run_scope.

(** The flow of a block of [main] that may end the function early:
    [Return c] is [return c], [Continue a] falls through with [a]. *)
Inductive flow (A : Type) : Type :=
| Continue (a : A)
| Return (code : Z).
Arguments Continue {A} a.
Arguments Return {A} code.

(** Command-line arguments after [argparse]. *)
Inductive method_choice : Type := Moviepy | Ffmpeg | Auto.

Record Args : Type := {
  method : method_choice;
  output_dir : string;
  duration : Z
}.

(** The two counters a splitter reports and compares at its end. *)
Record SplitResult : Type := {
  success_count : Z;
  num_chunks : Z
}.

(* ================================================================== *)
(** * app.py *)
(* ================================================================== *)

Section App.

Variable env : Env.

(** ** External calls, each recorded in the trace *)

Definition call_input : M string :=
  fun t => let r := builtin_input env t in (r, t ++ [EvInput r]).

Definition call_exists (path : string) : M bool :=
  fun t => let r := os_path_exists env t path in (Ok r, t ++ [EvExists path r]).

(** [subprocess.run(cmd, capture_output=True, text=True)] *)
Definition call_run (cmd : list string) : M CompletedProcess :=
  fun t => let r := subprocess_run env t cmd in (r, t ++ [EvRun cmd r]).

(** [subprocess.run(cmd, capture_output=True, check=True)] *)
Definition call_run_check (cmd : list string) : M CompletedProcess :=
  r <- call_run cmd ;;
  if returncode r =? 0 then ret r else raise CalledProcessError.

Definition call_makedirs (path : string) : M unit :=
  fun t => let r := os_makedirs env t path in (r, t ++ [EvMakedirs path r]).

Definition call_copy2 (src dst : string) : M unit :=
  fun t => let r := shutil_copy2 env t src dst in (r, t ++ [EvCopy2 src dst r]).

Definition call_import (module_name : string) : M unit :=
  fun t => let r := import_module env t module_name in
           (r, t ++ [EvImport module_name r]).

(** [VideoFileClip(path)]: the new clip and its [duration]. *)
Definition call_VideoFileClip (path : string) : M (handle * pyfloat) :=
  fun t =>
    let r := match moviepy_VideoFileClip env t path with
             | Ok d => Ok (List.length t, d)
             | Raise e => Raise e
             end in
    (r, t ++ [EvOpen path r]).

(** [video.subclip(start_time, end_time)]: a new clip. *)
Definition call_subclip (video : handle) (start_time end_time : pyfloat)
  : M handle :=
  fun t =>
    let r := match moviepy_subclip env t video start_time end_time with
             | Ok _ => Ok (List.length t)
             | Raise e => Raise e
             end in
    (r, t ++ [EvSubclip video start_time end_time r]).

(** [clip.write_videofile(file, codec=.., audio_codec=.., logger=None)];
    [None] for a codec argument that is not passed. *)
Definition call_write_videofile (clip : handle) (file : string)
           (codec audio_codec : option string) : M unit :=
  fun t =>
    let r := moviepy_write_videofile env t clip file codec audio_codec in
    (r, t ++ [EvWrite clip file codec audio_codec r]).

Definition call_close (clip : handle) : M unit :=
  fun t => (Ok tt, t ++ [EvClose clip]).

(** ** [get_video_duration_ffmpeg] (lines 23-44) *)

Definition ffprobe_cmd (ffmpeg_path video_path : string) : list string :=
  [ffmpeg_path; "-v"; "quiet"; "-show_entries"; "format=duration";
   "-of"; "csv=p=0"; video_path].

Definition get_video_duration_ffmpeg (video_path : string)
  : M (option pyfloat) :=
  try_except
    (ex <- call_exists "C:\ffmpeg\ffprobe.exe" ;;
     let ffmpeg_path := if ex then "C:\ffmpeg\ffprobe.exe" else "ffprobe" in
     let cmd := ffprobe_cmd ffmpeg_path video_path in
     result <- call_run cmd ;;
     if returncode result =? 0 then
       d <- lift (builtin_float env (strip (stdout result))) ;;
       ret (Some d)
     else
       raise (PyException ("FFprobe error: " ++ stderr result)%string))
    (fun e => ret None).

(** ** Chunk planning, as both splitters compute it *)

(** [math.ceil(duration / chunk_duration)] (lines 59 and 129) *)
Definition plan_num_chunks (duration : pyfloat) (chunk_duration : Z)
  : result Z :=
  match div_int duration chunk_duration with
  | Ok q => math_ceil q
  | Raise e => Raise e
  end.

(** [start_time = i * chunk_duration] (lines 75 and 142) *)
Definition chunk_start (chunk_duration i : Z) : Z := i * chunk_duration.

(** [end_time = min((i + 1) * chunk_duration, duration)] (line 143) *)
Definition chunk_end (duration : pyfloat) (chunk_duration i : Z) : pyfloat :=
  min_int_float ((i + 1) * chunk_duration) duration.

(** [os.path.join(output_dir, f"chunk_{i+1}{extension}")] (lines 76, 145) *)
Definition chunk_file (output_dir extension : string) (i : Z) : string :=
  os_path_join env output_dir ("chunk_" ++ str (i + 1) ++ extension)%string.

(** ** [split_video_ffmpeg] (lines 46-100) *)

(** The command of chunk [i] (lines 78-87). *)
Definition ffmpeg_cmd (ffmpeg_path input_path output_file : string)
           (chunk_duration i : Z) : list string :=
  [ffmpeg_path; "-i"; input_path;
   "-ss"; str (chunk_start chunk_duration i);
   "-t"; str chunk_duration;
   "-c"; "copy";
   "-avoid_negative_ts"; "make_zero";
   output_file; "-y"].

(** The body of the loop (lines 75-97). *)
Definition ffmpeg_chunk (ffmpeg_path input_path output_dir extension : string)
           (chunk_duration i success_count : Z) : M Z :=
  let output_file := chunk_file output_dir extension i in
  let cmd := ffmpeg_cmd ffmpeg_path input_path output_file chunk_duration i in
  try_except
    (result <- call_run cmd ;;
     if returncode result =? 0 then ret (success_count + 1)
     else ret success_count)
    (fun e => ret success_count).

(** The function up to its last line: [None] for the early [return False],
    otherwise the two counters that the last line compares. *)
Definition split_video_ffmpeg_counts (input_path output_dir : string)
           (chunk_duration : Z) : M (option SplitResult) :=
  duration <- get_video_duration_ffmpeg input_path ;;
  match duration with
  | None => ret None
  | Some duration =>
      num_chunks <- lift (plan_num_chunks duration chunk_duration) ;;
      call_makedirs output_dir ;;
      let extension := path_suffix env input_path in
      ex <- call_exists "C:\ffmpeg\ffmpeg.exe" ;;
      let ffmpeg_path := if ex then "C:\ffmpeg\ffmpeg.exe" else "ffmpeg" in
      success_count <-
        for_each (range num_chunks)
          (ffmpeg_chunk ffmpeg_path input_path output_dir extension
                        chunk_duration) 0 ;;
      ret (Some {| success_count := success_count; num_chunks := num_chunks |})
  end.

(** [return success_count == num_chunks] *)
Definition all_succeeded (r : option SplitResult) : bool :=
  match r with
  | Some r => success_count r =? num_chunks r
  | None => false
  end.

Definition split_video_ffmpeg (input_path output_dir : string)
           (chunk_duration : Z) : M bool :=
  r <- split_video_ffmpeg_counts input_path output_dir chunk_duration ;;
  ret (all_succeeded r).

(** ** [split_video_moviepy] (lines 102-198) *)

(** One rung of the ladder: extract the sub-clip, write it with the given
    codec arguments, close it (lines 151-162, 172-178 and 186-188). *)
Definition moviepy_attempt (video : handle) (start_time end_time : pyfloat)
           (output_file : string) (codec audio_codec : option string)
  : M unit :=
  subclip <- call_subclip video start_time end_time ;;
  call_write_videofile subclip output_file codec audio_codec ;;
  call_close subclip.

(** The body of the loop (lines 142-192). *)
Definition moviepy_chunk (video : handle) (duration : pyfloat)
           (output_dir extension : string)
           (chunk_duration i success_count : Z) : M Z :=
  let start_time := float_of_int (chunk_start chunk_duration i) in
  let end_time := chunk_end duration chunk_duration i in
  let output_file := chunk_file output_dir extension i in
  try_except
    (moviepy_attempt video start_time end_time output_file
                     (Some "libx264") (Some "aac") ;;
     ret (success_count + 1))
    (fun e =>
       try_except
         (moviepy_attempt video start_time end_time output_file
                          (Some "libx264") None ;;
          ret (success_count + 1))
         (fun e2 =>
            try_except
              (moviepy_attempt video start_time end_time output_file
                               None None ;;
               ret (success_count + 1))
              (fun e3 => ret success_count))).

(** The function up to its last line, as for [split_video_ffmpeg]. *)
Definition split_video_moviepy_counts (input_path output_dir : string)
           (chunk_duration : Z) : M (option SplitResult) :=
  imported <-
    try_except_only is_ImportError
      (call_import "moviepy.editor" ;; ret true) (ret false) ;;
  if negb imported then ret None
  else
    video <-
      try_except
        (v <- call_VideoFileClip input_path ;; ret (Some v))
        (fun e => ret None) ;;
    match video with
    | None => ret None
    | Some (video, duration) =>
        num_chunks <- lift (plan_num_chunks duration chunk_duration) ;;
        call_makedirs output_dir ;;
        let extension := path_suffix env input_path in
        success_count <-
          for_each (range num_chunks)
            (moviepy_chunk video duration output_dir extension
                           chunk_duration) 0 ;;
        call_close video ;;
        ret (Some {| success_count := success_count;
                     num_chunks := num_chunks |})
    end.

Definition split_video_moviepy (input_path output_dir : string)
           (chunk_duration : Z) : M bool :=
  r <- split_video_moviepy_counts input_path output_dir chunk_duration ;;
  ret (all_succeeded r).

(** ** Availability checks (lines 200-219) *)

Definition check_ffmpeg_availability : M bool :=
  try_except_only is_CalledProcessError_or_FileNotFoundError
    (ex <- call_exists "C:\ffmpeg\ffmpeg.exe" ;;
     if ex then ret true
     else (call_run_check ["ffmpeg"; "-version"] ;; ret true))
    (ret false).

Definition check_moviepy_availability : M bool :=
  try_except_only is_ImportError
    (call_import "moviepy" ;; ret true) (ret false).

(** ** [main] (lines 221-294) *)

(** [duration and duration <= args.duration] (line 250) *)
Definition short_circuit_guard (d : option pyfloat) (chunk_duration : Z)
  : bool :=
  match d with
  | None => false
  | Some d => truthy d && le_int d chunk_duration
  end.

(** "Handle video shorter than chunk duration" (lines 248-261). *)
Definition short_circuit (args : Args) (input_video : string)
  : M (flow unit) :=
  match method args with
  | Ffmpeg | Auto =>
      d <- get_video_duration_ffmpeg input_video ;;
      if short_circuit_guard d (duration args) then
        call_makedirs (output_dir args) ;;
        let output_file :=
          os_path_join env (output_dir args)
                       ("chunk_1" ++ path_suffix env input_video)%string in
        call_copy2 input_video output_file ;;
        ret (Return 0)
      else ret (Continue tt)
  | Moviepy => ret (Continue tt)
  end.

(** "Determine method" (lines 264-279). *)
Definition determine_method (args : Args) : M (flow method_choice) :=
  match method args with
  | Auto =>
      ffmpeg_available <- check_ffmpeg_availability ;;
      moviepy_available <- check_moviepy_availability ;;
      if ffmpeg_available then ret (Continue Ffmpeg)
      else if moviepy_available then ret (Continue Moviepy)
      else ret (Return 1)
  | m => ret (Continue m)
  end.

(** "Split the video" (lines 282-294). *)
Definition split_the_video (args : Args) (input_video : string)
           (m : method_choice) : M Z :=
  match m with
  | Ffmpeg =>
      available <- check_ffmpeg_availability ;;
      if negb available then ret 1
      else
        success <- split_video_ffmpeg input_video (output_dir args)
                                      (duration args) ;;
        ret (if success then 0 else 1)
  | Moviepy =>
      available <- check_moviepy_availability ;;
      if negb available then ret 1
      else
        success <- split_video_moviepy input_video (output_dir args)
                                       (duration args) ;;
        ret (if success then 0 else 1)
  | Auto => ret 1
  end.

(** Lines 263-294: what [main] does once the short-circuit did not
    return. *)
Definition select_and_split (args : Args) (input_video : string) : M Z :=
  m <- determine_method args ;;
  match m with
  | Return code => ret code
  | Continue m => split_the_video args input_video m
  end.

Definition main (args : Args) : M Z :=
  answer <- call_input ;;
  let input_video := strip answer in
  ex <- call_exists input_video ;;
  if negb ex then ret 1
  else
    sc <- short_circuit args input_video ;;
    match sc with
    | Return code => ret code
    | Continue _ => select_and_split args input_video
    end.

(** The [__main__] block (lines 296-305): the exit status of the process. *)
Definition program (args : Args) (t : trace) : Z * trace :=
  match main args t with
  | (Ok exit_code, t') => (exit_code, t')
  | (Raise e, t') => (1, t')
  end.

(** ** How a run of [main] ended

    [main] instrumented to tell which of its [return] statements ended
    the run and, when a splitter ran to its end, the counters it compared.
    The external calls are those of [main], in the same order. *)

Inductive outcome : Type :=
| InputMissing
| CopiedWhole
| NoBackend
| SplitterGaveUp
| SplitDone (r : SplitResult).

Definition exit_code_of (o : outcome) : Z :=
  match o with
  | CopiedWhole => 0
  | SplitDone r => if success_count r =? num_chunks r then 0 else 1
  | InputMissing | NoBackend | SplitterGaveUp => 1
  end.

Definition outcome_of_counts (r : option SplitResult) : outcome :=
  match r with
  | Some r => SplitDone r
  | None => SplitterGaveUp
  end.

Definition split_the_video_outcome (args : Args) (input_video : string)
           (m : method_choice) : M outcome :=
  match m with
  | Ffmpeg =>
      available <- check_ffmpeg_availability ;;
      if negb available then ret NoBackend
      else
        r <- split_video_ffmpeg_counts input_video (output_dir args)
                                       (duration args) ;;
        ret (outcome_of_counts r)
  | Moviepy =>
      available <- check_moviepy_availability ;;
      if negb available then ret NoBackend
      else
        r <- split_video_moviepy_counts input_video (output_dir args)
                                        (duration args) ;;
        ret (outcome_of_counts r)
  | Auto => ret NoBackend
  end.

Definition select_and_split_outcome (args : Args) (input_video : string)
  : M outcome :=
  m <- determine_method args ;;
  match m with
  | Return _ => ret NoBackend
  | Continue m => split_the_video_outcome args input_video m
  end.

Definition main_outcome (args : Args) : M outcome :=
  answer <- call_input ;;
  let input_video := strip answer in
  ex <- call_exists input_video ;;
  if negb ex then ret InputMissing
  else
    sc <- short_circuit args input_video ;;
    match sc with
    | Return _ => ret CopiedWhole
    | Continue _ => select_and_split_outcome args input_video
    end.

(** The name of the short-circuit copy (line 256): [chunk_1] with the
    extension of the input, in the output directory. *)
Definition copy_name (args : Args) (input_video : string) : string :=
  os_path_join env (output_dir args)
               ("chunk_1" ++ path_suffix env input_video)%string.

(** The answer of the probing tool when [video_path] is probed from
    history [t] (the probe first looks for the fixed install location). *)
Definition probe_answer (video_path : string) (t : trace)
  : result CompletedProcess :=
  let ex := os_path_exists env t "C:\ffmpeg\ffprobe.exe" in
  subprocess_run env (t ++ [EvExists "C:\ffmpeg\ffprobe.exe" ex])
    (ffprobe_cmd (if ex then "C:\ffmpeg\ffprobe.exe" else "ffprobe")
                 video_path).

End App.

(* ================================================================== *)
(** * Reading a trace *)
(* ================================================================== *)

(** The commands handed to [subprocess.run], in order. *)
Definition run_cmds (t : trace) : list (list string) :=
  flat_map (fun e => match e with EvRun cmd _ => [cmd] | _ => [] end) t.

(** [result.returncode == 0] for the answer of a [subprocess.run]. *)
Definition run_ok (r : result CompletedProcess) : bool :=
  match r with
  | Ok r => returncode r =? 0
  | Raise _ => false
  end.

(** The sub-clips extracted, the clips closed, the files written. *)
Definition subclips_opened (t : trace) : list handle :=
  flat_map (fun e => match e with EvSubclip _ _ _ (Ok h) => [h] | _ => [] end) t.

Definition clips_closed (t : trace) : list handle :=
  flat_map (fun e => match e with EvClose h => [h] | _ => [] end) t.

Definition files_written (t : trace) : list string :=
  flat_map (fun e => match e with
                     | EvWrite _ file _ _ (Ok _) => [file]
                     | _ => []
                     end) t.

(** The copies made by [shutil.copy2], as (source, destination). *)
Definition copies (t : trace) : list (string * string) :=
  flat_map (fun e => match e with
                     | EvCopy2 src dst (Ok _) => [(src, dst)]
                     | _ => []
                     end) t.

(** The invocations of external tools that exited with status zero. *)
Definition runs_ok (t : trace) : list (list string) :=
  flat_map (fun e => match e with
                     | EvRun cmd r => if run_ok r then [cmd] else []
                     | _ => []
                     end) t.

(** A computation that never invokes an external tool: whatever it adds
    to the trace holds no [subprocess.run]. *)
Definition no_tool_call {A : Type} (m : M A) : Prop :=
  forall t, exists evs, snd (m t) = t ++ evs /\ run_cmds evs = [].

(** Sub-clips that were extracted and never closed. *)
Definition subclips_left_open (t : trace) : list handle :=
  filter (fun h => negb (existsb (Nat.eqb h) (clips_closed t)))
         (subclips_opened t).

(** The windows requested from [ffmpeg] by chunk [i]: [-ss] gives the start
    and [-t] the length, so the window ends at start + length. *)
Definition ffmpeg_window_end (chunk_duration i : Z) : Z :=
  chunk_start chunk_duration i + chunk_duration.

(** The events of a loop from history [t], one group per iteration, with
    the counter before and after each iteration. *)
Inductive iterations {S : Type}
          (step : Z -> trace -> S -> S -> list event -> Prop)
  : list Z -> trace -> S -> S -> list (list event) -> Prop :=
| iterations_nil : forall t s, iterations step [] t s s []
| iterations_cons : forall i l t s s' s'' evs groups,
    step i t s s' evs ->
    iterations step l (t ++ evs) s' s'' groups ->
    iterations step (i :: l) t s s'' (evs :: groups).

(** What one rung of the re-encode ladder leaves in the trace, from
    history [t]: the extraction raised, or the write raised (and the
    sub-clip is not closed), or both went through and the sub-clip is
    closed. *)
Inductive rung_events (video : handle) (start_time end_time : pyfloat)
          (file : string) (codec audio_codec : option string) (t : trace)
  : bool -> list event -> Prop :=
| rung_subclip_raised : forall e,
    rung_events video start_time end_time file codec audio_codec t false
      [EvSubclip video start_time end_time (Raise e)]
| rung_write_raised : forall e,
    rung_events video start_time end_time file codec audio_codec t false
      [EvSubclip video start_time end_time (Ok (List.length t));
       EvWrite (List.length t) file codec audio_codec (Raise e)]
| rung_written :
    rung_events video start_time end_time file codec audio_codec t true
      [EvSubclip video start_time end_time (Ok (List.length t));
       EvWrite (List.length t) file codec audio_codec (Ok tt);
       EvClose (List.length t)].

(** The ladder of one chunk: the rungs are tried in the order
    (libx264, aac), (libx264, -), (-, -), each only after the one before
    raised; the counter moves by one exactly when a rung went through. *)
Inductive ladder_events (video : handle) (start_time end_time : pyfloat)
          (file : string) (t : trace) : Z -> Z -> list event -> Prop :=
| ladder_first : forall c e1,
    rung_events video start_time end_time file
                (Some "libx264") (Some "aac") t true e1 ->
    ladder_events video start_time end_time file t c (c + 1) e1
| ladder_second : forall c e1 e2,
    rung_events video start_time end_time file
                (Some "libx264") (Some "aac") t false e1 ->
    rung_events video start_time end_time file
                (Some "libx264") None (t ++ e1) true e2 ->
    ladder_events video start_time end_time file t c (c + 1) (e1 ++ e2)
| ladder_third : forall c e1 e2 e3,
    rung_events video start_time end_time file
                (Some "libx264") (Some "aac") t false e1 ->
    rung_events video start_time end_time file
                (Some "libx264") None (t ++ e1) false e2 ->
    rung_events video start_time end_time file
                None None (t ++ e1 ++ e2) true e3 ->
    ladder_events video start_time end_time file t c (c + 1) (e1 ++ e2 ++ e3)
| ladder_failed : forall c e1 e2 e3,
    rung_events video start_time end_time file
                (Some "libx264") (Some "aac") t false e1 ->
    rung_events video start_time end_time file
                (Some "libx264") None (t ++ e1) false e2 ->
    rung_events video start_time end_time file
                None None (t ++ e1 ++ e2) false e3 ->
    ladder_events video start_time end_time file t c c (e1 ++ e2 ++ e3).

(** One iteration of the stream-copy loop from history [t]: exactly one
    invocation of the tool, with the command of chunk [i]; the counter
    moves by one exactly when the tool exits with status zero. *)
Definition ffmpeg_step (env : Env)
           (ffmpeg_path input_path output_dir extension : string)
           (chunk_duration : Z)
  : Z -> trace -> Z -> Z -> list event -> Prop :=
  fun i t c c' evs =>
    let cmd := ffmpeg_cmd ffmpeg_path input_path
                          (chunk_file env output_dir extension i)
                          chunk_duration i in
    let r := subprocess_run env t cmd in
    evs = [EvRun cmd r] /\ c' = if run_ok r then c + 1 else c.

(** One iteration of the re-encode loop: the ladder of chunk [i], on the
    window and the output file of chunk [i]. *)
Definition moviepy_step (env : Env) (video : handle) (duration : pyfloat)
           (output_dir extension : string) (chunk_duration : Z)
  : Z -> trace -> Z -> Z -> list event -> Prop :=
  fun i t c c' evs =>
    ladder_events video
                  (float_of_int (chunk_start chunk_duration i))
                  (chunk_end duration chunk_duration i)
                  (chunk_file env output_dir extension i)
                  t c c' evs.

(** The directories created, the writes that raised, and the windows
    asked of the library, as (source clip, start, end). *)
Definition dirs_made (t : trace) : list string :=
  flat_map (fun e => match e with
                     | EvMakedirs path (Ok _) => [path]
                     | _ => []
                     end) t.

Definition writes_raised (t : trace) : list handle :=
  flat_map (fun e => match e with
                     | EvWrite clip _ _ _ (Raise _) => [clip]
                     | _ => []
                     end) t.

Definition subclip_windows (t : trace) : list (handle * pyfloat * pyfloat) :=
  flat_map (fun e => match e with
                     | EvSubclip video s e' _ => [(video, s, e')]
                     | _ => []
                     end) t.

(** Kinds of events: an invocation of an external tool; a call into the
    editing library or its import; a call that creates or writes a file
    or a directory from inside the program. *)
Definition tool_event (e : event) : bool :=
  match e with EvRun _ _ => true | _ => false end.

Definition library_event (e : event) : bool :=
  match e with
  | EvImport _ _ | EvOpen _ _ | EvSubclip _ _ _ _ | EvWrite _ _ _ _ _
  | EvClose _ => true
  | _ => false
  end.

Definition copy_event (e : event) : bool :=
  match e with EvCopy2 _ _ _ => true | _ => false end.

Definition output_event (e : event) : bool :=
  match e with
  | EvMakedirs _ _ | EvCopy2 _ _ _ | EvWrite _ _ _ _ _ => true
  | _ => false
  end.

(** A computation all of whose events are of the allowed kinds. *)
Definition only_events (allowed : event -> bool) {A : Type} (m : M A)
  : Prop :=
  forall t, exists evs, snd (m t) = t ++ evs /\ forallb allowed evs = true.

(** [l1] is [l2] with some elements left out. *)
Inductive subsequence {A : Type} : list A -> list A -> Prop :=
| subsequence_nil : subsequence [] []
| subsequence_skip : forall x l1 l2,
    subsequence l1 l2 -> subsequence l1 (x :: l2)
| subsequence_keep : forall x l1 l2,
    subsequence l1 l2 -> subsequence (x :: l1) (x :: l2).

(* ================================================================== *)
(** * A concrete platform and scripted environments *)
(* ================================================================== *)

Module Scenario.

(** [os.path.join] with two arguments on a POSIX platform. *)
Definition ends_with_slash (a : string) : bool :=
  match rev (list_ascii_of_string a) with
  | c :: _ => Ascii.eqb c "/"
  | [] => false
  end.

Definition posix_join (a b : string) : string :=
  match b with
  | String "/" _ => b
  | _ => if (a =? "")%string then b
         else if ends_with_slash a then (a ++ b)%string
         else (a ++ "/" ++ b)%string
  end.

(** [Path(p).suffix] (Python up to 3.13).  The name of a path is its last
    component, empty and [.] components left out (so a trailing slash is
    ignored); the suffix runs from the last dot of the name, unless that
    dot starts or ends the name. *)
Fixpoint components (p cur : string) : list string :=
  match p with
  | EmptyString => [cur]
  | String c p' =>
      if Ascii.eqb c "/" then cur :: components p' ""
      else components p' (cur ++ String c "")%string
  end.

Definition path_name (p : string) : string :=
  last (filter (fun c => negb (c =? "")%string && negb (c =? ".")%string)
               (components p ""))
       "".

Fixpoint split_ext (rev_name ext : list ascii) : list ascii :=
  match rev_name with
  | [] => []
  | c :: rest =>
      if Ascii.eqb c "." then
        match rest, ext with
        | [], _ | _, [] => []
        | _ :: _, _ => c :: ext
        end
      else split_ext rest (c :: ext)
  end.

Definition posix_suffix (p : string) : string :=
  string_of_list_ascii
    (split_ext (rev (list_ascii_of_string (path_name p))) []).

(** [float(s)] on ASCII text.  After the surrounding whitespace and an
    optional sign come [inf], [infinity] or [nan] in any case, or a
    decimal number: digits with an optional point (digits on at least
    one side of it) and an optional exponent; single underscores may
    separate digits.  The value is the nearest binary64.  Any other text
    raises [ValueError]. *)
Definition digit_of (c : ascii) : option Z :=
  let n := nat_of_ascii c in
  if ((48 <=? n) && (n <=? 57))%nat then Some (Z.of_nat (n - 48)) else None.

Definition starts_with_digit (s : string) : bool :=
  match s with
  | String c _ => match digit_of c with Some _ => true | None => false end
  | EmptyString => false
  end.

(** A run of digits: its value after [acc], the number of digits read
    after [count], and the rest of the text. *)
Fixpoint digits (s : string) (acc : Z) (count : nat) : Z * nat * string :=
  match s with
  | EmptyString => (acc, count, s)
  | String c s' =>
      match digit_of c with
      | Some d => digits s' (10 * acc + d) (Datatypes.S count)
      | None =>
          if Ascii.eqb c "_" && (0 <? count)%nat && starts_with_digit s'
          then digits s' acc count
          else (acc, count, s)
      end
  end.

Definition lower (c : ascii) : ascii :=
  let n := nat_of_ascii c in
  if ((65 <=? n) && (n <=? 90))%nat then ascii_of_nat (n + 32) else c.

Fixpoint lowercase (s : string) : string :=
  match s with
  | EmptyString => EmptyString
  | String c s' => String (lower c) (lowercase s')
  end.

(** [sign] and the text after it. *)
Definition signed (s : string) : Z * string :=
  match s with
  | String "-" s' => (-1, s')
  | String "+" s' => (1, s')
  | _ => (1, s)
  end.

(** The exponent part, [0] when there is none. *)
Definition exponent (s : string) : option Z :=
  match s with
  | EmptyString => Some 0
  | String c s' =>
      if Ascii.eqb (lower c) "e" then
        let '(sg, s'') := signed s' in
        match digits s'' 0 0%nat with
        | (x, Datatypes.S _, EmptyString) => Some (sg * x)
        | _ => None
        end
      else None
  end.

(** The decimal number [s], unrounded. *)
Definition decimal (s : string) : option Q :=
  let '(whole, n, rest) := digits s 0 0%nat in
  let '(frac, k, rest') :=
    match rest with
    | String "." r => digits r 0 0%nat
    | _ => (0, 0%nat, rest)
    end in
  match (n + k)%nat, exponent rest' with
  | Datatypes.S _, Some x =>
      Some (inject_Z (whole * 10 ^ Z.of_nat k + frac)
            * inject_Z 10 ^ (x - Z.of_nat k))%Q
  | _, _ => None
  end.

Definition float_of_decimal (s : string) : result pyfloat :=
  let '(sg, body) := signed (strip s) in
  let name := lowercase body in
  if ((name =? "inf") || (name =? "infinity"))%string then
    Ok (if 0 <? sg then PosInf else NegInf)
  else if (name =? "nan")%string then Ok NaN
  else
    match decimal body with
    | Some q => Ok (round64 (inject_Z sg * q))
    | None => Raise ValueError
    end.

(** A scripted environment: what the user types, which paths exist, what
    the tools and the library answer.  Answers do not depend on the
    history, except that the chunk commands and the writes are told apart
    by their arguments. *)
Record script : Type := {
  typed : string;
  existing : list string;
  ffprobe_answer : result CompletedProcess;
  ffmpeg_version_answer : result CompletedProcess;
  ffmpeg_chunk_answer : list string -> result CompletedProcess;
  importable : list string;
  clip_duration : result pyfloat;
  write_answer : string -> option string -> option string -> result unit;
  copy_answer : result unit
}.

Definition mem_string (x : string) (l : list string) : bool :=
  existsb (String.eqb x) l.

Definition env_of (s : script) : Env := {|
  builtin_input := fun _ => Ok (typed s);
  os_path_exists := fun _ p => mem_string p (existing s);
  subprocess_run := fun _ cmd =>
    match cmd with
    | prog :: arg :: _ =>
        if (prog =? "ffprobe")%string then ffprobe_answer s
        else if (arg =? "-version")%string then ffmpeg_version_answer s
        else ffmpeg_chunk_answer s cmd
    | _ => Raise FileNotFoundError
    end;
  os_makedirs := fun _ _ => Ok tt;
  shutil_copy2 := fun _ _ _ => copy_answer s;
  import_module := fun _ m =>
    if mem_string m (importable s) then Ok tt else Raise ImportError;
  moviepy_VideoFileClip := fun _ _ => clip_duration s;
  moviepy_subclip := fun _ _ _ _ => Ok tt;
  moviepy_write_videofile := fun _ _ file codec audio_codec =>
    write_answer s file codec audio_codec;
  builtin_float := float_of_decimal;
  path_suffix := posix_suffix;
  os_path_join := posix_join
|}.

Definition exited (rc : Z) (out : string) : result CompletedProcess :=
  Ok {| returncode := rc; stdout := out; stderr := "" |}.

Definition newline : string := String "010"%char "".

(** A 150 s [movie.mp4], both backends installed, everything works. *)
Definition healthy : script := {|
  typed := " movie.mp4 ";
  existing := ["movie.mp4"];
  ffprobe_answer := exited 0 ("150.000000" ++ newline);
  ffmpeg_version_answer := exited 0 "ffmpeg version 6.0";
  ffmpeg_chunk_answer := fun _ => exited 0 "";
  importable := ["moviepy"; "moviepy.editor"];
  clip_duration := Ok (Finite (150 # 1));
  write_answer := fun _ _ _ => Ok tt;
  copy_answer := Ok tt
|}.

(** The same, with a probe that prints [text]. *)
Definition probing (text : string) : script := {|
  typed := typed healthy;
  existing := existing healthy;
  ffprobe_answer := exited 0 (text ++ newline);
  ffmpeg_version_answer := ffmpeg_version_answer healthy;
  ffmpeg_chunk_answer := ffmpeg_chunk_answer healthy;
  importable := importable healthy;
  clip_duration := clip_duration healthy;
  write_answer := write_answer healthy;
  copy_answer := copy_answer healthy
|}.

(** The same, but the tool fails on the second chunk. *)
Definition second_chunk_fails : script := {|
  typed := typed healthy;
  existing := existing healthy;
  ffprobe_answer := ffprobe_answer healthy;
  ffmpeg_version_answer := ffmpeg_version_answer healthy;
  ffmpeg_chunk_answer := fun cmd =>
    if mem_string "output_chunks/chunk_2.mp4" cmd then exited 1 ""
    else exited 0 "";
  importable := importable healthy;
  clip_duration := clip_duration healthy;
  write_answer := write_answer healthy;
  copy_answer := copy_answer healthy
|}.

(** No [ffmpeg] tool at all; the library is installed, and it cannot
    encode the [aac] audio codec. *)
Definition library_only : script := {|
  typed := typed healthy;
  existing := existing healthy;
  ffprobe_answer := Raise FileNotFoundError;
  ffmpeg_version_answer := Raise FileNotFoundError;
  ffmpeg_chunk_answer := fun _ => Raise FileNotFoundError;
  importable := importable healthy;
  clip_duration := clip_duration healthy;
  write_answer := fun _ _ audio_codec =>
    match audio_codec with
    | Some _ => Raise (OSError "unknown encoder aac")
    | None => Ok tt
    end;
  copy_answer := copy_answer healthy
|}.

(** A 45 s video and an output directory that cannot be written to. *)
Definition read_only_output : script := {|
  typed := typed healthy;
  existing := existing healthy;
  ffprobe_answer := exited 0 ("45.0" ++ newline);
  ffmpeg_version_answer := ffmpeg_version_answer healthy;
  ffmpeg_chunk_answer := ffmpeg_chunk_answer healthy;
  importable := importable healthy;
  clip_duration := clip_duration healthy;
  write_answer := write_answer healthy;
  copy_answer := Raise (OSError "Permission denied")
|}.

(** The library is installed in a version without [moviepy.editor]. *)
Definition editor_missing : script := {|
  typed := typed healthy;
  existing := existing healthy;
  ffprobe_answer := ffprobe_answer healthy;
  ffmpeg_version_answer := ffmpeg_version_answer healthy;
  ffmpeg_chunk_answer := ffmpeg_chunk_answer healthy;
  importable := ["moviepy"];
  clip_duration := clip_duration healthy;
  write_answer := write_answer healthy;
  copy_answer := copy_answer healthy
|}.

(** [ffmpeg] is installed but [ffprobe] is not. *)
Definition probe_missing : script := {|
  typed := typed healthy;
  existing := existing healthy;
  ffprobe_answer := Raise FileNotFoundError;
  ffmpeg_version_answer := ffmpeg_version_answer healthy;
  ffmpeg_chunk_answer := ffmpeg_chunk_answer healthy;
  importable := importable healthy;
  clip_duration := clip_duration healthy;
  write_answer := write_answer healthy;
  copy_answer := copy_answer healthy
|}.

(** [ffmpeg] and [ffprobe] are installed but may not be executed: running
    them raises [PermissionError], an [OSError].  The library works. *)
Definition tool_not_executable : script := {|
  typed := typed healthy;
  existing := existing healthy;
  ffprobe_answer := Raise (OSError "Permission denied");
  ffmpeg_version_answer := Raise (OSError "Permission denied");
  ffmpeg_chunk_answer := fun _ => Raise (OSError "Permission denied");
  importable := importable healthy;
  clip_duration := clip_duration healthy;
  write_answer := write_answer healthy;
  copy_answer := copy_answer healthy
|}.

(** The tools work; importing the library raises an error that is not an
    [ImportError] (a broken installation). *)
Definition broken_library : Env :=
  let env := env_of healthy in {|
  builtin_input := builtin_input env;
  os_path_exists := os_path_exists env;
  subprocess_run := subprocess_run env;
  os_makedirs := os_makedirs env;
  shutil_copy2 := shutil_copy2 env;
  import_module := fun _ _ => Raise (PyException "AttributeError");
  moviepy_VideoFileClip := moviepy_VideoFileClip env;
  moviepy_subclip := moviepy_subclip env;
  moviepy_write_videofile := moviepy_write_videofile env;
  builtin_float := builtin_float env;
  path_suffix := path_suffix env;
  os_path_join := os_path_join env
|}.

(** A clip whose duration is the least positive float, 2^-1074 (that is
    [5e-324]). *)
Definition shortest_clip : script := {|
  typed := typed healthy;
  existing := existing healthy;
  ffprobe_answer := exited 0 ("5e-324" ++ newline);
  ffmpeg_version_answer := ffmpeg_version_answer healthy;
  ffmpeg_chunk_answer := ffmpeg_chunk_answer healthy;
  importable := importable healthy;
  clip_duration := Ok (Finite (1 # 2 ^ 1074));
  write_answer := write_answer healthy;
  copy_answer := copy_answer healthy
|}.

Definition args_of (m : method_choice) (chunk_duration : Z) : Args :=
  {| method := m; output_dir := "output_chunks"; duration := chunk_duration |}.

End Scenario.

(* ================================================================== *)
(** * Chunk arithmetic *)
(* ================================================================== *)

Lemma lt_int_Finite (q : Q) (k : Z) :
  lt_int (Finite q) k = true <-> (q < inject_Z k)%Q.
Proof.
  unfold lt_int. rewrite andb_true_iff, negb_true_iff, Qle_bool_iff.
  rewrite <- not_true_iff_false, Qeq_bool_iff. split.
  - intros [Hle Hne]. apply Qle_lteq in Hle. tauto.
  - intro Hlt. split; [apply Qlt_le_weak; exact Hlt|].
    apply Qlt_not_eq. exact Hlt.
Qed.

Lemma le_int_Finite (q : Q) (k : Z) :
  le_int (Finite q) k = true <-> (q <= inject_Z k)%Q.
Proof. apply Qle_bool_iff. Qed.

Lemma truthy_Finite (q : Q) : truthy (Finite q) = true <-> ~ (q == 0)%Q.
Proof.
  unfold truthy. rewrite negb_true_iff, <- not_true_iff_false, Qeq_bool_iff.
  tauto.
Qed.

(** [min((i + 1) * chunk_duration, duration)] is the minimum. *)
Lemma chunk_end_Finite (D : Q) (L i : Z) :
  exists e, chunk_end (Finite D) L i = Finite e /\
            (e == Qmin (inject_Z ((i + 1) * L)) D)%Q.
Proof.
  unfold chunk_end, min_int_float.
  destruct (lt_int (Finite D) ((i + 1) * L)) eqn:E.
  - exists D. split; [reflexivity|].
    apply lt_int_Finite in E. symmetry. apply Q.min_r.
    apply Qlt_le_weak. exact E.
  - exists (inject_Z ((i + 1) * L)). split; [reflexivity|].
    symmetry. apply Q.min_l. apply Qnot_lt_le. intro H.
    apply lt_int_Finite in H. congruence.
Qed.

Section ChunkArithmetic.

Local Open Scope Q_scope.

Variable L : Z.
Hypothesis L_pos : (0 < L)%Z.

Lemma chunk_length_pos : 0 < inject_Z L.
Proof. change 0 with (inject_Z 0). rewrite <- Zlt_Qlt. exact L_pos. Qed.

Lemma chunk_length_nonzero : ~ inject_Z L == 0.
Proof.
  intro E. pose proof chunk_length_pos as H. rewrite E in H.
  exact (Qlt_irrefl 0 H).
Qed.

Lemma quotient_times_length (x : Q) : x == (x / inject_Z L) * inject_Z L.
Proof. field. exact chunk_length_nonzero. Qed.

(** Comparing a quotient by the chunk length with an integer is comparing
    with a multiple of the chunk length. *)
Lemma lt_quotient (x : Q) (k : Z) :
  inject_Z k < x / inject_Z L <-> inject_Z (k * L) < x.
Proof.
  rewrite inject_Z_mult. rewrite (quotient_times_length x) at 2.
  symmetry. apply Qmult_lt_r. exact chunk_length_pos.
Qed.

Lemma quotient_lt (x : Q) (k : Z) :
  x / inject_Z L < inject_Z k <-> x < inject_Z (k * L).
Proof.
  rewrite inject_Z_mult. rewrite (quotient_times_length x) at 2.
  symmetry. apply Qmult_lt_r. exact chunk_length_pos.
Qed.

Lemma quotient_le (x : Q) (k : Z) :
  x / inject_Z L <= inject_Z k <-> x <= inject_Z (k * L).
Proof.
  rewrite inject_Z_mult. rewrite (quotient_times_length x) at 2.
  symmetry. apply Qmult_le_r. exact chunk_length_pos.
Qed.

Lemma le_quotient (x : Q) (k : Z) :
  inject_Z k <= x / inject_Z L <-> inject_Z (k * L) <= x.
Proof.
  rewrite inject_Z_mult. rewrite (quotient_times_length x) at 2.
  symmetry. apply Qmult_le_r. exact chunk_length_pos.
Qed.

(** The chunk that contains an instant. *)
Lemma instant_in_its_chunk (x : Q) :
  inject_Z (Qfloor (x / inject_Z L) * L) <= x /\
  x < inject_Z ((Qfloor (x / inject_Z L) + 1) * L).
Proof.
  split.
  - apply le_quotient. apply Qfloor_le.
  - apply quotient_lt. apply Qlt_floor.
Qed.

(** Two windows of one chunk length that share an instant are the same. *)
Lemma windows_disjoint (x : Q) (i j : Z) :
  inject_Z (i * L) <= x -> x < inject_Z ((i + 1) * L) ->
  inject_Z (j * L) <= x -> x < inject_Z ((j + 1) * L) ->
  i = j.
Proof.
  intros Hi1 Hi2 Hj1 Hj2.
  assert (A : (i * L < (j + 1) * L)%Z).
  { rewrite Zlt_Qlt. eapply Qle_lt_trans; eassumption. }
  assert (B : (j * L < (i + 1) * L)%Z).
  { rewrite Zlt_Qlt. eapply Qle_lt_trans; eassumption. }
  nia.
Qed.

Variable D : Q.

Let n : Z := Qceiling (D / inject_Z L).

Lemma last_start_lt_duration : inject_Z ((n - 1) * L) < D.
Proof. apply lt_quotient. apply Qceiling_lt. Qed.

Lemma duration_le_plan_end : D <= inject_Z (n * L).
Proof. apply quotient_le. apply Qle_ceiling. Qed.

Lemma chunk_start_lt_duration (i : Z) :
  (i < n)%Z -> inject_Z (chunk_start L i) < D.
Proof.
  intro Hi. apply Qle_lt_trans with (inject_Z ((n - 1) * L)).
  - rewrite <- Zle_Qle. unfold chunk_start. nia.
  - exact last_start_lt_duration.
Qed.

(** Before the last chunk the end is the next start: no clipping. *)
Lemma chunk_end_inner (i : Z) :
  (i + 1 < n)%Z ->
  chunk_end (Finite D) L i = float_of_int (chunk_start L (i + 1)).
Proof.
  intro Hi. unfold chunk_end, min_int_float.
  destruct (lt_int (Finite D) ((i + 1) * L)) eqn:E; [|reflexivity].
  exfalso. apply lt_int_Finite in E.
  apply (Qlt_irrefl D). apply Qlt_trans with (inject_Z ((i + 1) * L)).
  - exact E.
  - apply (chunk_start_lt_duration (i + 1)). lia.
Qed.

(** The last chunk ends at the duration. *)
Lemma chunk_end_last :
  exists e, chunk_end (Finite D) L (n - 1) = Finite e /\ e == D.
Proof.
  destruct (chunk_end_Finite D L (n - 1)) as [e [He Hmin]].
  exists e. split; [exact He|]. rewrite Hmin. apply Q.min_r.
  replace (n - 1 + 1)%Z with n by lia. exact duration_le_plan_end.
Qed.

Hypothesis D_pos : 0 < D.

Lemma at_least_one_chunk : (1 <= n)%Z.
Proof.
  destruct (Z_lt_le_dec 0 n) as [Hn | Hn]; [lia|].
  exfalso. apply (Qlt_irrefl 0).
  apply Qlt_le_trans with D; [exact D_pos|].
  apply Qle_trans with (inject_Z (n * L)); [exact duration_le_plan_end|].
  change 0 with (inject_Z 0). rewrite <- Zle_Qle. nia.
Qed.

(** Every instant of the video lies in the window of a planned chunk. *)
Lemma instant_chunk_planned (x : Q) :
  0 <= x -> x < D ->
  (0 <= Qfloor (x / inject_Z L) < n)%Z.
Proof.
  intros H0 HD. pose proof (instant_in_its_chunk x) as [Hlo Hhi].
  set (i := Qfloor (x / inject_Z L)) in *.
  split.
  - assert (A : (0 < (i + 1) * L)%Z).
    { rewrite Zlt_Qlt. eapply Qle_lt_trans; [exact H0 | exact Hhi]. }
    nia.
  - assert (A : (i * L < n * L)%Z).
    { rewrite Zlt_Qlt. eapply Qle_lt_trans; [exact Hlo|].
      eapply Qlt_le_trans; [exact HD | exact duration_le_plan_end]. }
    nia.
Qed.

End ChunkArithmetic.

(* ================================================================== *)
(** * Binary64 rounding and the float quotient *)
(* ================================================================== *)

Section Binary64.

Local Open Scope Q_scope.

Lemma pow2_pos (e : Z) : 0 < 2 ^ e.
Proof. apply Qpower_0_lt. reflexivity. Qed.

Lemma pow2_add (a b : Z) : 2 ^ (a + b) == 2 ^ a * 2 ^ b.
Proof. apply Qpower_plus. discriminate. Qed.

Lemma pow2_le (a b : Z) : (a <= b)%Z -> 2 ^ a <= 2 ^ b.
Proof. intro H. apply Qpower_le_compat_l; [exact H | discriminate]. Qed.

Lemma pow2_lt (a b : Z) : (a < b)%Z -> 2 ^ a < 2 ^ b.
Proof. intro H. apply Qpower_lt_compat_l; [exact H | reflexivity]. Qed.

Lemma pow2_Z (e : Z) : (0 <= e)%Z -> 2 ^ e == inject_Z (2 ^ e).
Proof. intro H. symmetry. apply (Zpower_Qpower 2 e H). Qed.

Lemma pow2_cancel (e : Z) : 2 ^ e * 2 ^ (- e) == 1.
Proof. rewrite <- pow2_add. replace (e + - e)%Z with 0%Z by lia. reflexivity. Qed.

Lemma div_pow2 (x : Q) (e : Z) : x / 2 ^ e == x * 2 ^ (- e).
Proof. unfold Qdiv. rewrite Qpower_opp. reflexivity. Qed.

(** [floor_log2 x] is the exponent of the binade of [x]. *)
Lemma floor_log2_spec (x : Q) :
  0 < x -> 2 ^ floor_log2 x <= x /\ x < 2 ^ (floor_log2 x + 1).
Proof.
  intro Hx. unfold floor_log2.
  destruct x as [a b]. cbn [Qnum Qden].
  assert (Ha : (0 < a)%Z) by (unfold Qlt in Hx; simpl in Hx; lia).
  set (la := Z.log2 a). set (lb := Z.log2 (Z.pos b)).
  assert (Hla : (0 <= la)%Z) by apply Z.log2_nonneg.
  assert (Hlb : (0 <= lb)%Z) by apply Z.log2_nonneg.
  destruct (Z.log2_spec a Ha) as [A1 A2]. fold la in A1, A2.
  destruct (Z.log2_spec (Z.pos b) (Pos2Z.is_pos b)) as [B1 B2].
  fold lb in B1, B2.
  rewrite Zle_Qle in A1, B1. rewrite Zlt_Qlt in A2, B2.
  rewrite <- pow2_Z in A1, A2, B1, B2 by lia.
  assert (HB : 0 < inject_Z (Z.pos b)) by reflexivity.
  assert (Hx' : a # b == inject_Z a / inject_Z (Z.pos b)) by apply Qmake_Qdiv.
  set (A := inject_Z a) in *. set (B := inject_Z (Z.pos b)) in *.
  set (x := a # b) in *.
  assert (Hhi : x < 2 ^ (la - lb + 1)).
  { rewrite Hx'. apply Qlt_shift_div_r; [exact HB|].
    apply Qlt_le_trans with (2 ^ (la - lb + 1) * 2 ^ lb).
    - rewrite <- pow2_add. replace (la - lb + 1 + lb)%Z with (Z.succ la) by lia.
      exact A2.
    - apply Qmult_le_l; [apply pow2_pos | exact B1]. }
  assert (Hlo : 2 ^ (la - lb - 1) < x).
  { rewrite Hx'. apply Qlt_shift_div_l; [exact HB|].
    apply Qlt_le_trans with (2 ^ (la - lb - 1) * 2 ^ Z.succ lb).
    - apply Qmult_lt_l; [apply pow2_pos | exact B2].
    - rewrite <- pow2_add. replace (la - lb - 1 + Z.succ lb)%Z with la by lia.
      exact A1. }
  destruct (Qle_bool (2 ^ (la - lb)) x) eqn:E.
  - apply Qle_bool_iff in E. split; assumption.
  - assert (E' : x < 2 ^ (la - lb)).
    { apply Qnot_le_lt. intro H. apply Qle_bool_iff in H. congruence. }
    split; [apply Qlt_le_weak; exact Hlo|].
    replace (la - lb - 1 + 1)%Z with (la - lb)%Z by lia. exact E'.
Qed.

Lemma round_half_even_ge_floor (y : Q) : (Qfloor y <= round_half_even y)%Z.
Proof.
  unfold round_half_even.
  destruct (y - inject_Z (Qfloor y) ?= 1 # 2); try lia.
  destruct (Z.even (Qfloor y)); lia.
Qed.

Lemma round_half_even_le (y : Q) (J : Z) :
  y <= inject_Z J -> (round_half_even y <= J)%Z.
Proof.
  intro H. unfold round_half_even.
  pose proof (Qfloor_resp_le _ _ H) as Hf. rewrite Qfloor_Z in Hf.
  pose proof (Qfloor_le y) as Hfy.
  destruct (Z.eq_dec (Qfloor y) J) as [E | E].
  - rewrite E in *.
    destruct (Qcompare_spec (y - inject_Z J) (1 # 2)); try lia; lra.
  - destruct (y - inject_Z (Qfloor y) ?= 1 # 2); try lia.
    destruct (Z.even (Qfloor y)); lia.
Qed.

Lemma round_half_even_gt (y : Q) (K : Z) :
  inject_Z K + (1 # 2) < y -> (K + 1 <= round_half_even y)%Z.
Proof.
  intro H.
  assert (HK : (K <= Qfloor y)%Z).
  { rewrite <- (Qfloor_Z K). apply Qfloor_resp_le. lra. }
  pose proof (round_half_even_ge_floor y) as Hge.
  destruct (Z.eq_dec (Qfloor y) K) as [E | E]; [|lia].
  unfold round_half_even. rewrite E.
  destruct (Qcompare_spec (y - inject_Z K) (1 # 2)); try lia; lra.
Qed.


(** An integer below 2^53 is a binary64 value: rounding leaves it as it
    is. *)
Lemma round_half_even_Z (z : Z) : round_half_even (inject_Z z) = z.
Proof.
  unfold round_half_even. rewrite Qfloor_Z.
  destruct (Qcompare_spec (inject_Z z - inject_Z z) (1 # 2)); try lia; lra.
Qed.

Lemma round_half_even_comp (y y' : Q) :
  y == y' -> round_half_even y = round_half_even y'.
Proof.
  intro E. unfold round_half_even. rewrite (Qfloor_comp _ _ E).
  assert (E' : y - inject_Z (Qfloor y') == y' - inject_Z (Qfloor y'))
    by (rewrite E; reflexivity).
  rewrite (Qcompare_comp _ _ E' _ _ (Qeq_refl (1 # 2))). reflexivity.
Qed.

Lemma round64_pos_small_int (L : Z) :
  (0 < L < 2 ^ 53)%Z ->
  exists l, round64_pos (inject_Z L) = Finite l /\ l == inject_Z L.
Proof.
  intros [HL0 HL53]. unfold round64_pos.
  assert (Hx : 0 < inject_Z L) by (change 0 with (inject_Z 0); rewrite <- Zlt_Qlt; exact HL0).
  destruct (floor_log2_spec _ Hx) as [Hg1 Hg2].
  set (g := floor_log2 (inject_Z L)) in *.
  set (e := Z.max (g - 52) (-1074)) in *.
  assert (Hx53 : inject_Z L < 2 ^ 53).
  { rewrite (pow2_Z 53) by lia. rewrite <- Zlt_Qlt. exact HL53. }
  assert (Hg : (g <= 52)%Z).
  { destruct (Z_le_gt_dec g 52) as [H | H]; [exact H|]. exfalso.
    assert (H53 : 2 ^ 53 <= 2 ^ g) by (apply pow2_le; lia).
    lra. }
  assert (He : (e <= 0)%Z) by lia.
  set (P := (2 ^ (- e))%Z).
  assert (HP : 2 ^ (- e) == inject_Z P) by (apply pow2_Z; lia).
  assert (HeP : 2 ^ e * inject_Z P == 1) by (rewrite <- HP; apply pow2_cancel).
  assert (Hy : inject_Z L / 2 ^ e == inject_Z (L * P))
    by (rewrite div_pow2, HP, inject_Z_mult; reflexivity).
  rewrite (round_half_even_comp _ _ Hy), round_half_even_Z.
  assert (Hv : inject_Z (L * P) * 2 ^ e == inject_Z L).
  { rewrite inject_Z_mult, <- Qmult_assoc, (Qmult_comm (inject_Z P)), HeP.
    ring. }
  set (v := inject_Z (L * P) * 2 ^ e) in *.
  assert (Hover : Qle_bool (2 ^ 1024) v = false).
  { destruct (Qle_bool (2 ^ 1024) v) eqn:E; [|reflexivity]. exfalso.
    apply Qle_bool_iff in E.
    assert (H3 : 2 ^ 53 < 2 ^ 1024) by (apply pow2_lt; lia).
    lra. }
  rewrite Hover. exists (Qred v). split; [reflexivity|].
  rewrite Qred_correct. exact Hv.
Qed.

(** Rounding keeps the sign. *)
Lemma round64_pos_nonneg (x : Q) :
  0 < x ->
  round64_pos x = PosInf \/ exists q, round64_pos x = Finite q /\ 0 <= q.
Proof.
  intro Hx. unfold round64_pos.
  set (e := Z.max (floor_log2 x - 52) (-1074)).
  set (y := x / 2 ^ e).
  assert (Hy : 0 <= y).
  { unfold y. rewrite div_pow2. apply Qmult_le_0_compat;
      [lra | apply Qlt_le_weak, pow2_pos]. }
  assert (Hm : (0 <= round_half_even y)%Z).
  { pose proof (round_half_even_ge_floor y) as H.
    assert (H0 : (0 <= Qfloor y)%Z)
      by (rewrite <- (Qfloor_Z 0); apply Qfloor_resp_le; exact Hy).
    lia. }
  destruct (Qle_bool _ _); [left; reflexivity|].
  right. eexists. split; [reflexivity|]. rewrite Qred_correct.
  apply Qmult_le_0_compat; [|apply Qlt_le_weak, pow2_pos].
  change 0 with (inject_Z 0). rewrite <- Zle_Qle. exact Hm.
Qed.

Lemma round64_pos_pos (x : Q) :
  1 <= x ->
  round64_pos x = PosInf \/ exists q, round64_pos x = Finite q /\ 0 < q.
Proof.
  intro Hx1. assert (Hx : 0 < x) by lra. unfold round64_pos.
  destruct (floor_log2_spec x Hx) as [Hg1 Hg2].
  set (g := floor_log2 x) in *.
  assert (Hg : (0 <= g)%Z).
  { destruct (Z_le_gt_dec 0 g) as [H | H]; [exact H|]. exfalso.
    assert (H0 : 2 ^ (g + 1) <= 2 ^ 0) by (apply pow2_le; lia).
    change (2 ^ 0) with 1 in H0. lra. }
  replace (Z.max (g - 52) (-1074)) with (g - 52)%Z by lia.
  set (e := (g - 52)%Z).
  set (y := x / 2 ^ e).
  assert (Hy : 1 <= y).
  { unfold y. rewrite div_pow2.
    apply Qle_trans with (2 ^ g * 2 ^ (- e)).
    - rewrite <- pow2_add. change 1 with (2 ^ 0). apply pow2_le. lia.
    - apply Qmult_le_compat_r; [exact Hg1 | apply Qlt_le_weak, pow2_pos]. }
  assert (Hm : (1 <= round_half_even y)%Z).
  { pose proof (round_half_even_ge_floor y) as H.
    assert (H0 : (1 <= Qfloor y)%Z)
      by (rewrite <- (Qfloor_Z 1); apply Qfloor_resp_le; exact Hy).
    lia. }
  destruct (Qle_bool _ _); [left; reflexivity|].
  right. eexists. split; [reflexivity|]. rewrite Qred_correct.
  apply Qmult_lt_0_compat; [|apply pow2_pos].
  change 0 with (inject_Z 0). rewrite <- Zlt_Qlt. lia.
Qed.

Lemma round64_nonneg (x : Q) :
  0 <= x ->
  round64 x = PosInf \/ exists q, round64 x = Finite q /\ 0 <= q.
Proof.
  intro Hx. unfold round64. destruct (Qcompare_spec x 0) as [E | E | E].
  - right. exists 0. split; [reflexivity | lra].
  - lra.
  - apply round64_pos_nonneg. exact E.
Qed.

Lemma round64_nonpos (x : Q) :
  x <= 0 ->
  round64 x = NegInf \/ exists q, round64 x = Finite q /\ q <= 0.
Proof.
  intro Hx. unfold round64. destruct (Qcompare_spec x 0) as [E | E | E].
  - right. exists 0. split; [reflexivity | lra].
  - assert (Hx' : 0 < - x) by lra.
    destruct (round64_pos_nonneg _ Hx') as [-> | [q [-> Hq]]].
    + left. reflexivity.
    + right. exists (- q). split; [reflexivity | lra].
  - lra.
Qed.

Lemma inject_Z_pos (L : Z) : (0 < L)%Z -> 0 < inject_Z L.
Proof. intro H. change 0 with (inject_Z 0). rewrite <- Zlt_Qlt. exact H. Qed.

Lemma inject_Z_ge_1 (L : Z) : (0 < L)%Z -> 1 <= inject_Z L.
Proof. intro H. change 1 with (inject_Z 1). rewrite <- Zle_Qle. lia. Qed.

(** The conversion of an int keeps its sign, and is exact below 2^53. *)
Lemma int_to_float_small (L : Z) :
  (0 < L < 2 ^ 53)%Z -> exists l, int_to_float L = Ok l /\ l == inject_Z L.
Proof.
  intro HL. unfold int_to_float, round64.
  pose proof (inject_Z_pos L (proj1 HL)) as Hx.
  destruct (Qcompare_spec (inject_Z L) 0) as [E | E | E]; try lra.
  destruct (round64_pos_small_int L HL) as [l [-> Hl]].
  exists l. split; [reflexivity | exact Hl].
Qed.

Lemma int_to_float_pos (L : Z) (l : Q) :
  (0 < L)%Z -> int_to_float L = Ok l -> 0 < l.
Proof.
  intros HL. unfold int_to_float, round64.
  pose proof (inject_Z_pos L HL) as Hx.
  destruct (Qcompare_spec (inject_Z L) 0) as [E | E | E]; try lra.
  destruct (round64_pos_pos _ (inject_Z_ge_1 L HL)) as [-> | [q [-> Hq]]];
    [discriminate|].
  intro H. injection H as <-. exact Hq.
Qed.

Lemma int_to_float_neg (L : Z) (l : Q) :
  (L < 0)%Z -> int_to_float L = Ok l -> l < 0.
Proof.
  intros HL. unfold int_to_float, round64.
  assert (Hx : 1 <= - inject_Z L).
  { rewrite <- inject_Z_opp. apply inject_Z_ge_1. lia. }
  destruct (Qcompare_spec (inject_Z L) 0) as [E | E | E]; try lra.
  destruct (round64_pos_pos _ Hx) as [-> | [q [-> Hq]]]; [discriminate|].
  intro H. injection H as <-. lra.
Qed.


Lemma Qceiling_between (q : Q) (k : Z) :
  inject_Z k < q -> q <= inject_Z (k + 1) -> Qceiling q = (k + 1)%Z.
Proof.
  intros Hlo Hhi.
  pose proof (Qceiling_resp_le _ _ Hhi) as H1. rewrite Qceiling_Z in H1.
  pose proof (Qle_ceiling q) as H2.
  assert (H3 : (k < Qceiling q)%Z) by (rewrite Zlt_Qlt; lra).
  lia.
Qed.

Lemma round_half_even_ge (y : Q) (K : Z) :
  inject_Z K <= y -> (K <= round_half_even y)%Z.
Proof.
  intro H. pose proof (round_half_even_ge_floor y) as Hf.
  pose proof (Qfloor_resp_le _ _ H) as HK. rewrite Qfloor_Z in HK. lia.
Qed.

Lemma round_half_even_lt (y : Q) (J : Z) :
  y < inject_Z J - (1 # 2) -> (round_half_even y <= J - 1)%Z.
Proof.
  intro H.
  assert (Hf : (Qfloor y < J)%Z).
  { rewrite Zlt_Qlt. pose proof (Qfloor_le y). lra. }
  destruct (Z.eq_dec (Qfloor y + 1) J) as [E | E].
  - subst J. rewrite inject_Z_plus in H. change (inject_Z 1) with 1 in H.
    unfold round_half_even.
    destruct (Qcompare_spec (y - inject_Z (Qfloor y)) (1 # 2)) as [C | C | C];
      try lia; exfalso; lra.
  - unfold round_half_even.
    destruct (y - inject_Z (Qfloor y) ?= 1 # 2); try lia.
    destruct (Z.even (Qfloor y)); lia.
Qed.

(** A positive [x] below 2^53 between the integers [k] and [k + 1] is
    rounded to a value between them, which is not [k] when [x] is more
    than half a unit in the last place above [k], and not [k + 1] when
    [x] is more than half a unit in the last place below [k + 1]. *)
Lemma round64_pos_bounds (x : Q) (k : Z) :
  0 < x -> x < 2 ^ 53 ->
  inject_Z k <= x -> x <= inject_Z (k + 1) ->
  let e := Z.max (floor_log2 x - 52) (-1074) in
  exists q, round64_pos x = Finite q /\
            inject_Z k <= q /\ q <= inject_Z (k + 1) /\
            (2 ^ (e - 1) < x - inject_Z k -> inject_Z k < q) /\
            (2 ^ (e - 1) < inject_Z (k + 1) - x -> q < inject_Z (k + 1)).
Proof.
  intros Hx Hx53 Hk Hk1 e0. unfold round64_pos.
  destruct (floor_log2_spec x Hx) as [Hg1 Hg2].
  set (g := floor_log2 x) in *. set (e := Z.max (g - 52) (-1074)) in *.
  assert (Hg : (g <= 52)%Z).
  { destruct (Z_le_gt_dec g 52) as [H | H]; [exact H|]. exfalso.
    assert (H53 : 2 ^ 53 <= 2 ^ g) by (apply pow2_le; lia).
    lra. }
  assert (He : (e <= 0)%Z) by lia.
  set (P := (2 ^ (- e))%Z).
  assert (HP : 2 ^ (- e) == inject_Z P) by (apply pow2_Z; lia).
  assert (HP0 : 0 < inject_Z P) by (rewrite <- HP; apply pow2_pos).
  assert (HeP : 2 ^ e * inject_Z P == 1) by (rewrite <- HP; apply pow2_cancel).
  pose proof (pow2_pos e) as Hpe.
  assert (Hy : x / 2 ^ e == x * inject_Z P)
    by (rewrite div_pow2, HP; reflexivity).
  assert (Hhalf : 2 ^ (e - 1) * inject_Z P == 1 # 2).
  { rewrite <- HP, <- pow2_add. replace (e - 1 + - e)%Z with (-1)%Z by lia.
    reflexivity. }
  set (y := x / 2 ^ e) in *.
  (* from the integer side to the value *)
  assert (Hback : forall z : Z,
            inject_Z (z * P) * 2 ^ e == inject_Z z).
  { intro z. rewrite inject_Z_mult, <- Qmult_assoc,
      (Qmult_comm (inject_Z P)), HeP. ring. }
  assert (Hhi : (round_half_even y <= (k + 1) * P)%Z).
  { apply round_half_even_le. rewrite Hy, inject_Z_mult.
    apply Qmult_le_compat_r; [exact Hk1 | lra]. }
  assert (Hlo : (k * P <= round_half_even y)%Z).
  { apply round_half_even_ge. rewrite Hy, inject_Z_mult.
    apply Qmult_le_compat_r; [exact Hk | lra]. }
  assert (Hlo' : 2 ^ (e - 1) < x - inject_Z k ->
                 (k * P + 1 <= round_half_even y)%Z).
  { intro Hgap. apply round_half_even_gt. rewrite Hy, inject_Z_mult.
    assert (Hmul : 2 ^ (e - 1) * inject_Z P < (x - inject_Z k) * inject_Z P)
      by (apply Qmult_lt_compat_r; assumption).
    rewrite Hhalf in Hmul.
    setoid_replace ((x - inject_Z k) * inject_Z P)
      with (x * inject_Z P - inject_Z k * inject_Z P) in Hmul by ring.
    lra. }
  assert (Hhi' : 2 ^ (e - 1) < inject_Z (k + 1) - x ->
                 (round_half_even y <= (k + 1) * P - 1)%Z).
  { intro Hgap. apply round_half_even_lt. rewrite Hy, inject_Z_mult.
    assert (Hmul : 2 ^ (e - 1) * inject_Z P
                   < (inject_Z (k + 1) - x) * inject_Z P)
      by (apply Qmult_lt_compat_r; assumption).
    rewrite Hhalf in Hmul.
    setoid_replace ((inject_Z (k + 1) - x) * inject_Z P)
      with (inject_Z (k + 1) * inject_Z P - x * inject_Z P) in Hmul by ring.
    lra. }
  set (m := round_half_even y) in *.
  assert (Hmono : forall a b : Z, (a <= b)%Z ->
            inject_Z a * 2 ^ e <= inject_Z b * 2 ^ e).
  { intros a b Hab. apply Qmult_le_compat_r; [rewrite <- Zle_Qle; exact Hab|].
    lra. }
  assert (Hstep : forall a : Z,
            inject_Z (a + 1) * 2 ^ e == inject_Z a * 2 ^ e + 2 ^ e).
  { intro a. rewrite inject_Z_plus. change (inject_Z 1) with 1. ring. }
  assert (Hv1 : inject_Z m * 2 ^ e <= inject_Z (k + 1)).
  { rewrite <- (Hback (k + 1)%Z). apply Hmono. exact Hhi. }
  assert (Hv0 : inject_Z k <= inject_Z m * 2 ^ e).
  { rewrite <- (Hback k). apply Hmono. exact Hlo. }
  set (v := inject_Z m * 2 ^ e) in *.
  assert (Hover : Qle_bool (2 ^ 1024) v = false).
  { destruct (Qle_bool (2 ^ 1024) v) eqn:E; [|reflexivity]. exfalso.
    apply Qle_bool_iff in E.
    assert (H1 : (k < 2 ^ 53)%Z).
    { rewrite Zlt_Qlt, <- (pow2_Z 53) by lia. lra. }
    assert (H2 : inject_Z (k + 1) <= 2 ^ 53).
    { rewrite (pow2_Z 53) by lia. rewrite <- Zle_Qle. lia. }
    assert (H3 : 2 ^ 53 < 2 ^ 1024) by (apply pow2_lt; lia).
    lra. }
  rewrite Hover. exists (Qred v). split; [reflexivity|].
  rewrite Qred_correct. split; [exact Hv0|]. split; [exact Hv1|]. split.
  - intro Hgap. specialize (Hlo' Hgap).
    apply Qlt_le_trans with (inject_Z (k * P + 1) * 2 ^ e).
    + rewrite Hstep, Hback. lra.
    + apply Hmono. exact Hlo'.
  - intro Hgap. specialize (Hhi' Hgap).
    apply Qle_lt_trans with (inject_Z ((k + 1) * P - 1) * 2 ^ e).
    + apply Hmono. exact Hhi'.
    + pose proof (Hstep ((k + 1) * P - 1)%Z) as Hs.
      replace ((k + 1) * P - 1 + 1)%Z with ((k + 1) * P)%Z in Hs by lia.
      rewrite Hback in Hs. lra.
Qed.

(** The quotient of a binary64 value M * 2^E (E <= 0) by an integer is
    farther than half a unit in its last place from every integer it
    differs from. *)
Lemma quotient_far_from_integers (x : Q) (M E B k : Z) :
  (0 < M < 2 ^ 53)%Z -> (E <= 0)%Z -> (0 < B)%Z ->
  x == inject_Z M * 2 ^ E / inject_Z B ->
  (inject_Z k < x -> 2 ^ (floor_log2 x - 53) < x - inject_Z k) /\
  (x < inject_Z k -> 2 ^ (floor_log2 x - 53) < inject_Z k - x).
Proof.
  intros HM HE HB Hxq.
  pose proof (inject_Z_pos B HB) as HB0.
  pose proof (pow2_pos E) as HpE.
  assert (HM0 : 0 < inject_Z M) by (apply inject_Z_pos; lia).
  assert (Hx : 0 < x).
  { rewrite Hxq. apply Qlt_shift_div_l; [exact HB0|].
    rewrite Qmult_0_l. apply Qmult_lt_0_compat; assumption. }
  assert (HxB : x * inject_Z B == inject_Z M * 2 ^ E).
  { rewrite Hxq. field. lra. }
  destruct (floor_log2_spec x Hx) as [Hg1 _].
  set (g := floor_log2 x) in *.
  set (S := (2 ^ (- E))%Z).
  assert (HS : 2 ^ (- E) == inject_Z S) by (apply pow2_Z; lia).
  assert (HS0 : 0 < inject_Z S) by (rewrite <- HS; apply pow2_pos).
  assert (HES : 2 ^ E * inject_Z S == 1) by (rewrite <- HS; apply pow2_cancel).
  assert (HM53 : inject_Z M < 2 ^ 53).
  { rewrite (pow2_Z 53) by lia. rewrite <- Zlt_Qlt. lia. }
  assert (HU : inject_Z B * 2 ^ g < 2 ^ 53 * 2 ^ E).
  { apply Qle_lt_trans with (x * inject_Z B).
    - rewrite (Qmult_comm x). apply Qmult_le_l; assumption.
    - rewrite HxB. apply Qmult_lt_compat_r; assumption. }
  assert (Hg53 : 2 ^ g == 2 ^ 53 * 2 ^ (g - 53)).
  { rewrite <- pow2_add. replace (53 + (g - 53))%Z with g by lia.
    reflexivity. }
  pose proof (pow2_pos 53) as Hp53.
  assert (HU' : inject_Z B * 2 ^ (g - 53) < 2 ^ E).
  { apply (Qmult_lt_l _ _ (2 ^ 53)); [exact Hp53|].
    setoid_replace (2 ^ 53 * (inject_Z B * 2 ^ (g - 53)))
      with (inject_Z B * (2 ^ 53 * 2 ^ (g - 53))) by ring.
    rewrite <- Hg53. exact HU. }
  (* M * 2^E as a multiple of 2^E, next to the multiple k * B * S *)
  assert (HMS : x * inject_Z B * inject_Z S == inject_Z M).
  { rewrite HxB, <- Qmult_assoc, HES. ring. }
  assert (Hunit : forall a : Z, inject_Z a * 2 ^ E * inject_Z S == inject_Z a).
  { intro a. rewrite <- Qmult_assoc, HES. ring. }
  split; intro Hk.
  - assert (HT : (k * B * S + 1 <= M)%Z).
    { assert (H : (k * B * S < M)%Z); [|lia].
      rewrite Zlt_Qlt, !inject_Z_mult, <- HMS.
      apply Qmult_lt_compat_r; [exact HS0|].
      apply Qmult_lt_compat_r; assumption. }
    rewrite Zle_Qle, inject_Z_plus, !inject_Z_mult in HT.
    change (inject_Z 1) with 1 in HT.
    assert (HT' : inject_Z k * inject_Z B + 2 ^ E <= x * inject_Z B).
    { apply (Qmult_le_r _ _ (inject_Z S)); [exact HS0|].
      rewrite HMS.
      setoid_replace ((inject_Z k * inject_Z B + 2 ^ E) * inject_Z S)
        with (inject_Z k * inject_Z B * inject_Z S + 2 ^ E * inject_Z S)
        by ring.
      rewrite HES. exact HT. }
    apply (Qmult_lt_l _ _ (inject_Z B)); [exact HB0|].
    setoid_replace (inject_Z B * (x - inject_Z k))
      with (x * inject_Z B - inject_Z k * inject_Z B) by ring.
    lra.
  - assert (HT : (M + 1 <= k * B * S)%Z).
    { assert (H : (M < k * B * S)%Z); [|lia].
      rewrite Zlt_Qlt, !inject_Z_mult, <- HMS.
      apply Qmult_lt_compat_r; [exact HS0|].
      apply Qmult_lt_compat_r; assumption. }
    rewrite Zle_Qle, inject_Z_plus, !inject_Z_mult in HT.
    change (inject_Z 1) with 1 in HT.
    assert (HT' : x * inject_Z B + 2 ^ E <= inject_Z k * inject_Z B).
    { apply (Qmult_le_r _ _ (inject_Z S)); [exact HS0|].
      setoid_replace ((x * inject_Z B + 2 ^ E) * inject_Z S)
        with (x * inject_Z B * inject_Z S + 2 ^ E * inject_Z S)
        by ring.
      rewrite HES, HMS. exact HT. }
    apply (Qmult_lt_l _ _ (inject_Z B)); [exact HB0|].
    setoid_replace (inject_Z B * (inject_Z k - x))
      with (inject_Z k * inject_Z B - x * inject_Z B) by ring.
    lra.
Qed.


Lemma Qfloor_between (q : Q) (k : Z) :
  inject_Z k <= q -> q < inject_Z (k + 1) -> Qfloor q = k.
Proof.
  intros Hlo Hhi.
  pose proof (Qfloor_resp_le _ _ Hlo) as H1. rewrite Qfloor_Z in H1.
  pose proof (Qfloor_le q) as H2.
  assert (H3 : (Qfloor q < k + 1)%Z) by (rewrite Zlt_Qlt; lra).
  lia.
Qed.

(** The float quotient of a binary64 value below 2^53 by an integer has
    the floor of the quotient and, unless the quotient is rounded to
    zero, also its ceiling. *)
Lemma round64_pos_quotient (x : Q) (M E B : Z) :
  (0 < M < 2 ^ 53)%Z -> (-1074 <= E <= 0)%Z -> (0 < B)%Z ->
  x == inject_Z M * 2 ^ E / inject_Z B ->
  exists q, round64_pos x = Finite q /\ 0 <= q /\
            Qfloor q = Qfloor x /\
            (2 ^ (-1075) < x -> Qceiling q = Qceiling x).
Proof.
  intros HM HE HB Hxq.
  pose proof (inject_Z_pos B HB) as HB0.
  pose proof (inject_Z_ge_1 B HB) as HB1.
  pose proof (pow2_pos E) as HpE.
  assert (HM0 : 0 < inject_Z M) by (apply inject_Z_pos; lia).
  assert (Hx : 0 < x).
  { rewrite Hxq. apply Qlt_shift_div_l; [exact HB0|].
    rewrite Qmult_0_l. apply Qmult_lt_0_compat; assumption. }
  assert (HE1 : 2 ^ E <= 1).
  { change 1 with (2 ^ 0). apply pow2_le. lia. }
  assert (HM53 : inject_Z M < 2 ^ 53).
  { rewrite (pow2_Z 53) by lia. rewrite <- Zlt_Qlt. lia. }
  assert (Hx53 : x < 2 ^ 53).
  { apply Qle_lt_trans with (inject_Z M); [|exact HM53].
    rewrite Hxq. apply Qle_shift_div_r; [exact HB0|].
    apply Qle_trans with (inject_Z M * 1).
    - apply Qmult_le_l; assumption.
    - apply Qmult_le_l; assumption. }
  destruct (floor_log2_spec x Hx) as [Hg1 Hg2].
  pose proof (fun k => quotient_far_from_integers x M E B k HM (proj2 HE) HB Hxq)
    as Hfar.
  set (g := floor_log2 x) in *.
  assert (Hsmall : (g - 52 < -1074)%Z -> x < 1 # 2).
  { intro Hc.
    assert (H1 : 2 ^ (g + 1) <= 2 ^ (-1)) by (apply pow2_le; lia).
    change (2 ^ (-1)) with (1 # 2) in H1. lra. }
  assert (Hp1075 : 2 ^ (-1075) <= 1 # 2).
  { change (1 # 2) with (2 ^ (-1)). apply pow2_le. lia. }
  (* the floor *)
  set (k := Qfloor x).
  pose proof (Qfloor_le x) as Hk. fold k in Hk.
  pose proof (Qlt_floor x) as Hk1. fold k in Hk1.
  destruct (round64_pos_bounds x k Hx Hx53 Hk (Qlt_le_weak _ _ Hk1))
    as [q [Hq [Hq0 [Hq1 [_ Hlt]]]]].
  fold g in Hlt.
  assert (Hk0 : (0 <= k)%Z).
  { unfold k. rewrite <- (Qfloor_Z 0). apply Qfloor_resp_le.
    change (inject_Z 0) with 0. lra. }
  exists q. split; [exact Hq|]. split.
  { apply Qle_trans with (inject_Z k); [|exact Hq0].
    change 0 with (inject_Z 0). rewrite <- Zle_Qle. exact Hk0. }
  split.
  - apply Qfloor_between; [exact Hq0|]. apply Hlt.
    destruct (Z_le_gt_dec (-1074) (g - 52)) as [Hc | Hc].
    + replace (Z.max (g - 52) (-1074) - 1)%Z with (g - 53)%Z by lia.
      apply (proj2 (Hfar (k + 1)%Z)). exact Hk1.
    + replace (Z.max (g - 52) (-1074) - 1)%Z with (-1075)%Z by lia.
      assert (Hx12 : x < 1 # 2) by (apply Hsmall; lia).
      assert (Hk' : (k < 1)%Z)
        by (rewrite Zlt_Qlt; change (inject_Z 1) with 1; lra).
      replace k with 0%Z by lia. change (inject_Z (0 + 1)) with 1. lra.
  - intro Hmin.
    set (n := Qceiling x).
    pose proof (Qceiling_lt x) as Hn1. fold n in Hn1.
    pose proof (Qle_ceiling x) as Hn. fold n in Hn.
    replace n with (n - 1 + 1)%Z in Hn |- * by lia.
    destruct (round64_pos_bounds x (n - 1) Hx Hx53 (Qlt_le_weak _ _ Hn1) Hn)
      as [q' [Hq' [_ [Hq1' [Hgt _]]]]].
    fold g in Hgt. rewrite Hq in Hq'. injection Hq' as <-.
    apply Qceiling_between; [|exact Hq1'].
    apply Hgt.
    destruct (Z_le_gt_dec (-1074) (g - 52)) as [Hc | Hc].
    + replace (Z.max (g - 52) (-1074) - 1)%Z with (g - 53)%Z by lia.
      apply (proj1 (Hfar (n - 1)%Z)). exact Hn1.
    + replace (Z.max (g - 52) (-1074) - 1)%Z with (-1075)%Z by lia.
      assert (Hx12 : x < 1 # 2) by (apply Hsmall; lia).
      assert (Hn' : (n - 1 < 1)%Z)
        by (rewrite Zlt_Qlt; change (inject_Z 1) with 1; lra).
      assert (Hn0 : (0 < n - 1 + 1)%Z)
        by (rewrite Zlt_Qlt; change (inject_Z 0) with 0; lra).
      replace (n - 1)%Z with 0%Z by lia. change (inject_Z 0) with 0. lra.
Qed.


Lemma int_to_float_exact (L : Z) :
  (0 < Z.abs L < 2 ^ 53)%Z ->
  exists l, int_to_float L = Ok l /\ l == inject_Z L.
Proof.
  intro HL. destruct (Z_lt_le_dec 0 L) as [Hpos | Hneg].
  - apply int_to_float_small. lia.
  - assert (HL' : (0 < - L < 2 ^ 53)%Z) by lia.
    unfold int_to_float, round64.
    pose proof (inject_Z_pos (- L) (proj1 HL')) as Hx.
    rewrite inject_Z_opp in Hx.
    destruct (Qcompare_spec (inject_Z L) 0) as [E | E | E]; try lra.
    change (- inject_Z L) with (inject_Z (- L)).
    destruct (round64_pos_small_int (- L) HL') as [l [-> Hl]].
    exists (- l). split; [reflexivity|].
    rewrite Hl, inject_Z_opp. ring.
Qed.

(** The plan for a binary64 duration of either sign, of magnitude below
    2^53, and a chunk length of either sign, of magnitude below 2^53: it
    is the ceiling of the quotient, unless the quotient is positive and
    so small that it is rounded to zero. *)
Lemma plan_num_chunks_exact_signed (D : Q) (L M E : Z) :
  (0 < Z.abs L < 2 ^ 53)%Z -> (Z.abs M < 2 ^ 53)%Z -> (-1074 <= E <= 0)%Z ->
  D == inject_Z M * 2 ^ E ->
  (0 < D / inject_Z L -> 2 ^ (-1075) < D / inject_Z L) ->
  plan_num_chunks (Finite D) L = Ok (Qceiling (D / inject_Z L)).
Proof.
  intros HL HM HE HD Hmin.
  destruct (int_to_float_exact L HL) as [l [Hl Hle]].
  unfold plan_num_chunks, div_int. rewrite Hl.
  assert (HLq : ~ inject_Z L == 0).
  { intro E0. apply (inject_Z_injective L 0) in E0. lia. }
  assert (Hl0 : Qeq_bool l 0 = false).
  { destruct (Qeq_bool l 0) eqn:E0; [|reflexivity].
    apply Qeq_bool_iff in E0. rewrite Hle in E0. contradiction. }
  rewrite Hl0.
  assert (Hxx : D / l == D / inject_Z L) by (rewrite Hle; reflexivity).
  rewrite <- (Qceiling_comp _ _ Hxx). rewrite <- Hxx in Hmin.
  set (x := D / l) in *.
  assert (Hx : x == inject_Z M * 2 ^ E / inject_Z L)
    by (rewrite Hxx, HD; reflexivity).
  assert (Hcases :
            x == 0 \/
            (exists M' B', (0 < M' < 2 ^ 53)%Z /\ (0 < B')%Z /\
                           0 < x /\
                           x == inject_Z M' * 2 ^ E / inject_Z B') \/
            (exists M' B', (0 < M' < 2 ^ 53)%Z /\ (0 < B')%Z /\
                           x < 0 /\
                           - x == inject_Z M' * 2 ^ E / inject_Z B')).
  { pose proof (pow2_pos E) as HpE.
    assert (Hquot : forall M' B', (0 < M')%Z -> (0 < B')%Z ->
              0 < inject_Z M' * 2 ^ E / inject_Z B').
    { intros M' B' HM' HB'. apply Qlt_shift_div_l;
        [apply inject_Z_pos; exact HB'|].
      rewrite Qmult_0_l. apply Qmult_lt_0_compat;
        [apply inject_Z_pos; exact HM' | exact HpE]. }
    destruct (Z.eq_dec M 0) as [-> | HM0].
    { left. rewrite Hx. unfold Qdiv. ring. }
    right.
    assert (HoppM : inject_Z (- M) == - inject_Z M)
      by (rewrite inject_Z_opp; reflexivity).
    assert (HoppL : inject_Z (- L) == - inject_Z L)
      by (rewrite inject_Z_opp; reflexivity).
    assert (HLq' : ~ - inject_Z L == 0) by (intro E0; apply HLq; lra).
    destruct (Z_lt_le_dec 0 M) as [HMp | HMn];
      destruct (Z_lt_le_dec 0 L) as [HLp | HLn].
    - left. exists M, L. repeat split; try lia; [|exact Hx].
      rewrite Hx. apply Hquot; lia.
    - right. exists M, (- L)%Z.
      assert (E' : - x == inject_Z M * 2 ^ E / inject_Z (- L)).
      { rewrite Hx, HoppL. field. exact HLq. }
      repeat split; try lia; [|exact E'].
      pose proof (Hquot M (- L)%Z ltac:(lia) ltac:(lia)) as Hp.
      rewrite <- E' in Hp. lra.
    - right. exists (- M)%Z, L.
      assert (E' : - x == inject_Z (- M) * 2 ^ E / inject_Z L).
      { rewrite Hx, HoppM. field. exact HLq. }
      repeat split; try lia; [|exact E'].
      pose proof (Hquot (- M)%Z L ltac:(lia) ltac:(lia)) as Hp.
      rewrite <- E' in Hp. lra.
    - left. exists (- M)%Z, (- L)%Z.
      assert (E' : x == inject_Z (- M) * 2 ^ E / inject_Z (- L)).
      { rewrite Hx, HoppM, HoppL. field. exact HLq. }
      repeat split; try lia; [|exact E'].
      rewrite E'. apply Hquot; lia. }
  unfold round64.
  destruct Hcases as [Hz | [[M' [B' [HM' [HB' [Hpos Hq]]]]]
                           | [M' [B' [HM' [HB' [Hneg Hq]]]]]]].
  - destruct (Qcompare_spec x 0) as [C | C | C]; try lra.
    simpl. f_equal. rewrite (Qceiling_comp _ _ Hz). reflexivity.
  - destruct (Qcompare_spec x 0) as [C | C | C]; try lra.
    destruct (round64_pos_quotient x M' E B' HM' HE HB' Hq)
      as [q [-> [_ [_ Hceil]]]].
    simpl. f_equal. apply Hceil. apply Hmin. exact Hpos.
  - destruct (Qcompare_spec x 0) as [C | C | C]; try lra.
    destruct (round64_pos_quotient (- x) M' E B' HM' HE HB' Hq)
      as [q [-> [_ [Hfloor _]]]].
    simpl. f_equal. unfold Qceiling. rewrite <- Hfloor.
    f_equal. apply Qfloor_comp. apply Qopp_involutive.
Qed.


(** The same for a duration and a chunk length above zero. *)
Lemma plan_num_chunks_exact (D : Q) (L M E : Z) :
  (0 < L < 2 ^ 53)%Z -> (0 < M < 2 ^ 53)%Z -> (-1074 <= E <= 0)%Z ->
  D == inject_Z M * 2 ^ E ->
  2 ^ (-1075) < D / inject_Z L ->
  plan_num_chunks (Finite D) L = Ok (Qceiling (D / inject_Z L)).
Proof.
  intros HL HM HE HD Hmin.
  apply (plan_num_chunks_exact_signed D L M E); try assumption; try lia.
  intros _. exact Hmin.
Qed.

(** A positive quotient of at most 2^-1075, half the least positive
    binary64 value, is rounded to zero. *)
Lemma round64_pos_underflow (x : Q) :
  0 < x -> x <= 2 ^ (-1075) -> round64_pos x = Finite 0.
Proof.
  intros Hx Hsmall. unfold round64_pos.
  destruct (floor_log2_spec x Hx) as [Hg1 _].
  set (g := floor_log2 x) in *.
  assert (Hg : (g <= -1075)%Z).
  { apply (Qpower_le_compat_l_inv 2); [|reflexivity].
    eapply Qle_trans; eassumption. }
  replace (Z.max (g - 52) (-1074)) with (-1074)%Z by lia.
  assert (Hy : 0 < x / 2 ^ (-1074) /\ x / 2 ^ (-1074) <= 1 # 2).
  { rewrite div_pow2. pose proof (pow2_pos (- -1074)) as Hp. split.
    - apply Qmult_lt_0_compat; assumption.
    - apply Qle_trans with (2 ^ (-1075) * 2 ^ (- -1074)).
      + apply Qmult_le_compat_r; [exact Hsmall | lra].
      + rewrite <- pow2_add. apply Qle_refl. }
  set (y := x / 2 ^ (-1074)) in *.
  assert (Hf : Qfloor y = 0%Z).
  { apply Qfloor_between; [change (inject_Z 0) with 0 | change (inject_Z (0 + 1)) with 1];
      lra. }
  assert (Hm : round_half_even y = 0%Z).
  { unfold round_half_even. rewrite Hf. change (inject_Z 0) with 0.
    destruct (Qcompare_spec (y - 0) (1 # 2)) as [C | C | C];
      try reflexivity.
    exfalso. lra. }
  rewrite Hm. reflexivity.
Qed.

Lemma plan_num_chunks_underflow (D : Q) (L : Z) :
  0 < D -> (0 < L < 2 ^ 53)%Z -> D / inject_Z L <= 2 ^ (-1075) ->
  plan_num_chunks (Finite D) L = Ok 0%Z.
Proof.
  intros HD HL Hsmall.
  destruct (int_to_float_small L HL) as [l [Hl Hle]].
  unfold plan_num_chunks, div_int. rewrite Hl.
  pose proof (inject_Z_pos L (proj1 HL)) as HLq.
  assert (Hl0 : Qeq_bool l 0 = false).
  { destruct (Qeq_bool l 0) eqn:E0; [|reflexivity].
    apply Qeq_bool_iff in E0. lra. }
  rewrite Hl0.
  assert (Hxx : D / l == D / inject_Z L) by (rewrite Hle; reflexivity).
  rewrite <- Hxx in Hsmall.
  assert (Hx : 0 < D / l).
  { rewrite Hxx. apply Qlt_shift_div_l; [exact HLq | lra]. }
  unfold round64. destruct (Qcompare_spec (D / l) 0) as [C | C | C]; try lra.
  rewrite (round64_pos_underflow _ Hx Hsmall). reflexivity.
Qed.

(** The sign of the plan. *)
Lemma plan_num_chunks_sign (D : Q) (L n : Z) :
  0 <= D -> plan_num_chunks (Finite D) L = Ok n ->
  ((0 < L)%Z -> (0 <= n)%Z) /\ ((L < 0)%Z -> (n <= 0)%Z).
Proof.
  intros HD. unfold plan_num_chunks, div_int.
  destruct (int_to_float L) as [l | e] eqn:Hl; [|discriminate].
  destruct (Qeq_bool l 0); [discriminate|].
  intro H. split; intro HL.
  - pose proof (int_to_float_pos L l HL Hl) as Hl0.
    assert (Hx : 0 <= D / l).
    { apply Qle_shift_div_l; [exact Hl0 | lra]. }
    destruct (round64_nonneg _ Hx) as [E | [q [E Hq]]]; rewrite E in H;
      [discriminate|].
    simpl in H. injection H as <-.
    pose proof (Qle_ceiling q) as Hc.
    assert (H0 : (-1 < Qceiling q)%Z)
      by (rewrite Zlt_Qlt; change (inject_Z (-1)) with (-1); lra).
    lia.
  - pose proof (int_to_float_neg L l HL Hl) as Hl0.
    assert (Hx : D / l <= 0).
    { assert (Hx' : 0 <= D / - l).
      { apply Qle_shift_div_l; lra. }
      assert (E : D / - l == - (D / l)) by (field; lra).
      lra. }
    destruct (round64_nonpos _ Hx) as [E | [q [E Hq]]]; rewrite E in H;
      [discriminate|].
    simpl in H. injection H as <-.
    pose proof (Qceiling_resp_le _ _ Hq) as Hc.
    exact Hc.
Qed.

End Binary64.

(* ================================================================== *)
(** * Loops *)
(* ================================================================== *)

Section Loops.

Context {S : Type}.
Variable body : Z -> S -> M S.

Lemma for_each_app (l1 l2 : list Z) (s : S) (t : trace) :
  for_each (l1 ++ l2) body s t
  = bind (for_each l1 body s) (for_each l2 body) t.
Proof.
  revert s t. induction l1 as [|i l1 IH]; intros s t; simpl.
  - reflexivity.
  - unfold bind. destruct (body i s t) as [[s' | e] t'].
    + rewrite IH. reflexivity.
    + reflexivity.
Qed.

Variable step : Z -> trace -> S -> S -> list event -> Prop.

Hypothesis body_step : forall i s t, exists s' evs,
  body i s t = (Ok s', t ++ evs) /\ step i t s s' evs.

(** A loop whose body never raises runs every iteration, in order. *)
Lemma for_each_iterations (l : list Z) : forall s t, exists s' groups,
  for_each l body s t = (Ok s', t ++ List.concat groups) /\
  iterations step l t s s' groups.
Proof.
  induction l as [|i l IH]; intros s t; simpl.
  - exists s, []. simpl. rewrite app_nil_r. split; [reflexivity | constructor].
  - destruct (body_step i s t) as [s1 [evs [Hbody Hstep]]].
    destruct (IH s1 (t ++ evs)) as [s2 [groups [Hrest Hiter]]].
    exists s2, (evs :: groups). split.
    + unfold bind. rewrite Hbody, Hrest. simpl. now rewrite app_assoc.
    + econstructor; eassumption.
Qed.

End Loops.

(** A counter that moves by at most one per iteration stays between its
    start and its start plus the number of iterations. *)
Lemma iterations_counter step (l : list Z) t (c c' : Z) groups :
  (forall i t c c' evs, step i t c c' evs -> c <= c' <= c + 1) ->
  iterations step l t c c' groups ->
  c <= c' <= c + Z.of_nat (List.length l).
Proof.
  intros Hstep H. induction H as [|i l t c c1 c2 evs groups H1 H2 IH].
  - simpl. lia.
  - apply Hstep in H1. simpl List.length. lia.
Qed.

Lemma range_length (n : Z) : Z.of_nat (List.length (range n)) = Z.max 0 n.
Proof. unfold range. rewrite length_map, length_seq. lia. Qed.

Lemma range_In (n i : Z) : In i (range n) <-> 0 <= i < n.
Proof.
  unfold range. rewrite in_map_iff. split.
  - intros [k [Hk Hin]]. apply in_seq in Hin. lia.
  - intros Hi. exists (Z.to_nat i). split; [lia|]. apply in_seq. lia.
Qed.

Lemma range_split (k n : Z) :
  0 <= k <= n ->
  range n = range k ++ map Z.of_nat (seq (Z.to_nat k) (Z.to_nat (n - k))).
Proof.
  intros H. unfold range. rewrite <- map_app. f_equal.
  replace (Z.to_nat n) with (Z.to_nat k + Z.to_nat (n - k))%nat by lia.
  rewrite seq_app. reflexivity.
Qed.

(* ================================================================== *)
(** * The two splitter loops *)
(* ================================================================== *)

Section Splitters.

Variable env : Env.

(** The stream-copy body never raises and is one [ffmpeg_step]. *)
Lemma ffmpeg_chunk_step (ffmpeg_path input_path output_dir extension : string)
      (L i c : Z) (t : trace) :
  exists c' evs,
    ffmpeg_chunk env ffmpeg_path input_path output_dir extension L i c t
    = (Ok c', t ++ evs) /\
    ffmpeg_step env ffmpeg_path input_path output_dir extension L i t c c' evs.
Proof.
  unfold ffmpeg_chunk, ffmpeg_step, try_except, bind, call_run, ret, run_ok.
  cbv zeta.
  destruct (subprocess_run env t _) as [r | e].
  - destruct (returncode r =? 0); eexists; eexists; repeat split.
  - eexists; eexists; repeat split.
Qed.

(** One rung either goes through or raises; in both cases its events are
    those of [rung_events]. *)
Lemma moviepy_attempt_rung (video : handle) (s e : pyfloat) (file : string)
      (codec audio_codec : option string) (t : trace) :
  exists evs,
    (moviepy_attempt env video s e file codec audio_codec t
     = (Ok tt, t ++ evs) /\
     rung_events video s e file codec audio_codec t true evs)
    \/
    (exists x,
       moviepy_attempt env video s e file codec audio_codec t
       = (Raise x, t ++ evs) /\
       rung_events video s e file codec audio_codec t false evs).
Proof.
  unfold moviepy_attempt, bind, call_subclip, call_write_videofile, call_close.
  destruct (moviepy_subclip env t video s e) as [[] | x].
  - destruct (moviepy_write_videofile env _ _ file codec audio_codec)
      as [[] | x].
    + eexists. left. rewrite <- !app_assoc. simpl. split;
        [reflexivity | constructor].
    + eexists. right. exists x. rewrite <- !app_assoc. simpl. split;
        [reflexivity | constructor].
  - eexists. right. exists x. split; [reflexivity | constructor].
Qed.

(** The re-encode body never raises and is one ladder. *)
Lemma moviepy_chunk_step (video : handle) (D : pyfloat)
      (output_dir extension : string) (L i c : Z) (t : trace) :
  exists c' evs,
    moviepy_chunk env video D output_dir extension L i c t
    = (Ok c', t ++ evs) /\
    moviepy_step env video D output_dir extension L i t c c' evs.
Proof.
  unfold moviepy_chunk, moviepy_step. cbv zeta.
  set (s := float_of_int (chunk_start L i)).
  set (e := chunk_end D L i).
  set (file := chunk_file env output_dir extension i).
  unfold try_except, bind, ret.
  destruct (moviepy_attempt_rung video s e file (Some "libx264") (Some "aac") t)
    as [e1 [[H1 R1] | [x1 [H1 R1]]]]; rewrite H1.
  { exists (c + 1), e1. split; [reflexivity | now apply ladder_first]. }
  destruct (moviepy_attempt_rung video s e file (Some "libx264") None (t ++ e1))
    as [e2 [[H2 R2] | [x2 [H2 R2]]]]; rewrite H2.
  { exists (c + 1), (e1 ++ e2). rewrite app_assoc. split;
      [reflexivity | now apply ladder_second]. }
  rewrite <- app_assoc in H2 |- *.
  destruct (moviepy_attempt_rung video s e file None None (t ++ e1 ++ e2))
    as [e3 [[H3 R3] | [x3 [H3 R3]]]]; rewrite H3.
  { exists (c + 1), (e1 ++ e2 ++ e3). rewrite <- !app_assoc. split;
      [reflexivity | now apply ladder_third]. }
  exists c, (e1 ++ e2 ++ e3). rewrite <- !app_assoc. split;
    [reflexivity | now apply ladder_failed].
Qed.

End Splitters.

(** ** What a ladder leaves behind *)

Lemma rung_files_written video s e file codec audio_codec t ok evs :
  rung_events video s e file codec audio_codec t ok evs ->
  files_written evs = if ok then [file] else [].
Proof. destruct 1; reflexivity. Qed.

Lemma files_written_app (t1 t2 : trace) :
  files_written (t1 ++ t2) = files_written t1 ++ files_written t2.
Proof. unfold files_written. apply flat_map_app. Qed.

Lemma ladder_counter video s e file t c c' evs :
  ladder_events video s e file t c c' evs -> c' = c \/ c' = c + 1.
Proof. destruct 1; auto. Qed.

(** A chunk that is counted wrote its file once; one that is not counted
    wrote nothing. *)
Lemma ladder_files_written video s e file t c c' evs :
  ladder_events video s e file t c c' evs ->
  files_written evs = if c' =? c + 1 then [file] else [].
Proof.
  destruct 1;
    repeat match goal with
           | H : rung_events _ _ _ _ _ _ _ _ _ |- _ =>
               apply rung_files_written in H
           end;
    rewrite ?files_written_app;
    repeat match goal with H : files_written _ = _ |- _ => rewrite H end;
    simpl; rewrite ?Z.eqb_refl; try reflexivity.
  destruct (c =? c + 1) eqn:E; [apply Z.eqb_eq in E; lia | reflexivity].
Qed.

Section SplitterRuns.

Variable env : Env.

(** A run of the stream-copy splitter that reports its counters went
    through the probe, the plan and every iteration of the loop. *)
Lemma split_video_ffmpeg_counts_inv (input_path output_dir : string) (L : Z)
      (t t' : trace) (r : SplitResult) :
  split_video_ffmpeg_counts env input_path output_dir L t = (Ok (Some r), t') ->
  exists d t1 ffmpeg_path groups,
    fst (get_video_duration_ffmpeg env input_path t) = Ok (Some d) /\
    plan_num_chunks d L = Ok (num_chunks r) /\
    iterations (ffmpeg_step env ffmpeg_path input_path output_dir
                            (path_suffix env input_path) L)
               (range (num_chunks r)) t1 0 (success_count r) groups /\
    t' = t1 ++ List.concat groups.
Proof.
  unfold split_video_ffmpeg_counts, bind.
  destruct (get_video_duration_ffmpeg env input_path t) as [[[d|]|e] t0];
    try discriminate.
  unfold lift. destruct (plan_num_chunks d L) as [n|e] eqn:Hplan;
    try discriminate.
  unfold call_makedirs.
  destruct (os_makedirs env t0 output_dir) as [[]|e]; try discriminate.
  unfold call_exists.
  set (t1 := (t0 ++ _) ++ _).
  set (ffmpeg_path := if os_path_exists env _ _ then _ else _).
  destruct (for_each_iterations _ _
              (ffmpeg_chunk_step env ffmpeg_path input_path output_dir
                                 (path_suffix env input_path) L)
              (range n) 0 t1) as [c [groups [Hrun Hiter]]].
  rewrite Hrun. unfold ret. intro H. inversion H; subst; clear H.
  exists d, t1, ffmpeg_path, groups. simpl. auto.
Qed.

(** The same for the re-encode splitter; the source clip is closed after
    the last iteration. *)
Lemma split_video_moviepy_counts_inv (input_path output_dir : string) (L : Z)
      (t t' : trace) (r : SplitResult) :
  split_video_moviepy_counts env input_path output_dir L t
  = (Ok (Some r), t') ->
  exists video D t1 groups,
    In (EvOpen input_path (Ok (video, D))) t1 /\
    plan_num_chunks D L = Ok (num_chunks r) /\
    iterations (moviepy_step env video D output_dir
                             (path_suffix env input_path) L)
               (range (num_chunks r)) t1 0 (success_count r) groups /\
    t' = (t1 ++ List.concat groups) ++ [EvClose video].
Proof.
  unfold split_video_moviepy_counts, bind, try_except_only, try_except.
  unfold call_import, ret.
  destruct (import_module env t "moviepy.editor") as [[]|e]; simpl.
  2:{ destruct (is_ImportError e); simpl; discriminate. }
  unfold call_VideoFileClip.
  set (t0 := t ++ _).
  destruct (moviepy_VideoFileClip env t0 input_path) as [D|e];
    try discriminate.
  unfold lift. destruct (plan_num_chunks D L) as [n|e] eqn:Hplan;
    try discriminate.
  unfold call_makedirs.
  destruct (os_makedirs env _ output_dir) as [[]|e]; try discriminate.
  set (t1 := (t0 ++ _) ++ _).
  destruct (for_each_iterations _ _
              (moviepy_chunk_step env (List.length t0) D output_dir
                                  (path_suffix env input_path) L)
              (range n) 0 t1) as [c [groups [Hrun Hiter]]].
  rewrite Hrun. unfold call_close. intro H. inversion H; subst; clear H.
  exists (List.length t0), D, t1, groups. simpl. repeat split; auto.
  subst t1. apply in_or_app. left. apply in_or_app. right. now left.
Qed.

End SplitterRuns.

(* ================================================================== *)
(** * The windows of the chunks (claim C2) *)
(* ================================================================== *)

Lemma run_cmds_app (t1 t2 : trace) :
  run_cmds (t1 ++ t2) = run_cmds t1 ++ run_cmds t2.
Proof. unfold run_cmds. apply flat_map_app. Qed.

(** The stream-copy loop hands the tool the commands of its chunks, one
    per chunk, in the order of the chunks. *)
Lemma ffmpeg_iterations_cmds env ffmpeg_path input_path output_dir extension L
      (l : list Z) t c c' groups :
  iterations (ffmpeg_step env ffmpeg_path input_path output_dir extension L)
             l t c c' groups ->
  run_cmds (List.concat groups)
  = map (fun i => ffmpeg_cmd ffmpeg_path input_path
                             (chunk_file env output_dir extension i) L i) l.
Proof.
  induction 1 as [|i l t c c1 c2 evs groups [Hevs _] _ IH]; simpl.
  - reflexivity.
  - rewrite run_cmds_app, IH, Hevs. reflexivity.
Qed.

(** The bounds of the re-encode window of chunk [i]. *)
Lemma chunk_end_bounds (D : Q) (L i : Z) :
  (0 < L)%Z -> (i < Qceiling (D / inject_Z L))%Z ->
  exists e, chunk_end (Finite D) L i = Finite e /\
            (e == Qmin (inject_Z ((i + 1) * L)) D)%Q /\
            (inject_Z (chunk_start L i) < e)%Q /\
            (e <= inject_Z (ffmpeg_window_end L i))%Q /\
            (e <= D)%Q.
Proof.
  intros HL Hi. destruct (chunk_end_Finite D L i) as [e [He Hmin]].
  exists e. split; [exact He|]. split; [exact Hmin|].
  assert (Hw : ffmpeg_window_end L i = (i + 1) * L)
    by (unfold ffmpeg_window_end, chunk_start; ring).
  rewrite Hw, Hmin. repeat split.
  - apply Q.min_glb_lt.
    + rewrite <- Zlt_Qlt. unfold chunk_start. nia.
    + now apply chunk_start_lt_duration.
  - apply Q.le_min_l.
  - apply Q.le_min_r.
Qed.

(** C2, as stated, fails for the stream-copy strategy: with D = 150 and
    L = 60 three chunks are planned and the command of the last one asks
    for the window from 120 of length 60, which ends at 180 and not at
    min(180, 150) = 150. *)
Lemma ffmpeg_window_not_clipped :
  plan_num_chunks (Finite (150 # 1)) 60 = Ok 3 /\
  ffmpeg_cmd "ffmpeg" "movie.mp4" "output_chunks/chunk_3.mp4" 60 2
  = ["ffmpeg"; "-i"; "movie.mp4"; "-ss"; "120"; "-t"; "60"; "-c"; "copy";
     "-avoid_negative_ts"; "make_zero"; "output_chunks/chunk_3.mp4"; "-y"] /\
  ffmpeg_window_end 60 2 = 180 /\
  ~ (inject_Z (ffmpeg_window_end 60 2)
     == Qmin (inject_Z ((2 + 1) * 60)) (150 # 1))%Q /\
  ~ (forall (D : Q) (L i : Z),
       (0 < D)%Q -> 0 < L -> 0 <= i < Qceiling (D / inject_Z L) ->
       (inject_Z (ffmpeg_window_end L i)
        == Qmin (inject_Z ((i + 1) * L)) D)%Q).
Proof.
  assert (Hne : ~ (inject_Z (ffmpeg_window_end 60 2)
                   == Qmin (inject_Z ((2 + 1) * 60)) (150 # 1))%Q).
  { rewrite Q.min_r by (unfold Qle; simpl; lia).
    unfold Qeq; simpl; lia. }
  repeat split; try reflexivity; try exact Hne.
  intro H. apply Hne. apply H.
  - reflexivity.
  - reflexivity.
  - replace (Qceiling ((150 # 1) / inject_Z 60)) with 3 by reflexivity. lia.
Qed.

(** C2, amended.  In the re-encode strategy the end offset of every
    chunk is min((i + 1) * L, D), every chunk is at most L long, and the
    last planned chunk ends at D.  In the stream-copy strategy the command
    of every chunk carries the start i * L and the fixed length L, so the
    requested window ends at (i + 1) * L and is exactly L long also for
    the last chunk, where it reaches D or beyond; the program does not
    clip it. *)
Theorem chunk_end_offsets (D : Q) (L i : Z) :
  0 < L ->
  (exists e, chunk_end (Finite D) L i = Finite e /\
             (e == Qmin (inject_Z ((i + 1) * L)) D)%Q /\
             (e - inject_Z (chunk_start L i) <= inject_Z L)%Q /\
             (i + 1 = Qceiling (D / inject_Z L) -> (e == D)%Q)) /\
  (forall ffmpeg_path input_path output_file,
     nth_error (ffmpeg_cmd ffmpeg_path input_path output_file L i) 4
     = Some (str (chunk_start L i)) /\
     nth_error (ffmpeg_cmd ffmpeg_path input_path output_file L i) 6
     = Some (str L)) /\
  ffmpeg_window_end L i = (i + 1) * L /\
  ffmpeg_window_end L i - chunk_start L i = L /\
  (i + 1 = Qceiling (D / inject_Z L) ->
   (D <= inject_Z (ffmpeg_window_end L i))%Q).
Proof.
  intro HL.
  assert (Hw : ffmpeg_window_end L i = (i + 1) * L)
    by (unfold ffmpeg_window_end, chunk_start; ring).
  split.
  { destruct (chunk_end_Finite D L i) as [e [He Hmin]].
    exists e. split; [exact He|]. split; [exact Hmin|]. split.
    - apply Qle_trans with (inject_Z ((i + 1) * L) - inject_Z (chunk_start L i))%Q.
      + apply Qplus_le_l. rewrite Hmin. apply Q.le_min_l.
      + unfold chunk_start, Qminus. rewrite <- inject_Z_opp, <- inject_Z_plus.
        rewrite <- Zle_Qle. lia.
    - intro Hlast. rewrite Hmin. apply Q.min_r. rewrite Hlast.
      apply duration_le_plan_end. exact HL. }
  split; [intros; split; reflexivity|].
  split; [exact Hw|].
  split; [unfold ffmpeg_window_end; lia|].
  intro Hlast. rewrite Hw, Hlast. apply duration_le_plan_end. exact HL.
Qed.

Lemma chunk_end_offsets_witness :
  0 < 60 /\
  exists e, chunk_end (Finite (150 # 1)) 60 2 = Finite e /\
            (e == Qmin (inject_Z ((2 + 1) * 60)) (150 # 1))%Q.
Proof.
  split; [reflexivity|].
  destruct (proj1 (chunk_end_offsets (150 # 1) 60 2 ltac:(reflexivity)))
    as [e [He [Hmin _]]].
  exists e. split; assumption.
Defined.

(* ================================================================== *)
(** * The duration prober (claim C7) *)
(* ================================================================== *)

(** C7. For every input path, in every environment and from every
    history, the duration prober returns: either the parsed duration or
    None.  It never raises.  It returns None when the external tool is
    missing or cannot be run ([subprocess.run] raises), when the tool
    exits with a non-zero status, and when its output does not parse as a
    float; it returns the parsed duration in the remaining case. *)
Theorem duration_prober_never_raises (env : Env) (video_path : string)
        (t : trace) :
  exists d evs,
    get_video_duration_ffmpeg env video_path t = (Ok d, t ++ evs) /\
    (forall x, probe_answer env video_path t = Raise x -> d = None) /\
    (forall r, probe_answer env video_path t = Ok r ->
               returncode r <> 0 -> d = None) /\
    (forall r x, probe_answer env video_path t = Ok r ->
                 returncode r = 0 ->
                 builtin_float env (strip (stdout r)) = Raise x ->
                 d = None) /\
    (forall r v, probe_answer env video_path t = Ok r ->
                 returncode r = 0 ->
                 builtin_float env (strip (stdout r)) = Ok v ->
                 d = Some v).
Proof.
  unfold get_video_duration_ffmpeg, probe_answer, try_except, bind,
    call_exists, call_run, lift, ret, raise.
  cbv zeta.
  set (ex := os_path_exists env t "C:\ffmpeg\ffprobe.exe").
  destruct (subprocess_run env _ _) as [r | x].
  - destruct (returncode r =? 0) eqn:Hrc.
    + apply Z.eqb_eq in Hrc.
      destruct (builtin_float env (strip (stdout r))) as [v | x] eqn:Hf;
        eexists; eexists; (split; [rewrite <- app_assoc; reflexivity|]);
        repeat split; intros; try congruence.
    + apply Z.eqb_neq in Hrc.
      eexists; eexists; (split; [rewrite <- app_assoc; reflexivity|]);
        repeat split; intros; try congruence.
  - eexists; eexists; (split; [rewrite <- app_assoc; reflexivity|]);
      repeat split; intros; congruence.
Qed.


(* ================================================================== *)
(** * The short-circuit copy (claims C4 and C9) *)
(* ================================================================== *)

Section ShortCircuit.

Variable env : Env.
Variable args : Args.

(** The block returns only through its [return 0], right after a copy
    that did not raise. *)
Lemma short_circuit_return (input_video : string) (t t' : trace) (code : Z) :
  short_circuit env args input_video t = (Ok (Return code), t') ->
  code = 0 /\
  exists t1,
    t' = t1 ++ [EvCopy2 input_video (copy_name env args input_video) (Ok tt)].
Proof.
  unfold short_circuit, copy_name.
  assert (H : forall t0 : trace,
             (d <- get_video_duration_ffmpeg env input_video ;;
              if short_circuit_guard d (duration args) then
                call_makedirs env (output_dir args) ;;
                call_copy2 env input_video
                  (os_path_join env (output_dir args)
                     ("chunk_1" ++ path_suffix env input_video)%string) ;;
                ret (Return 0)
              else ret (Continue tt)) t0 = (Ok (Return code), t') ->
             code = 0 /\
             exists t1,
               t' = t1 ++ [EvCopy2 input_video
                             (os_path_join env (output_dir args)
                                ("chunk_1" ++ path_suffix env input_video)%string)
                             (Ok tt)]).
  { intro t0. unfold bind.
    destruct (get_video_duration_ffmpeg env input_video t0) as [[d | e] t1];
      [|discriminate].
    destruct (short_circuit_guard d (duration args)); [|discriminate].
    unfold call_makedirs, call_copy2, ret.
    destruct (os_makedirs env t1 (output_dir args)) as [[] | e];
      [|discriminate].
    destruct (shutil_copy2 env _ input_video _) as [[] | e]; [|discriminate].
    intro H. inversion H; subst. split; [reflexivity|]. eexists. reflexivity. }
  destruct (method args); [discriminate | apply H | apply H].
Qed.

(** The block falls through without a further call when the guard is
    false, and goes through the copy when it is true. *)
Lemma short_circuit_probed (input_video : string) (t t1 : trace)
      (d : option pyfloat) :
  method args = Ffmpeg \/ method args = Auto ->
  get_video_duration_ffmpeg env input_video t = (Ok d, t1) ->
  short_circuit env args input_video t
  = if short_circuit_guard d (duration args) then
      (call_makedirs env (output_dir args) ;;
       call_copy2 env input_video (copy_name env args input_video) ;;
       ret (Return 0)) t1
    else (Ok (Continue tt), t1).
Proof.
  intros Hm Hprobe. unfold short_circuit, copy_name.
  destruct Hm as [-> | ->]; unfold bind at 1; rewrite Hprobe;
    destruct (short_circuit_guard d (duration args)); reflexivity.
Qed.

(** What [main] does from the probe on, given what the user typed. *)
Lemma main_after_input (t0 : trace) (answer : string) :
  builtin_input env t0 = Ok answer ->
  os_path_exists env (t0 ++ [EvInput (Ok answer)]) (strip answer) = true ->
  main env args t0
  = (sc <- short_circuit env args (strip answer) ;;
     match sc with
     | Return code => ret code
     | Continue _ => select_and_split env args (strip answer)
     end)
      ((t0 ++ [EvInput (Ok answer)])
          ++ [EvExists (strip answer) true]).
Proof.
  intros Hin Hex. unfold main. unfold bind at 1. unfold call_input.
  rewrite Hin. unfold bind at 1. unfold call_exists. rewrite Hex.
  reflexivity.
Qed.

End ShortCircuit.

(** C4, as stated, fails when the probe answers 0.0: the duration is
    obtained and is at most the chunk length, yet nothing is copied and
    the stream-copy splitter is run (it probes again and creates the
    output directory).  It also fails when the copy raises: the duration
    45 is at most 60, the copy is attempted, and the run exits 1. *)
Lemma zero_duration_is_not_copied :
  let env := Scenario.env_of (Scenario.probing "0.0") in
  let args := Scenario.args_of Auto 60 in
  let t1 := [EvInput (Ok " movie.mp4 "); EvExists "movie.mp4" true] in
  (fst (get_video_duration_ffmpeg env "movie.mp4" t1) = Ok (Some (Finite 0)) /\
   le_int (Finite 0) (duration args) = true /\
   copies (snd (program env args [])) = [] /\
   List.length (run_cmds (snd (program env args []))) = 4%nat /\
   In (EvMakedirs "output_chunks" (Ok tt)) (snd (program env args []))) /\
  (let env' := Scenario.env_of Scenario.read_only_output in
   fst (get_video_duration_ffmpeg env' "movie.mp4" t1)
   = Ok (Some (Finite (45 # 1))) /\
   le_int (Finite (45 # 1)) (duration args) = true /\
   fst (program env' args []) = 1 /\
   copies (snd (program env' args [])) = []).
Proof. vm_compute. repeat split. auto 20. Qed.

(** C4, amended.  When the method is ffmpeg or automatic, the probed
    duration is obtained, is not zero and is at most the chunk length,
    the orchestrator creates the output directory and copies the source
    file to chunk_1<original extension> in it; when neither of the two
    file-system calls raises, the run ends there with exit code 0: these
    two calls are all that follows the probe, so no splitter strategy is
    invoked. *)
Theorem short_circuit_copies (env : Env) (args : Args) (t0 t1 : trace)
        (answer : string) (d : pyfloat) :
  method args = Ffmpeg \/ method args = Auto ->
  builtin_input env t0 = Ok answer ->
  os_path_exists env (t0 ++ [EvInput (Ok answer)]) (strip answer) = true ->
  get_video_duration_ffmpeg env (strip answer)
    ((t0 ++ [EvInput (Ok answer)]) ++ [EvExists (strip answer) true])
  = (Ok (Some d), t1) ->
  truthy d = true ->
  le_int d (duration args) = true ->
  let copy := copy_name env args (strip answer) in
  os_makedirs env t1 (output_dir args) = Ok tt ->
  shutil_copy2 env (t1 ++ [EvMakedirs (output_dir args) (Ok tt)])
               (strip answer) copy = Ok tt ->
  program env args t0
  = (0, t1 ++ [EvMakedirs (output_dir args) (Ok tt);
               EvCopy2 (strip answer) copy (Ok tt)]).
Proof.
  intros Hm Hin Hex Hprobe Htruthy Hle copy Hmk Hcp.
  unfold program. rewrite (main_after_input env args t0 answer Hin Hex).
  unfold bind at 1.
  rewrite (short_circuit_probed env args _ _ _ _ Hm Hprobe).
  unfold short_circuit_guard. rewrite Htruthy, Hle.
  change (true && true) with true. cbv iota.
  unfold bind, call_makedirs, call_copy2, ret. rewrite Hmk.
  fold copy. rewrite Hcp. rewrite <- app_assoc. reflexivity.
Qed.

Lemma short_circuit_copies_witness :
  program (Scenario.env_of (Scenario.probing "45.0"))
          (Scenario.args_of Auto 60) []
  = (0, [EvInput (Ok " movie.mp4 "); EvExists "movie.mp4" true;
         EvExists "C:\ffmpeg\ffprobe.exe" false;
         EvRun (ffprobe_cmd "ffprobe" "movie.mp4")
               (Scenario.exited 0 ("45.0" ++ Scenario.newline)%string);
         EvMakedirs "output_chunks" (Ok tt);
         EvCopy2 "movie.mp4" "output_chunks/chunk_1.mp4" (Ok tt)]).
Proof.
  exact (short_circuit_copies
           (Scenario.env_of (Scenario.probing "45.0"))
           (Scenario.args_of Auto 60) []
           [EvInput (Ok " movie.mp4 "); EvExists "movie.mp4" true;
            EvExists "C:\ffmpeg\ffprobe.exe" false;
            EvRun (ffprobe_cmd "ffprobe" "movie.mp4")
                  (Scenario.exited 0 ("45.0" ++ Scenario.newline)%string)]
           " movie.mp4 " (Finite (45 # 1))
           (or_intror eq_refl) eq_refl eq_refl eq_refl eq_refl eq_refl
           eq_refl eq_refl).
Defined.

(** C9. When the probe answers a zero duration the guard of the
    short-circuit is false, as it is when the probe answers None: in both
    cases nothing is copied, the block makes no further call, and [main]
    goes on to method resolution and splitting from the history the probe
    left. *)
Theorem zero_duration_skips_short_circuit (env : Env) (args : Args)
        (t0 t1 : trace) (answer : string) (d : option pyfloat) :
  method args = Ffmpeg \/ method args = Auto ->
  builtin_input env t0 = Ok answer ->
  os_path_exists env (t0 ++ [EvInput (Ok answer)]) (strip answer) = true ->
  get_video_duration_ffmpeg env (strip answer)
    ((t0 ++ [EvInput (Ok answer)]) ++ [EvExists (strip answer) true])
  = (Ok d, t1) ->
  d = None \/ (exists q, d = Some (Finite q) /\ (q == 0)%Q) ->
  short_circuit_guard d (duration args) = false /\
  short_circuit env args (strip answer)
    ((t0 ++ [EvInput (Ok answer)]) ++ [EvExists (strip answer) true])
  = (Ok (Continue tt), t1) /\
  main env args t0 = select_and_split env args (strip answer) t1.
Proof.
  intros Hm Hin Hex Hprobe Hd.
  assert (Hguard : short_circuit_guard d (duration args) = false).
  { destruct Hd as [-> | [q [-> Hq]]]; [reflexivity|].
    unfold short_circuit_guard, truthy.
    apply Qeq_bool_iff in Hq. rewrite Hq. reflexivity. }
  assert (Hsc : short_circuit env args (strip answer)
                  ((t0 ++ [EvInput (Ok answer)])
                     ++ [EvExists (strip answer) true])
                = (Ok (Continue tt), t1)).
  { rewrite (short_circuit_probed env args _ _ _ _ Hm Hprobe), Hguard.
    reflexivity. }
  split; [exact Hguard|]. split; [exact Hsc|].
  rewrite (main_after_input env args t0 answer Hin Hex).
  unfold bind at 1. rewrite Hsc. reflexivity.
Qed.

Lemma zero_duration_skips_short_circuit_witness :
  let env := Scenario.env_of (Scenario.probing "0.0") in
  let args := Scenario.args_of Auto 60 in
  short_circuit_guard (Some (Finite 0)) 60 = false /\
  main env args []
  = select_and_split env args "movie.mp4"
      [EvInput (Ok " movie.mp4 "); EvExists "movie.mp4" true;
       EvExists "C:\ffmpeg\ffprobe.exe" false;
       EvRun (ffprobe_cmd "ffprobe" "movie.mp4")
             (Scenario.exited 0 ("0.0" ++ Scenario.newline)%string)].
Proof.
  intros env args.
  pose proof (zero_duration_skips_short_circuit env args []
                [EvInput (Ok " movie.mp4 "); EvExists "movie.mp4" true;
                 EvExists "C:\ffmpeg\ffprobe.exe" false;
                 EvRun (ffprobe_cmd "ffprobe" "movie.mp4")
                       (Scenario.exited 0 ("0.0" ++ Scenario.newline)%string)]
                " movie.mp4 " (Some (Finite 0))
                (or_intror eq_refl) eq_refl eq_refl eq_refl
                (or_intror (ex_intro _ 0%Q (conj eq_refl (Qeq_refl 0)))))
    as [Hg [_ Hmain]].
  split; assumption.
Defined.

(* ================================================================== *)
(** * Method resolution (claim C6) *)
(* ================================================================== *)

Section NoToolCall.

Lemma no_tool_call_ret {A : Type} (a : A) : no_tool_call (ret a).
Proof. intro t. exists []. simpl. now rewrite app_nil_r. Qed.

Lemma no_tool_call_lift {A : Type} (r : result A) : no_tool_call (lift r).
Proof. intro t. exists []. simpl. now rewrite app_nil_r. Qed.

Lemma no_tool_call_bind {A B : Type} (m : M A) (k : A -> M B) :
  no_tool_call m -> (forall a, no_tool_call (k a)) -> no_tool_call (bind m k).
Proof.
  intros Hm Hk t. unfold bind. destruct (Hm t) as [e1 [H1 R1]].
  destruct (m t) as [[a | x] t1]; simpl in H1; subst t1.
  - destruct (Hk a (t ++ e1)) as [e2 [H2 R2]].
    exists (e1 ++ e2). rewrite H2, app_assoc, run_cmds_app, R1, R2.
    split; reflexivity.
  - exists e1. split; [reflexivity | exact R1].
Qed.

Lemma no_tool_call_try_except {A : Type} (m : M A) (h : exn -> M A) :
  no_tool_call m -> (forall e, no_tool_call (h e)) ->
  no_tool_call (try_except m h).
Proof.
  intros Hm Hh t. unfold try_except. destruct (Hm t) as [e1 [H1 R1]].
  destruct (m t) as [[a | x] t1]; simpl in H1; subst t1.
  - exists e1. split; [reflexivity | exact R1].
  - destruct (Hh x (t ++ e1)) as [e2 [H2 R2]].
    exists (e1 ++ e2). rewrite H2, app_assoc, run_cmds_app, R1, R2.
    split; reflexivity.
Qed.

Lemma no_tool_call_try_except_only {A : Type} (catches : exn -> bool)
      (m h : M A) :
  no_tool_call m -> no_tool_call h ->
  no_tool_call (try_except_only catches m h).
Proof.
  intros Hm Hh t. unfold try_except_only. destruct (Hm t) as [e1 [H1 R1]].
  destruct (m t) as [[a | x] t1]; simpl in H1; subst t1.
  - exists e1. split; [reflexivity | exact R1].
  - destruct (catches x).
    + destruct (Hh (t ++ e1)) as [e2 [H2 R2]].
      exists (e1 ++ e2). rewrite H2, app_assoc, run_cmds_app, R1, R2.
      split; reflexivity.
    + exists e1. split; [reflexivity | exact R1].
Qed.

Lemma no_tool_call_for_each {S : Type} (body : Z -> S -> M S) (l : list Z) :
  (forall i s, no_tool_call (body i s)) ->
  forall s, no_tool_call (for_each l body s).
Proof.
  intro Hbody. induction l as [|i l IH]; intro s; simpl.
  - apply no_tool_call_ret.
  - apply no_tool_call_bind; [apply Hbody | exact IH].
Qed.

Variable env : Env.

Ltac one_event := intro t; eexists [_]; split; reflexivity.

Lemma no_tool_call_import m : no_tool_call (call_import env m).
Proof. one_event. Qed.

Lemma no_tool_call_makedirs p : no_tool_call (call_makedirs env p).
Proof. one_event. Qed.

Lemma no_tool_call_VideoFileClip p : no_tool_call (call_VideoFileClip env p).
Proof. one_event. Qed.

Lemma no_tool_call_subclip v s e : no_tool_call (call_subclip env v s e).
Proof. one_event. Qed.

Lemma no_tool_call_write v f c a :
  no_tool_call (call_write_videofile env v f c a).
Proof. one_event. Qed.

Lemma no_tool_call_close v : no_tool_call (call_close v).
Proof. one_event. Qed.

Lemma no_tool_call_exists p : no_tool_call (call_exists env p).
Proof. one_event. Qed.

(** Syntax-directed proof that a computation invokes no tool. *)
Ltac quiet :=
  repeat lazymatch goal with
    | |- no_tool_call (bind _ _) => apply no_tool_call_bind; [|intro]
    | |- no_tool_call (try_except _ _) =>
        apply no_tool_call_try_except; [|intro]
    | |- no_tool_call (try_except_only _ _ _) =>
        apply no_tool_call_try_except_only
    | |- no_tool_call (for_each _ _ _) =>
        apply no_tool_call_for_each; intros
    | |- no_tool_call (ret _) => apply no_tool_call_ret
    | |- no_tool_call (lift _) => apply no_tool_call_lift
    | |- no_tool_call (call_import _ _) => apply no_tool_call_import
    | |- no_tool_call (call_makedirs _ _) => apply no_tool_call_makedirs
    | |- no_tool_call (call_exists _ _) => apply no_tool_call_exists
    | |- no_tool_call (call_VideoFileClip _ _) =>
        apply no_tool_call_VideoFileClip
    | |- no_tool_call (call_subclip _ _ _ _) => apply no_tool_call_subclip
    | |- no_tool_call (call_write_videofile _ _ _ _ _) =>
        apply no_tool_call_write
    | |- no_tool_call (call_close _) => apply no_tool_call_close
    | |- no_tool_call (match ?x with _ => _ end) => destruct x
    end.

Lemma no_tool_call_moviepy_chunk v D out ext L i c :
  no_tool_call (moviepy_chunk env v D out ext L i c).
Proof. unfold moviepy_chunk, moviepy_attempt. cbv zeta. quiet. Qed.

Lemma no_tool_call_split_video_moviepy input_path out L :
  no_tool_call (split_video_moviepy env input_path out L).
Proof.
  unfold split_video_moviepy, split_video_moviepy_counts. quiet.
  apply no_tool_call_moviepy_chunk.
Qed.

Lemma no_tool_call_check_moviepy :
  no_tool_call (check_moviepy_availability env).
Proof. unfold check_moviepy_availability. quiet. Qed.

(** The library branch of the dispatch invokes no external tool. *)
Lemma no_tool_call_split_the_video_Moviepy args input_video :
  no_tool_call (split_the_video env args input_video Moviepy).
Proof.
  unfold split_the_video. quiet.
  - apply no_tool_call_check_moviepy.
  - apply no_tool_call_split_video_moviepy.
Qed.

End NoToolCall.

Section MethodResolution.

Variable env : Env.
Variable args : Args.
Variable input_video : string.

Lemma determine_method_explicit (t : trace) :
  method args <> Auto ->
  determine_method env args t = (Ok (Continue (method args)), t).
Proof. unfold determine_method. destruct (method args); easy. Qed.

Lemma determine_method_auto (t t1 t2 : trace) (f p : bool) :
  method args = Auto ->
  check_ffmpeg_availability env t = (Ok f, t1) ->
  check_moviepy_availability env t1 = (Ok p, t2) ->
  determine_method env args t
  = (Ok (if f then Continue Ffmpeg
         else if p then Continue Moviepy
         else Return 1), t2).
Proof.
  intros Hm Hf Hp. unfold determine_method. rewrite Hm.
  unfold bind. rewrite Hf, Hp. destruct f, p; reflexivity.
Qed.

(** The automatic choice ends the run only with code 1 and only after
    both checks answered no. *)
Lemma determine_method_return (t t' : trace) (code : Z) :
  determine_method env args t = (Ok (Return code), t') ->
  code = 1 /\ method args = Auto /\
  exists t1,
    check_ffmpeg_availability env t = (Ok false, t1) /\
    check_moviepy_availability env t1 = (Ok false, t').
Proof.
  unfold determine_method, ret. destruct (method args); try discriminate.
  unfold bind.
  destruct (check_ffmpeg_availability env t) as [[f | e] t1] eqn:Hf;
    [|discriminate].
  destruct (check_moviepy_availability env t1) as [[p | e] t2] eqn:Hp;
    [|discriminate].
  destruct f, p; try discriminate. intro H. inversion H; subst.
  split; [reflexivity|]. split; [reflexivity|]. exists t1.
  split; [reflexivity | exact Hp].
Qed.

(** What the two checks do: the ffmpeg check looks for the fixed install
    location and otherwise runs [ffmpeg -version] once; it catches only
    CalledProcessError and FileNotFoundError.  The moviepy check imports
    the library; it catches only ImportError. *)
Lemma check_ffmpeg_availability_cases (t : trace) :
  let ex := os_path_exists env t "C:\ffmpeg\ffmpeg.exe" in
  let t1 := t ++ [EvExists "C:\ffmpeg\ffmpeg.exe" ex] in
  let answer := subprocess_run env t1 ["ffmpeg"; "-version"] in
  let t2 := t1 ++ [EvRun ["ffmpeg"; "-version"] answer] in
  check_ffmpeg_availability env t
  = if ex then (Ok true, t1)
    else match answer with
         | Ok r => (Ok (returncode r =? 0), t2)
         | Raise e =>
             if is_CalledProcessError_or_FileNotFoundError e
             then (Ok false, t2) else (Raise e, t2)
         end.
Proof.
  cbv zeta.
  unfold check_ffmpeg_availability, try_except_only, bind, call_exists,
    call_run_check, bind, call_run.
  destruct (os_path_exists env t "C:\ffmpeg\ffmpeg.exe"); [reflexivity|].
  destruct (subprocess_run env _ _) as [r | e]; [|reflexivity].
  destruct (returncode r =? 0); reflexivity.
Qed.

Lemma check_moviepy_availability_cases (t : trace) :
  let answer := import_module env t "moviepy" in
  check_moviepy_availability env t
  = (match answer with
     | Ok _ => Ok true
     | Raise e => if is_ImportError e then Ok false else Raise e
     end, t ++ [EvImport "moviepy" answer]).
Proof.
  cbv zeta.
  unfold check_moviepy_availability, try_except_only, bind, call_import.
  destruct (import_module env t "moviepy") as [[] | e]; [reflexivity|].
  destruct (is_ImportError e); reflexivity.
Qed.

End MethodResolution.

(** C6, as stated, fails: the automatic choice does not fall back to
    the other backend when a check raises.  Where running [ffmpeg] raises
    PermissionError (not one of the two classes the check catches) and
    the library is installed and works, the automatic run ends with the
    exception, exit 1, before the library is considered, while
    [--method moviepy] on the same machine exits 0.  Where the tools work
    and importing the library raises an error that is not an ImportError,
    the automatic run exits 1 although the ffmpeg check has answered yes,
    while [--method ffmpeg] exits 0. *)
Lemma auto_fails_with_a_backend_available :
  (let env := Scenario.env_of Scenario.tool_not_executable in
   let auto := program env (Scenario.args_of Auto 60) [] in
   fst auto = 1 /\
   fst (main env (Scenario.args_of Auto 60) [])
   = Raise (OSError "Permission denied") /\
   existsb library_event (snd auto) = false /\
   fst (check_moviepy_availability env (snd auto)) = Ok true /\
   fst (program env (Scenario.args_of Moviepy 60) []) = 0) /\
  (let env := Scenario.broken_library in
   let auto := program env (Scenario.args_of Auto 60) [] in
   fst auto = 1 /\
   fst (main env (Scenario.args_of Auto 60) [])
   = Raise (PyException "AttributeError") /\
   In (EvRun ["ffmpeg"; "-version"] (Scenario.exited 0 "ffmpeg version 6.0"))
      (snd auto) /\
   fst (check_ffmpeg_availability env []) = Ok true /\
   fst (program env (Scenario.args_of Ffmpeg 60) []) = 0).
Proof. vm_compute. repeat split; auto 20. Qed.

(** C6, amended.  An explicit method is dispatched directly: the run
    ends with code 1 when the check of that backend answers no, and
    otherwise the code is that of that backend's splitter.  The automatic
    choice runs the ffmpeg check and then the moviepy check; it takes
    ffmpeg when the first answers yes, otherwise moviepy when the second
    answers yes, and returns code 1, before any output, only when both
    answer no.  When the ffmpeg check answers no and the moviepy check
    yes, the automatic choice runs the dispatch of moviepy, and nothing
    that follows the ffmpeg check invokes an external tool.  A check that
    raises ends the run with that exception, that is with exit status 1,
    whatever the other backend would have answered: the ffmpeg check
    raises exactly when the fixed install location is missing and
    running [ffmpeg -version] raises anything but CalledProcessError and
    FileNotFoundError, and then the moviepy check is not run; the moviepy
    check raises exactly when the import raises anything but
    ImportError, also after the ffmpeg check has answered yes. *)
Theorem method_resolution (env : Env) (args : Args) (input_video : string)
        (t : trace) :
  (forall t1,
     method args = Ffmpeg ->
     check_ffmpeg_availability env t = (Ok false, t1) ->
     select_and_split env args input_video t = (Ok 1, t1)) /\
  (forall t1,
     method args = Ffmpeg ->
     check_ffmpeg_availability env t = (Ok true, t1) ->
     select_and_split env args input_video t
     = (success <- split_video_ffmpeg env input_video (output_dir args)
                                      (duration args) ;;
        ret (if success then 0 else 1)) t1) /\
  (forall t1,
     method args = Moviepy ->
     check_moviepy_availability env t = (Ok false, t1) ->
     select_and_split env args input_video t = (Ok 1, t1)) /\
  (forall t1,
     method args = Moviepy ->
     check_moviepy_availability env t = (Ok true, t1) ->
     select_and_split env args input_video t
     = (success <- split_video_moviepy env input_video (output_dir args)
                                       (duration args) ;;
        ret (if success then 0 else 1)) t1) /\
  (forall p t1 t2,
     method args = Auto ->
     check_ffmpeg_availability env t = (Ok true, t1) ->
     check_moviepy_availability env t1 = (Ok p, t2) ->
     select_and_split env args input_video t
     = split_the_video env args input_video Ffmpeg t2) /\
  (forall t1 t2,
     method args = Auto ->
     check_ffmpeg_availability env t = (Ok false, t1) ->
     check_moviepy_availability env t1 = (Ok true, t2) ->
     select_and_split env args input_video t
     = split_the_video env args input_video Moviepy t2 /\
     exists evs,
       snd (select_and_split env args input_video t) = t1 ++ evs /\
       run_cmds evs = []) /\
  (forall t1 t2,
     method args = Auto ->
     check_ffmpeg_availability env t = (Ok false, t1) ->
     check_moviepy_availability env t1 = (Ok false, t2) ->
     select_and_split env args input_video t = (Ok 1, t2)) /\
  (forall code t',
     determine_method env args t = (Ok (Return code), t') ->
     code = 1 /\ method args = Auto /\
     exists t1,
       check_ffmpeg_availability env t = (Ok false, t1) /\
       check_moviepy_availability env t1 = (Ok false, t')) /\
  (forall e t1,
     method args = Ffmpeg \/ method args = Auto ->
     check_ffmpeg_availability env t = (Raise e, t1) ->
     select_and_split env args input_video t = (Raise e, t1)) /\
  (forall e t1,
     method args = Moviepy ->
     check_moviepy_availability env t = (Raise e, t1) ->
     select_and_split env args input_video t = (Raise e, t1)) /\
  (forall f e t1 t2,
     method args = Auto ->
     check_ffmpeg_availability env t = (Ok f, t1) ->
     check_moviepy_availability env t1 = (Raise e, t2) ->
     select_and_split env args input_video t = (Raise e, t2)) /\
  (forall e t1,
     check_ffmpeg_availability env t = (Raise e, t1) <->
     os_path_exists env t "C:\ffmpeg\ffmpeg.exe" = false /\
     subprocess_run env (t ++ [EvExists "C:\ffmpeg\ffmpeg.exe" false])
                    ["ffmpeg"; "-version"] = Raise e /\
     is_CalledProcessError_or_FileNotFoundError e = false /\
     t1 = t ++ [EvExists "C:\ffmpeg\ffmpeg.exe" false;
                EvRun ["ffmpeg"; "-version"] (Raise e)]) /\
  (forall e t1,
     check_moviepy_availability env t = (Raise e, t1) <->
     import_module env t "moviepy" = Raise e /\
     is_ImportError e = false /\
     t1 = t ++ [EvImport "moviepy" (Raise e)]) /\
  (forall t0 e t',
     main env args t0 = (Raise e, t') -> program env args t0 = (1, t')) /\
  (forall t0 answer e t',
     builtin_input env t0 = Ok answer ->
     os_path_exists env (t0 ++ [EvInput (Ok answer)]) (strip answer) = true ->
     short_circuit env args (strip answer)
       ((t0 ++ [EvInput (Ok answer)]) ++ [EvExists (strip answer) true])
     = (Ok (Continue tt), t) ->
     input_video = strip answer ->
     select_and_split env args input_video t = (Raise e, t') ->
     program env args t0 = (1, t')).
Proof.
  assert (Hexplicit : forall m, method args = m -> m <> Auto ->
            select_and_split env args input_video t
            = split_the_video env args input_video m t).
  { intros m Hm Hne. unfold select_and_split, bind.
    rewrite determine_method_explicit by congruence. rewrite Hm.
    reflexivity. }
  assert (Hauto : forall f p t1 t2, method args = Auto ->
            check_ffmpeg_availability env t = (Ok f, t1) ->
            check_moviepy_availability env t1 = (Ok p, t2) ->
            select_and_split env args input_video t
            = match (if f then Continue Ffmpeg
                     else if p then Continue Moviepy else Return 1) with
              | Return code => ret code t2
              | Continue m => split_the_video env args input_video m t2
              end).
  { intros f p t1 t2 Hm Hf Hp. unfold select_and_split, bind.
    rewrite (determine_method_auto env args t t1 t2 f p Hm Hf Hp).
    destruct f, p; reflexivity. }
  split; [|split; [|split; [|split; [|split; [|split; [|split; [|split;
    [|split; [|split; [|split; [|split; [|split; [|split]]]]]]]]]]]]].
  - intros t1 Hm Hf. rewrite (Hexplicit Ffmpeg Hm) by discriminate.
    unfold split_the_video, bind. rewrite Hf. reflexivity.
  - intros t1 Hm Hf. rewrite (Hexplicit Ffmpeg Hm) by discriminate.
    unfold split_the_video. unfold bind at 1. rewrite Hf. reflexivity.
  - intros t1 Hm Hp. rewrite (Hexplicit Moviepy Hm) by discriminate.
    unfold split_the_video, bind. rewrite Hp. reflexivity.
  - intros t1 Hm Hp. rewrite (Hexplicit Moviepy Hm) by discriminate.
    unfold split_the_video. unfold bind at 1. rewrite Hp. reflexivity.
  - intros p t1 t2 Hm Hf Hp. rewrite (Hauto true p t1 t2 Hm Hf Hp).
    reflexivity.
  - intros t1 t2 Hm Hf Hp. rewrite (Hauto false true t1 t2 Hm Hf Hp).
    split; [reflexivity|].
    destruct (no_tool_call_check_moviepy env t1) as [e1 [H1' R1]].
    rewrite Hp in H1'. simpl in H1'. subst t2.
    destruct (no_tool_call_split_the_video_Moviepy env args input_video
                (t1 ++ e1)) as [e2 [H2 R2]].
    exists (e1 ++ e2). rewrite H2, app_assoc, run_cmds_app, R1, R2.
    split; reflexivity.
  - intros t1 t2 Hm Hf Hp. rewrite (Hauto false false t1 t2 Hm Hf Hp).
    reflexivity.
  - intros code t' H. apply (determine_method_return env args t t' code H).
  - intros e t1 [Hm | Hm] Hf.
    + rewrite (Hexplicit Ffmpeg Hm) by discriminate.
      unfold split_the_video, bind. rewrite Hf. reflexivity.
    + unfold select_and_split, determine_method. rewrite Hm.
      unfold bind. rewrite Hf. reflexivity.
  - intros e t1 Hm Hp. rewrite (Hexplicit Moviepy Hm) by discriminate.
    unfold split_the_video, bind. rewrite Hp. reflexivity.
  - intros f e t1 t2 Hm Hf Hp.
    unfold select_and_split, determine_method. rewrite Hm.
    unfold bind. rewrite Hf, Hp. reflexivity.
  - intros e t1. rewrite check_ffmpeg_availability_cases. cbv zeta.
    destruct (os_path_exists env t "C:\ffmpeg\ffmpeg.exe").
    + split; [discriminate | intros [H _]; discriminate].
    + destruct (subprocess_run env _ _) as [r | e0].
      * split; [discriminate | intros [_ [H _]]; discriminate].
      * destruct (is_CalledProcessError_or_FileNotFoundError e0) eqn:Hc.
        -- split; [discriminate|]. intros [_ [H [Hc' _]]].
           inversion H; subst. congruence.
        -- rewrite <- app_assoc. simpl. split.
           ++ intro H. inversion H; subst. auto.
           ++ intros [_ [H [_ ->]]]. inversion H; subst. reflexivity.
  - intros e t1. rewrite check_moviepy_availability_cases. cbv zeta.
    destruct (import_module env t "moviepy") as [[] | e0].
    + split; [discriminate | intros [H _]; discriminate].
    + destruct (is_ImportError e0) eqn:Hc.
      * split; [discriminate|]. intros [H [Hc' _]].
        inversion H; subst. congruence.
      * split.
        -- intro H. inversion H; subst. auto.
        -- intros [H [_ ->]]. inversion H; subst. reflexivity.
  - intros t0 e t' H. unfold program. rewrite H. reflexivity.
  - intros t0 answer e t' Hin Hex Hsc -> Hraise.
    unfold program. rewrite (main_after_input env args t0 answer Hin Hex).
    unfold bind at 1. rewrite Hsc, Hraise. reflexivity.
Qed.

(** On a machine without ffmpeg and with the library, the automatic
    choice runs the library splitter; on a machine where ffmpeg may not
    be executed, the automatic choice ends with the PermissionError. *)
Lemma method_resolution_witness :
  (let env := Scenario.env_of Scenario.library_only in
   let args := Scenario.args_of Auto 60 in
   let t := [EvInput (Ok " movie.mp4 ")] in
   let t1 := t ++ [EvExists "C:\ffmpeg\ffmpeg.exe" false;
                   EvRun ["ffmpeg"; "-version"] (Raise FileNotFoundError)] in
   let t2 := t1 ++ [EvImport "moviepy" (Ok tt)] in
   select_and_split env args "movie.mp4" t
   = split_the_video env args "movie.mp4" Moviepy t2) /\
  (let env := Scenario.env_of Scenario.tool_not_executable in
   let args := Scenario.args_of Auto 60 in
   let t := [EvInput (Ok " movie.mp4 ")] in
   select_and_split env args "movie.mp4" t
   = (Raise (OSError "Permission denied"),
      t ++ [EvExists "C:\ffmpeg\ffmpeg.exe" false;
            EvRun ["ffmpeg"; "-version"]
                  (Raise (OSError "Permission denied"))])).
Proof.
  split.
  - intros env args t t1 t2.
    exact (proj1 (proj1 (proj2 (proj2 (proj2 (proj2 (proj2
             (method_resolution env args "movie.mp4" t))))))
           t1 t2 eq_refl eq_refl eq_refl)).
  - intros env args t.
    exact (proj1 (proj2 (proj2 (proj2 (proj2 (proj2 (proj2 (proj2 (proj2
             (method_resolution env args "movie.mp4" t)))))))))
           (OSError "Permission denied") _ (or_intror eq_refl) eq_refl).
Defined.

(* ================================================================== *)
(** * The re-encode ladder (claim C5) *)
(* ================================================================== *)


(** With a library that cannot encode aac, the first rung raises, the
    second goes through, and the chunk's file is written once. *)
Example ladder_second_rung :
  moviepy_chunk (Scenario.env_of Scenario.library_only) 0%nat
                (Finite (150 # 1)) "out" ".mp4" 60 2 0 []
  = (Ok 1,
     [EvSubclip 0%nat (Finite (120 # 1)) (Finite (150 # 1)) (Ok 0%nat);
      EvWrite 0%nat "out/chunk_3.mp4" (Some "libx264") (Some "aac")
              (Raise (OSError "unknown encoder aac"));
      EvSubclip 0%nat (Finite (120 # 1)) (Finite (150 # 1)) (Ok 2%nat);
      EvWrite 2%nat "out/chunk_3.mp4" (Some "libx264") None (Ok tt);
      EvClose 2%nat]).
Proof. reflexivity. Qed.

(* ================================================================== *)
(** * The success counter (claim C10) *)
(* ================================================================== *)

Section Counter.

Variable body : Z -> Z -> M Z.
Variable step : Z -> trace -> Z -> Z -> list event -> Prop.

Hypothesis body_step : forall i c t, exists c' evs,
  body i c t = (Ok c', t ++ evs) /\ step i t c c' evs.

Hypothesis step_once : forall i t c c' evs,
  step i t c c' evs -> c <= c' <= c + 1.

(** The counter after [k] of [n] iterations, and at the end. *)
Lemma counter_at_every_iteration (k n : Z) (t : trace) :
  0 <= k <= n ->
  exists ck tk cn tn,
    for_each (range k) body 0 t = (Ok ck, tk) /\
    for_each (range n) body 0 t = (Ok cn, tn) /\
    0 <= ck <= k /\
    ck <= cn <= ck + (n - k) /\
    0 <= cn <= n.
Proof.
  intro Hk. rewrite (range_split k n Hk), for_each_app. unfold bind.
  destruct (for_each_iterations body step body_step (range k) 0 t)
    as [ck [g1 [Hrun1 Hit1]]].
  rewrite Hrun1.
  destruct (for_each_iterations body step body_step
              (map Z.of_nat (seq (Z.to_nat k) (Z.to_nat (n - k))))
              ck (t ++ List.concat g1))
    as [cn [g2 [Hrun2 Hit2]]].
  rewrite Hrun2.
  exists ck, (t ++ List.concat g1), cn,
    ((t ++ List.concat g1) ++ List.concat g2).
  split; [reflexivity|]. split; [reflexivity|].
  apply (iterations_counter step _ _ _ _ _ step_once) in Hit1, Hit2.
  rewrite range_length in Hit1. rewrite length_map, length_seq in Hit2.
  lia.
Qed.

End Counter.

Lemma ffmpeg_step_once env ffmpeg_path input_path output_dir extension L
      i t c c' evs :
  ffmpeg_step env ffmpeg_path input_path output_dir extension L i t c c' evs ->
  c <= c' <= c + 1.
Proof. intros [_ ->]. destruct (run_ok _); lia. Qed.

Lemma moviepy_step_once env video D output_dir extension L i t c c' evs :
  moviepy_step env video D output_dir extension L i t c c' evs ->
  c <= c' <= c + 1.
Proof. intro H. apply ladder_counter in H. lia. Qed.

(** C10, as stated, fails for a negative chunk length, which the command
    line accepts: with a 150 s video and [--duration -60] the plan is
    ceil(150 / -60) = -2, the loop does not run, and the splitter reports
    success_count = 0 and num_chunks = -2. *)
Lemma negative_plan_breaks_bound :
  fst (split_video_ffmpeg_counts (Scenario.env_of Scenario.healthy)
         "movie.mp4" "output_chunks" (-60) [])
  = Ok (Some {| success_count := 0; num_chunks := -2 |}) /\
  ~ (0 <= 0 <= -2) /\
  ~ (forall env input_path output_dir L t t' r,
       split_video_ffmpeg_counts env input_path output_dir L t
       = (Ok (Some r), t') ->
       0 <= success_count r <= num_chunks r).
Proof.
  split; [reflexivity|]. split; [lia|].
  intro H.
  pose (res := split_video_ffmpeg_counts (Scenario.env_of Scenario.healthy)
                 "movie.mp4" "output_chunks" (-60) []).
  assert (E : res = (Ok (Some {| success_count := 0; num_chunks := -2 |}),
                     snd res)) by reflexivity.
  apply H in E. simpl in E. lia.
Qed.

(** C10, amended.  In both splitter strategies the success counter
    starts at zero and one iteration of the loop moves it by zero or by
    one (one ladder increments at most once); so after any number k of
    the n iterations it is between 0 and k, it never decreases, and at
    the end it is between 0 and n.  The aggregate a splitter reports
    satisfies 0 <= success_count <= max(num_chunks, 0), hence
    0 <= success_count <= num_chunks whenever num_chunks is not
    negative.  The reported num_chunks is the plan
    ceil(duration / chunk_duration) for the duration the splitter
    obtained (the answer of its probe, or the duration of the clip it
    opened), and this plan is not negative for a chunk length above zero
    and a duration that is not negative: there
    0 <= success_count <= num_chunks. *)
Theorem success_counter_bounds (env : Env) (k n : Z) :
  0 <= k <= n ->
  (forall ffmpeg_path input_path output_dir extension L t,
     (forall i c t0, exists c' t0',
        ffmpeg_chunk env ffmpeg_path input_path output_dir extension L i c t0
        = (Ok c', t0') /\ (c' = c \/ c' = c + 1)) /\
     exists ck tk cn tn,
       for_each (range k)
         (ffmpeg_chunk env ffmpeg_path input_path output_dir extension L) 0 t
       = (Ok ck, tk) /\
       for_each (range n)
         (ffmpeg_chunk env ffmpeg_path input_path output_dir extension L) 0 t
       = (Ok cn, tn) /\
       0 <= ck <= k /\ ck <= cn <= ck + (n - k) /\ 0 <= cn <= n) /\
  (forall video D output_dir extension L t,
     (forall i c t0, exists c' t0',
        moviepy_chunk env video D output_dir extension L i c t0
        = (Ok c', t0') /\ (c' = c \/ c' = c + 1)) /\
     exists ck tk cn tn,
       for_each (range k)
         (moviepy_chunk env video D output_dir extension L) 0 t
       = (Ok ck, tk) /\
       for_each (range n)
         (moviepy_chunk env video D output_dir extension L) 0 t
       = (Ok cn, tn) /\
       0 <= ck <= k /\ ck <= cn <= ck + (n - k) /\ 0 <= cn <= n) /\
  (forall input_path output_dir L t t' r,
     split_video_ffmpeg_counts env input_path output_dir L t
     = (Ok (Some r), t') \/
     split_video_moviepy_counts env input_path output_dir L t
     = (Ok (Some r), t') ->
     0 <= success_count r <= Z.max 0 (num_chunks r) /\
     (0 <= num_chunks r -> 0 <= success_count r <= num_chunks r)) /\
  (forall input_path output_dir L t t' r,
     split_video_ffmpeg_counts env input_path output_dir L t
     = (Ok (Some r), t') ->
     exists d,
       fst (get_video_duration_ffmpeg env input_path t) = Ok (Some d) /\
       plan_num_chunks d L = Ok (num_chunks r) /\
       (forall q, d = Finite q -> (0 <= q)%Q -> 0 < L ->
                  0 <= success_count r <= num_chunks r)) /\
  (forall input_path output_dir L t t' r,
     split_video_moviepy_counts env input_path output_dir L t
     = (Ok (Some r), t') ->
     exists video d,
       In (EvOpen input_path (Ok (video, d))) t' /\
       plan_num_chunks d L = Ok (num_chunks r) /\
       (forall q, d = Finite q -> (0 <= q)%Q -> 0 < L ->
                  0 <= success_count r <= num_chunks r)).
Proof.
  intro Hk. split; [|split; [|split; [|split]]].
  - intros ffmpeg_path input_path output_dir extension L t. split.
    + intros i c t0.
      destruct (ffmpeg_chunk_step env ffmpeg_path input_path output_dir
                                  extension L i c t0)
        as [c' [evs [Hrun Hstep]]].
      exists c', (t0 ++ evs). split; [exact Hrun|].
      apply ffmpeg_step_once in Hstep. lia.
    + apply (counter_at_every_iteration _ _
               (ffmpeg_chunk_step env ffmpeg_path input_path output_dir
                                  extension L)
               (ffmpeg_step_once env ffmpeg_path input_path output_dir
                                 extension L)).
      exact Hk.
  - intros video D output_dir extension L t. split.
    + intros i c t0.
      destruct (moviepy_chunk_step env video D output_dir extension L i c t0)
        as [c' [evs [Hrun Hstep]]].
      exists c', (t0 ++ evs). split; [exact Hrun|].
      apply moviepy_step_once in Hstep. lia.
    + apply (counter_at_every_iteration _ _
               (moviepy_chunk_step env video D output_dir extension L)
               (moviepy_step_once env video D output_dir extension L)).
      exact Hk.
  - intros input_path output_dir L t t' r H.
    assert (Hb : 0 <= success_count r <= Z.max 0 (num_chunks r)).
    { destruct H as [H | H].
      - apply split_video_ffmpeg_counts_inv in H.
        destruct H as [d [t1 [ffmpeg_path [groups [_ [_ [Hit _]]]]]]].
        apply (iterations_counter _ _ _ _ _ _
                 (ffmpeg_step_once env ffmpeg_path input_path output_dir
                                   (path_suffix env input_path) L)) in Hit.
        rewrite range_length in Hit. lia.
      - apply split_video_moviepy_counts_inv in H.
        destruct H as [video [D [t1 [groups [_ [_ [Hit _]]]]]]].
        apply (iterations_counter _ _ _ _ _ _
                 (moviepy_step_once env video D output_dir
                                    (path_suffix env input_path) L)) in Hit.
        rewrite range_length in Hit. lia. }
    split; [exact Hb | lia].
  - intros input_path output_dir L t t' r H.
    apply split_video_ffmpeg_counts_inv in H.
    destruct H as [d [t1 [ffmpeg_path [groups [Hd [Hplan [Hit _]]]]]]].
    exists d. split; [exact Hd|]. split; [exact Hplan|].
    intros q -> Hq HL.
    apply (iterations_counter _ _ _ _ _ _
             (ffmpeg_step_once env ffmpeg_path input_path output_dir
                               (path_suffix env input_path) L)) in Hit.
    rewrite range_length in Hit.
    pose proof (proj1 (plan_num_chunks_sign q L _ Hq Hplan) HL). lia.
  - intros input_path output_dir L t t' r H.
    apply split_video_moviepy_counts_inv in H.
    destruct H as [video [d [t1 [groups [Hin [Hplan [Hit ->]]]]]]].
    exists video, d. split.
    { apply in_or_app. left. apply in_or_app. left. exact Hin. }
    split; [exact Hplan|].
    intros q -> Hq HL.
    apply (iterations_counter _ _ _ _ _ _
             (moviepy_step_once env video (Finite q) output_dir
                                (path_suffix env input_path) L)) in Hit.
    rewrite range_length in Hit.
    pose proof (proj1 (plan_num_chunks_sign q L _ Hq Hplan) HL). lia.
Qed.

Lemma success_counter_bounds_witness :
  exists ck tk cn tn,
    for_each (range 2)
      (ffmpeg_chunk (Scenario.env_of Scenario.second_chunk_fails)
                    "ffmpeg" "movie.mp4" "output_chunks" ".mp4" 60) 0 []
    = (Ok ck, tk) /\
    for_each (range 3)
      (ffmpeg_chunk (Scenario.env_of Scenario.second_chunk_fails)
                    "ffmpeg" "movie.mp4" "output_chunks" ".mp4" 60) 0 []
    = (Ok cn, tn) /\
    0 <= ck <= 2 /\ ck <= cn <= ck + (3 - 2) /\ 0 <= cn <= 3.
Proof.
  exact (proj2 (proj1 (success_counter_bounds
                         (Scenario.env_of Scenario.second_chunk_fails) 2 3
                         ltac:(lia))
                  "ffmpeg" "movie.mp4" "output_chunks" ".mp4" 60 [])).
Defined.

(* ================================================================== *)
(** * The exit code of a run *)
(* ================================================================== *)

Lemma runs_ok_app (t1 t2 : trace) :
  runs_ok (t1 ++ t2) = runs_ok t1 ++ runs_ok t2.
Proof. unfold runs_ok. apply flat_map_app. Qed.

(** The stream-copy loop counts the invocations that exited with zero;
    there is one invocation per iteration, so one failure keeps the
    counter below the number of iterations. *)
Lemma ffmpeg_iterations_counts env ffmpeg_path input_path output_dir extension
      L (l : list Z) t c c' groups :
  iterations (ffmpeg_step env ffmpeg_path input_path output_dir extension L)
             l t c c' groups ->
  c' = c + Z.of_nat (List.length (runs_ok (List.concat groups))) /\
  List.length (run_cmds (List.concat groups)) = List.length l /\
  (List.length (runs_ok (List.concat groups)) <= List.length l)%nat /\
  ((exists cmd r, In (EvRun cmd r) (List.concat groups) /\ run_ok r = false) ->
   (List.length (runs_ok (List.concat groups)) < List.length l)%nat).
Proof.
  induction 1 as [|i l t c c1 c2 evs groups [Hevs Hc] _ IH].
  - simpl. repeat split; try lia. intros [cmd [r [[] _]]].
  - destruct IH as [IHc [IHn [IHle IHlt]]].
    subst evs. simpl List.concat.
    set (cmd := ffmpeg_cmd _ _ _ _ _) in *.
    set (r := subprocess_run env t cmd) in *.
    change (runs_ok (EvRun cmd r :: List.concat groups))
      with ((if run_ok r then [cmd] else []) ++ runs_ok (List.concat groups)).
    change (run_cmds (EvRun cmd r :: List.concat groups))
      with (cmd :: run_cmds (List.concat groups)).
    simpl List.length. split; [|split; [|split]].
    + destruct (run_ok r); simpl List.length; lia.
    + lia.
    + destruct (run_ok r); simpl List.length; lia.
    + intros [cmd' [r' [Hin Hr]]].
      destruct (run_ok r) eqn:Hok; simpl List.length; [|lia].
      destruct Hin as [Heq | Hin].
      * inversion Heq; subst. congruence.
      * assert (List.length (runs_ok (List.concat groups))
                < List.length l)%nat by (apply IHlt; eauto).
        lia.
Qed.

Section ExitCode.

Variable env : Env.
Variable args : Args.

Lemma split_the_video_exit_code (input_video : string) (m : method_choice)
      (t : trace) :
  split_the_video env args input_video m t
  = match split_the_video_outcome env args input_video m t with
    | (Ok o, t') => (Ok (exit_code_of o), t')
    | (Raise e, t') => (Raise e, t')
    end.
Proof.
  unfold split_the_video, split_the_video_outcome, split_video_ffmpeg,
    split_video_moviepy, bind, ret.
  destruct m.
  - destruct (check_moviepy_availability env t) as [[[|] | e] t1]; simpl;
      try reflexivity.
    destruct (split_video_moviepy_counts env _ _ _ t1) as [[[r|] | e] t2];
      simpl; reflexivity.
  - destruct (check_ffmpeg_availability env t) as [[[|] | e] t1]; simpl;
      try reflexivity.
    destruct (split_video_ffmpeg_counts env _ _ _ t1) as [[[r|] | e] t2];
      simpl; reflexivity.
  - reflexivity.
Qed.

Lemma select_and_split_exit_code (input_video : string) (t : trace) :
  select_and_split env args input_video t
  = match select_and_split_outcome env args input_video t with
    | (Ok o, t') => (Ok (exit_code_of o), t')
    | (Raise e, t') => (Raise e, t')
    end.
Proof.
  unfold select_and_split, select_and_split_outcome, bind.
  destruct (determine_method env args t) as [[[m | code] | e] t1] eqn:Hd.
  - apply split_the_video_exit_code.
  - apply determine_method_return in Hd. destruct Hd as [-> _]. reflexivity.
  - reflexivity.
Qed.

(** [main] returns the exit code of the way its run ended, after the
    same external calls. *)
Lemma main_exit_code (t : trace) :
  main env args t
  = match main_outcome env args t with
    | (Ok o, t') => (Ok (exit_code_of o), t')
    | (Raise e, t') => (Raise e, t')
    end.
Proof.
  unfold main, main_outcome, bind.
  destruct (call_input env t) as [[answer | e] t1]; [|reflexivity].
  destruct (call_exists env (strip answer) t1) as [[[|] | e] t2];
    simpl; try reflexivity.
  destruct (short_circuit env args (strip answer) t2)
    as [[[[] | code] | e] t3] eqn:Hsc.
  - apply select_and_split_exit_code.
  - apply short_circuit_return in Hsc. destruct Hsc as [-> _]. reflexivity.
  - reflexivity.
Qed.

(** A run that ended in the short-circuit ended right after a copy that
    did not raise. *)
Lemma main_outcome_CopiedWhole (t t' : trace) :
  main_outcome env args t = (Ok CopiedWhole, t') ->
  exists t1 src dst, t' = t1 ++ [EvCopy2 src dst (Ok tt)].
Proof.
  unfold main_outcome, bind.
  destruct (call_input env t) as [[answer | e] t1]; [|discriminate].
  destruct (call_exists env (strip answer) t1) as [[[|] | e] t2];
    simpl; try discriminate.
  destruct (short_circuit env args (strip answer) t2)
    as [[[[] | code] | e] t3] eqn:Hsc; try discriminate.
  - unfold select_and_split_outcome, bind.
    destruct (determine_method env args t3) as [[[m | code] | e] t4];
      try discriminate.
    unfold split_the_video_outcome, bind, ret.
    destruct m; try discriminate.
    + destruct (check_moviepy_availability env t4) as [[[|] | e] t5]; simpl;
        try discriminate.
      destruct (split_video_moviepy_counts env _ _ _ t5)
        as [[[r|] | e] t6]; discriminate.
    + destruct (check_ffmpeg_availability env t4) as [[[|] | e] t5]; simpl;
        try discriminate.
      destruct (split_video_ffmpeg_counts env _ _ _ t5)
        as [[[r|] | e] t6]; discriminate.
  - apply short_circuit_return in Hsc. destruct Hsc as [_ [t0 Ht0]].
    unfold ret. intro H. inversion H; subst. eauto.
Qed.

End ExitCode.

(** Three chunks planned, the second invocation fails: two chunks are
    counted and the program exits 1. *)
Example one_chunk_fails :
  fst (program (Scenario.env_of Scenario.second_chunk_fails)
               (Scenario.args_of Ffmpeg 60) []) = 1 /\
  fst (main_outcome (Scenario.env_of Scenario.second_chunk_fails)
                    (Scenario.args_of Ffmpeg 60) [])
  = Ok (SplitDone {| success_count := 2; num_chunks := 3 |}).
Proof. split; reflexivity. Qed.

(* ================================================================== *)
(** * Releasing the clips (claim C8) *)
(* ================================================================== *)

(** When the write of a rung raises, the rung ends there: the sub-clip it
    extracted is not closed ([subclip.close()] stands after the write,
    inside the [try]). *)
Lemma attempt_write_raised (env : Env) (video : handle) (s e : pyfloat)
      (file : string) (codec audio_codec : option string) (t : trace)
      (x : exn) :
  moviepy_subclip env t video s e = Ok tt ->
  moviepy_write_videofile env
    (t ++ [EvSubclip video s e (Ok (List.length t))])
    (List.length t) file codec audio_codec = Raise x ->
  moviepy_attempt env video s e file codec audio_codec t
  = (Raise x,
     t ++ [EvSubclip video s e (Ok (List.length t));
           EvWrite (List.length t) file codec audio_codec (Raise x)]).
Proof.
  intros Hsub Hwrite.
  unfold moviepy_attempt, bind, call_subclip, call_write_videofile.
  rewrite Hsub, Hwrite, <- app_assoc. reflexivity.
Qed.

(** What a rung opens and closes. *)
Lemma rung_clips video s e file codec audio_codec t ok evs :
  rung_events video s e file codec audio_codec t ok evs ->
  clips_closed evs = (if ok then [List.length t] else []) /\
  (ok = true -> subclips_opened evs = [List.length t]).
Proof. destruct 1; split; try reflexivity; discriminate. Qed.

(** The source clip is closed by the last call of a run that reports its
    counters. *)
Lemma source_clip_closed_last (env : Env) (input_path output_dir : string)
      (L : Z) (t t' : trace) (r : SplitResult) :
  split_video_moviepy_counts env input_path output_dir L t
  = (Ok (Some r), t') ->
  exists video D t1,
    In (EvOpen input_path (Ok (video, D))) t1 /\
    t' = t1 ++ [EvClose video].
Proof.
  intro H. apply split_video_moviepy_counts_inv in H.
  destruct H as [video [D [t1 [groups [Hopen [_ [_ ->]]]]]]].
  exists video, D, (t1 ++ List.concat groups). split; [|reflexivity].
  apply in_or_app. left. exact Hopen.
Qed.

(** C8 fails on the code.  Whenever the write of a rung raises, the rung
    ends right after the write and the sub-clip it extracted is not
    closed.  With a library that cannot encode aac, the first write of
    every chunk raises and the second goes through: the run exits 0 with
    its three files written, six sub-clips were extracted, and only the
    three whose write went through were closed; the three whose write
    raised are still open at the end.  The source clip (handle 4) is
    closed, once, by the last call. *)
Theorem failed_write_leaves_subclip_open :
  (forall env video s e file codec audio_codec t x,
     moviepy_subclip env t video s e = Ok tt ->
     moviepy_write_videofile env
       (t ++ [EvSubclip video s e (Ok (List.length t))])
       (List.length t) file codec audio_codec = Raise x ->
     moviepy_attempt env video s e file codec audio_codec t
     = (Raise x,
        t ++ [EvSubclip video s e (Ok (List.length t));
              EvWrite (List.length t) file codec audio_codec (Raise x)])) /\
  let run := program (Scenario.env_of Scenario.library_only)
                     (Scenario.args_of Moviepy 60) [] in
  fst run = 0 /\
  files_written (snd run)
  = ["output_chunks/chunk_1.mp4"; "output_chunks/chunk_2.mp4";
     "output_chunks/chunk_3.mp4"] /\
  subclips_opened (snd run) = [6; 8; 11; 13; 16; 18]%nat /\
  clips_closed (snd run) = [8; 13; 18; 4]%nat /\
  subclips_left_open (snd run) = [6; 11; 16]%nat /\
  In (EvWrite 6%nat "output_chunks/chunk_1.mp4" (Some "libx264") (Some "aac")
              (Raise (OSError "unknown encoder aac"))) (snd run) /\
  ~ In (EvClose 6%nat) (snd run).
Proof.
  split; [exact attempt_write_raised|].
  vm_compute. repeat split; auto 20.
  intro H. repeat (destruct H as [H | H]; [discriminate|]). exact H.
Qed.

(* ================================================================== *)
(** * Runs of the program *)
(* ================================================================== *)

Example str_examples : str 120 = "120" /\ str 0 = "0" /\ str (-5) = "-5".
Proof. repeat split; reflexivity. Qed.

Example strip_example :
  strip ("  150.5" ++ Scenario.newline)%string = "150.5".
Proof. reflexivity. Qed.

Example range_examples : range 3 = [0; 1; 2] /\ range (-5) = [].
Proof. split; reflexivity. Qed.

Example suffix_examples :
  Scenario.posix_suffix "videos/movie.mp4" = ".mp4" /\
  Scenario.posix_suffix "a.tar.gz" = ".gz" /\
  Scenario.posix_suffix ".bashrc" = "" /\
  Scenario.posix_suffix "noext" = "".
Proof. repeat split; reflexivity. Qed.

Example float_examples :
  Scenario.float_of_decimal "150.000000" = Ok (Finite (150 # 1)) /\
  Scenario.float_of_decimal "12.5" = Ok (Finite (25 # 2)) /\
  Scenario.float_of_decimal "N/A" = Raise ValueError.
Proof. repeat split; reflexivity. Qed.

Example suffix_of_directories :
  Scenario.posix_suffix "movie.mp4/" = ".mp4" /\
  Scenario.posix_suffix "a/b.txt/." = ".txt" /\
  Scenario.posix_suffix "dir.d/file" = "" /\
  Scenario.posix_suffix ".." = "".
Proof. repeat split; reflexivity. Qed.

Example float_grammar_examples :
  map Scenario.float_of_decimal
      ["5."; ".5"; "-2.5"; "+1e3"; "1_000.5"; "1__0"; "inf"; "-Infinity";
       "NaN"; "0.1"; "5e-324"; "2e-324"; "1e400"; "."; "1e"; " 7 "]
  = [Ok (Finite 5); Ok (Finite (1 # 2)); Ok (Finite (-5 # 2));
     Ok (Finite 1000); Ok (Finite (2001 # 2)); Raise ValueError;
     Ok PosInf; Ok NegInf; Ok NaN;
     Ok (Finite (3602879701896397 # 36028797018963968));
     Ok (Finite (1 # 2 ^ 1074)); Ok (Finite 0); Ok PosInf;
     Raise ValueError; Raise ValueError; Ok (Finite 7)].
Proof. vm_compute. reflexivity. Qed.

(** Float division: the quotient is rounded, an int without a float
    raises before anything else, a quotient below half the least float is
    zero. *)
Example div_int_examples :
  div_int (Finite (inject_Z (2 ^ 55))) 3 = Ok (Finite 12009599006321322) /\
  div_int (Finite (150 # 1)) 60 = Ok (Finite (5 # 2)) /\
  div_int (Finite (1 # 10)) 3
  = Ok (Finite (4803839602528529 # 144115188075855872)) /\
  div_int (Finite (1 # 2 ^ 1074)) 2 = Ok (Finite 0) /\
  div_int (Finite (3 # 2 ^ 1074)) 2 = Ok (Finite (1 # 2 ^ 1073)) /\
  div_int (Finite (150 # 1)) (10 ^ 400) = Raise OverflowError /\
  div_int (Finite 0) (10 ^ 400) = Raise OverflowError /\
  div_int NaN (10 ^ 400) = Raise OverflowError /\
  div_int (Finite (150 # 1)) 0 = Raise ZeroDivisionError /\
  div_int PosInf (-3) = Ok NegInf /\
  int_to_float (2 ^ 53 + 1) = Ok (inject_Z (2 ^ 53)) /\
  int_to_float (2 ^ 53 + 3) = Ok (inject_Z (2 ^ 53 + 4)) /\
  int_to_float (2 ^ 1024 - 2 ^ 970 - 1)
  = Ok (inject_Z (2 ^ 1024 - 2 ^ 971)) /\
  int_to_float (2 ^ 1024 - 2 ^ 970) = Raise OverflowError.
Proof. vm_compute. repeat split; reflexivity. Qed.

(** On these operands [round64] gives the quotient and the conversion
    that the IEEE 754 specification of the standard library gives. *)
Example round64_agrees_with_SpecFloat :
  (let operands :=
     [(2 ^ 55, 0, 3); (150, 0, 60); (45, 0, 60); (1, 0, 10); (1, 0, 3);
      (1, -1074, 2); (3, -1074, 2); (1, -1074, 1); (5, -1074, 4);
      (2 ^ 53 - 1, -1074, 2 ^ 53 - 1); (2 ^ 53 - 1, -1022, 3);
      (2 ^ 53 - 1, 0, 7); (2 ^ 53 - 1, 971, 1); (2 ^ 53 - 1, 971, 2);
      (-150, 0, 60); (150, 0, -60); (-1, -1074, 2); (7, -3, 2 ^ 53 + 1);
      (6004799503160661, -54, 9007199254740991)] in
   map (fun '(M, E, L) => spec_div M E L) operands
   = map (fun '(M, E, L) =>
            match div_int (Finite (inject_Z M * 2 ^ E)) L with
            | Ok q => q
            | Raise _ => NaN
            end) operands) /\
  (let ints :=
     [0; 1; -1; 60; 2 ^ 53 - 1; 2 ^ 53 + 1; 2 ^ 53 + 3; - (2 ^ 53 + 1);
      2 ^ 64 - 1; 10 ^ 30; 2 ^ 1024 - 2 ^ 970 - 1; 2 ^ 1024 - 2 ^ 970;
      10 ^ 400; - 10 ^ 400] in
   map (fun n => pyfloat_of_spec (spec_of_int n)) ints
   = map round64 (map inject_Z ints)).
Proof. vm_compute. split; reflexivity. Qed.

(** D = 150 s and L = 60 s: three windows, 0-60, 60-120 and 120-150. *)
Example plan_150_60 :
  plan_num_chunks (Finite (150 # 1)) 60 = Ok 3 /\
  map (fun i => (chunk_start 60 i, chunk_end (Finite (150 # 1)) 60 i))
      (range 3)
  = [(0, Finite (60 # 1)); (60, Finite (120 # 1)); (120, Finite (150 # 1))].
Proof. split; reflexivity. Qed.

(** The stream-copy splitter on the 150 s video: three commands, exit 0. *)
Example healthy_ffmpeg_run :
  let run := program (Scenario.env_of Scenario.healthy)
                     (Scenario.args_of Ffmpeg 60) [] in
  fst run = 0 /\
  map (fun cmd => (nth 4 cmd "", nth 6 cmd "", nth 11 cmd ""))
      (skipn 3 (run_cmds (snd run)))
  = [("0", "60", "output_chunks/chunk_1.mp4");
     ("60", "60", "output_chunks/chunk_2.mp4");
     ("120", "60", "output_chunks/chunk_3.mp4")].
Proof. split; reflexivity. Qed.

(** A negative chunk length: no chunk, and exit 1 because 0 <> -2. *)
Example negative_chunk_length_run :
  fst (program (Scenario.env_of Scenario.healthy)
               (Scenario.args_of Ffmpeg (-60)) []) = 1.
Proof. reflexivity. Qed.

(** A zero chunk length: the division raises, the program exits 1. *)
Example zero_chunk_length_run :
  fst (program (Scenario.env_of Scenario.healthy)
               (Scenario.args_of Ffmpeg 0) []) = 1 /\
  fst (main (Scenario.env_of Scenario.healthy)
            (Scenario.args_of Ffmpeg 0) []) = Raise ZeroDivisionError.
Proof. split; reflexivity. Qed.

(* ================================================================== *)
(** * More on the chunk plan *)
(* ================================================================== *)

(** X1. For a binary64 duration of either sign and of magnitude below
    2^53 (D = M * 2^E with |M| < 2^53 and -1074 <= E <= 0) and a chunk
    length 0 < L < 2^53, unless the quotient D / L is positive and at
    most 2^-1075: the number of planned chunks is the one integer k with
    (k - 1) * L < D <= k * L. *)
Theorem plan_num_chunks_unique (D : Q) (L M E k : Z) :
  0 < L < 2 ^ 53 -> Z.abs M < 2 ^ 53 -> -1074 <= E <= 0 ->
  (D == inject_Z M * 2 ^ E)%Q ->
  ((0 < D / inject_Z L)%Q -> (2 ^ (-1075) < D / inject_Z L)%Q) ->
  (plan_num_chunks (Finite D) L = Ok k <->
   (inject_Z ((k - 1) * L) < D /\ D <= inject_Z (k * L))%Q).
Proof.
  intros HLr HM HE HD Hmin.
  assert (HL : 0 < L) by lia.
  rewrite (plan_num_chunks_exact_signed D L M E) by (try assumption; lia).
  pose proof (last_start_lt_duration L HL D) as Hlo.
  pose proof (duration_le_plan_end L HL D) as Hhi.
  set (n := Qceiling (D / inject_Z L)) in *.
  split.
  - intro H. injection H as <-. split; assumption.
  - intros [Hklo Hkhi]. f_equal.
    assert (A : (k - 1) * L < n * L).
    { rewrite Zlt_Qlt. eapply Qlt_le_trans; eassumption. }
    assert (B : (n - 1) * L < k * L).
    { rewrite Zlt_Qlt. eapply Qlt_le_trans; eassumption. }
    nia.
Qed.

(** 150 s in chunks of 60 s: 3 chunks; -150 s: -2 chunks. *)
Lemma plan_num_chunks_unique_witness :
  (plan_num_chunks (Finite (150 # 1)) 60 = Ok 3 <->
   (inject_Z ((3 - 1) * 60) < 150 # 1 /\ 150 # 1 <= inject_Z (3 * 60))%Q) /\
  (plan_num_chunks (Finite (-150 # 1)) 60 = Ok (-2) <->
   (inject_Z ((-2 - 1) * 60) < -150 # 1 /\
    -150 # 1 <= inject_Z (-2 * 60))%Q).
Proof.
  split.
  - exact (plan_num_chunks_unique (150 # 1) 60 150 0 3
             ltac:(lia) ltac:(lia) ltac:(lia) ltac:(reflexivity)
             ltac:(intros _; reflexivity)).
  - exact (plan_num_chunks_unique (-150 # 1) 60 (-150) 0 (-2)
             ltac:(lia) ltac:(lia) ltac:(lia) ltac:(reflexivity)
             ltac:(intro H; discriminate H)).
Defined.

(** X2. For a binary64 duration 0 < D < 2^53 and a chunk length
    0 < L < 2^53 with D / L above 2^-1075, the guard of the short-circuit
    and the plan agree: a duration the guard accepts is planned as one
    chunk, whose re-encode window is the whole video, and a duration the
    guard declines is planned as two chunks or more. *)
Theorem plan_agrees_with_short_circuit_guard (D : Q) (L M E : Z) :
  0 < L < 2 ^ 53 -> 0 < M < 2 ^ 53 -> -1074 <= E <= 0 ->
  (D == inject_Z M * 2 ^ E)%Q ->
  (2 ^ (-1075) < D / inject_Z L)%Q ->
  (short_circuit_guard (Some (Finite D)) L = true ->
   plan_num_chunks (Finite D) L = Ok 1 /\
   chunk_start L 0 = 0 /\
   exists e, chunk_end (Finite D) L 0 = Finite e /\ (e == D)%Q) /\
  (short_circuit_guard (Some (Finite D)) L = false ->
   exists n, plan_num_chunks (Finite D) L = Ok n /\ 2 <= n).
Proof.
  intros HLr HM HE HDM Hmin.
  assert (HL : 0 < L) by lia.
  assert (HD : (0 < D)%Q).
  { pose proof (pow2_pos (-1075)) as Hp.
    pose proof (inject_Z_pos L HL) as HLq.
    assert (Hq : (0 < D / inject_Z L)%Q) by lra.
    assert (Hd : (D == D / inject_Z L * inject_Z L)%Q) by (field; lra).
    rewrite Hd. apply Qmult_lt_0_compat; assumption. }
  pose proof (plan_num_chunks_exact D L M E HLr HM HE HDM Hmin) as Hexact.
  assert (Htruthy : truthy (Finite D) = true).
  { apply truthy_Finite. intro E0. rewrite E0 in HD.
    exact (Qlt_irrefl 0 HD). }
  unfold short_circuit_guard. rewrite Htruthy. cbn [andb].
  split.
  - intro Hle. apply le_int_Finite in Hle.
    assert (Hplan : plan_num_chunks (Finite D) L = Ok 1).
    { rewrite Hexact. f_equal.
      pose proof (at_least_one_chunk L HL D HD) as Hone.
      pose proof (last_start_lt_duration L HL D) as Hlast.
      set (n := Qceiling (D / inject_Z L)) in *.
      assert (A : (n - 1) * L < 1 * L).
      { rewrite Zlt_Qlt. eapply Qlt_le_trans; [exact Hlast|].
        replace (1 * L) with L by lia. exact Hle. }
      nia. }
    split; [exact Hplan|]. split; [reflexivity|].
    destruct (chunk_end_Finite D L 0) as [e [He Hmin']].
    exists e. split; [exact He|]. rewrite Hmin'. apply Q.min_r.
    replace ((0 + 1) * L) with L by lia. exact Hle.
  - intro Hle. exists (Qceiling (D / inject_Z L)).
    split; [exact Hexact|].
    pose proof (duration_le_plan_end L HL D) as Hhi.
    set (n := Qceiling (D / inject_Z L)) in *.
    destruct (Z_lt_le_dec n 2) as [Hn | Hn]; [|exact Hn].
    exfalso. assert (Hle' : le_int (Finite D) L = true);
      [|rewrite Hle' in Hle; discriminate].
    apply le_int_Finite. eapply Qle_trans; [exact Hhi|].
    rewrite <- Zle_Qle. nia.
Qed.

Lemma plan_agrees_with_short_circuit_guard_witness :
  plan_num_chunks (Finite (45 # 1)) 60 = Ok 1 /\
  exists n, plan_num_chunks (Finite (150 # 1)) 60 = Ok n /\ 2 <= n.
Proof.
  split.
  - exact (proj1 (proj1 (plan_agrees_with_short_circuit_guard (45 # 1) 60 45 0
                           ltac:(lia) ltac:(lia) ltac:(lia)
                           ltac:(reflexivity) ltac:(reflexivity))
                    eq_refl)).
  - exact (proj2 (plan_agrees_with_short_circuit_guard (150 # 1) 60 150 0
                    ltac:(lia) ltac:(lia) ltac:(lia)
                    ltac:(reflexivity) ltac:(reflexivity))
                 eq_refl).
Defined.

(** X3. Plans without a chunk.  A zero duration is planned as 0 chunks
    for every chunk length other than 0 that has a float; a chunk length
    without one raises OverflowError.  A duration above zero whose
    quotient by a chunk length 0 < L < 2^53 is at most 2^-1075 is planned
    as 0 chunks, the quotient being rounded to zero.  With a negative
    chunk length above -2^53 and a binary64 duration 0 <= D < 2^53 the
    plan is never positive, and it is 0 exactly when the duration is
    below the absolute value of the chunk length. *)
Theorem plan_without_chunks (D : Q) (L : Z) :
  L <> 0 ->
  ((D == 0)%Q ->
   (forall l, int_to_float L = Ok l ->
              plan_num_chunks (Finite D) L = Ok 0) /\
   (forall e, int_to_float L = Raise e ->
              e = OverflowError /\
              plan_num_chunks (Finite D) L = Raise OverflowError) /\
   (Z.abs L < 2 ^ 53 -> plan_num_chunks (Finite D) L = Ok 0)) /\
  ((0 < D)%Q -> 0 < L < 2 ^ 53 -> (D / inject_Z L <= 2 ^ (-1075))%Q ->
   plan_num_chunks (Finite D) L = Ok 0) /\
  (forall M E,
     - 2 ^ 53 < L < 0 -> 0 <= M < 2 ^ 53 -> -1074 <= E <= 0 ->
     (D == inject_Z M * 2 ^ E)%Q ->
     exists n, plan_num_chunks (Finite D) L = Ok n /\ n <= 0 /\
               (n = 0 <-> (D < inject_Z (- L))%Q)).
Proof.
  intro HL.
  assert (HLq : ~ (inject_Z L == 0)%Q).
  { intro E. apply HL. apply (inject_Z_injective L 0). exact E. }
  assert (Hzero : forall l, (D == 0)%Q -> int_to_float L = Ok l ->
                            plan_num_chunks (Finite D) L = Ok 0).
  { intros l HD Hl. unfold plan_num_chunks, div_int. rewrite Hl.
    assert (Hl0 : Qeq_bool l 0 = false).
    { destruct (Qeq_bool l 0) eqn:E0; [|reflexivity]. exfalso.
      apply Qeq_bool_iff in E0.
      destruct (Z_lt_le_dec 0 L) as [Hp | Hn].
      - pose proof (int_to_float_pos L l Hp Hl). lra.
      - pose proof (int_to_float_neg L l ltac:(lia) Hl). lra. }
    rewrite Hl0. unfold round64.
    assert (E : (D / l == 0)%Q) by (rewrite HD; unfold Qdiv; ring).
    destruct (Qcompare_spec (D / l) 0) as [C | C | C]; try lra.
    reflexivity. }
  split; [|split].
  - intro HD. split; [|split].
    + intros l Hl. exact (Hzero l HD Hl).
    + intros e He. unfold plan_num_chunks, div_int. rewrite He.
      split; [|f_equal]; unfold int_to_float in He;
        destruct (round64 (inject_Z L)); congruence.
    + intro HLr. destruct (int_to_float_exact L ltac:(lia)) as [l [Hl _]].
      exact (Hzero l HD Hl).
  - intros HD HLr Hsmall. apply plan_num_chunks_underflow; assumption.
  - intros M E HLr HM HE HDM.
    rewrite (plan_num_chunks_exact_signed D L M E)
      by (try assumption; try lia;
          intro Hpos; exfalso;
          pose proof (inject_Z_pos (- L) ltac:(lia)) as HLn;
          rewrite inject_Z_opp in HLn;
          pose proof (pow2_pos E) as HpE;
          assert (HM0 : (0 <= inject_Z M)%Q)
            by (change 0%Q with (inject_Z 0); rewrite <- Zle_Qle; lia);
          assert (HD0 : (0 <= D)%Q)
            by (rewrite HDM; apply Qmult_le_0_compat; lra);
          assert (Hq : (0 <= D / - inject_Z L)%Q)
            by (apply Qle_shift_div_l; lra);
          assert (Eq : (D / - inject_Z L == - (D / inject_Z L))%Q)
            by (field; exact HLq);
          lra).
    assert (HD0 : (0 <= D)%Q).
    { rewrite HDM. pose proof (pow2_pos E) as HpE.
      apply Qmult_le_0_compat; [|lra].
      change 0%Q with (inject_Z 0). rewrite <- Zle_Qle. lia. }
    exists (Qceiling (D / inject_Z L)). split; [reflexivity|].
    assert (HL' : 0 < - L) by lia.
    assert (E' : (- (D / inject_Z L) == D / inject_Z (- L))%Q)
      by (rewrite inject_Z_opp; field; exact HLq).
    unfold Qceiling. rewrite E'.
    pose proof (instant_in_its_chunk (- L) HL' D) as [Hlo Hhi].
    set (f := Qfloor (D / inject_Z (- L))) in *.
    assert (Hf : 0 <= f).
    { assert (A : 0 < (f + 1) * - L).
      { rewrite Zlt_Qlt. eapply Qle_lt_trans; [exact HD0 | exact Hhi]. }
      nia. }
    split; [lia|]. split.
    + intro Hz. assert (Hf0 : f = 0) by lia. rewrite Hf0 in Hhi.
      replace ((0 + 1) * - L) with (- L) in Hhi by lia. exact Hhi.
    + intro Hlt.
      assert (A : f * - L < 1 * - L).
      { rewrite Zlt_Qlt. eapply Qle_lt_trans; [exact Hlo|].
        replace (1 * - L) with (- L) by lia. exact Hlt. }
      nia.
Qed.

(** 30 s with [--duration -60]: no chunk; the least positive duration
    in chunks of 2 s: no chunk either; 10^400 has no float. *)
Lemma plan_without_chunks_witness :
  (exists n, plan_num_chunks (Finite (30 # 1)) (-60) = Ok n /\ n <= 0 /\
             (n = 0 <-> (30 # 1 < inject_Z (- -60))%Q)) /\
  plan_num_chunks (Finite (1 # 2 ^ 1074)) 2 = Ok 0 /\
  plan_num_chunks (Finite 0) (10 ^ 400) = Raise OverflowError.
Proof.
  split; [|split].
  - exact (proj2 (proj2 (plan_without_chunks (30 # 1) (-60)
                           ltac:(discriminate)))
                 30 0 ltac:(lia) ltac:(lia) ltac:(lia) ltac:(reflexivity)).
  - exact (proj1 (proj2 (plan_without_chunks (1 # 2 ^ 1074) 2
                           ltac:(discriminate)))
                 ltac:(reflexivity) ltac:(lia)
                 ltac:(vm_compute; discriminate)).
  - assert (Hl : int_to_float (10 ^ 400) = Raise OverflowError)
      by (vm_compute; reflexivity).
    exact (proj2 (proj1 (proj2 (proj1 (plan_without_chunks 0 (10 ^ 400)
                                           ltac:(discriminate))
                                      ltac:(reflexivity)))
                        OverflowError Hl)).
Defined.

(* ================================================================== *)
(** * What each part of the program never does *)
(* ================================================================== *)

Section OnlyEvents.

Variable allowed : event -> bool.

Lemma only_events_ret {A : Type} (a : A) : only_events allowed (ret a).
Proof. intro t. exists []. simpl. now rewrite app_nil_r. Qed.

Lemma only_events_raise {A : Type} (e : exn) :
  only_events allowed (@raise A e).
Proof. intro t. exists []. simpl. now rewrite app_nil_r. Qed.

Lemma only_events_lift {A : Type} (r : result A) :
  only_events allowed (lift r).
Proof. intro t. exists []. simpl. now rewrite app_nil_r. Qed.

Lemma only_events_bind {A B : Type} (m : M A) (k : A -> M B) :
  only_events allowed m -> (forall a, only_events allowed (k a)) ->
  only_events allowed (bind m k).
Proof.
  intros Hm Hk t. unfold bind. destruct (Hm t) as [e1 [H1 R1]].
  destruct (m t) as [[a | x] t1]; simpl in H1; subst t1.
  - destruct (Hk a (t ++ e1)) as [e2 [H2 R2]].
    exists (e1 ++ e2). rewrite H2, app_assoc, forallb_app, R1, R2.
    split; reflexivity.
  - exists e1. split; [reflexivity | exact R1].
Qed.

Lemma only_events_try_except {A : Type} (m : M A) (h : exn -> M A) :
  only_events allowed m -> (forall e, only_events allowed (h e)) ->
  only_events allowed (try_except m h).
Proof.
  intros Hm Hh t. unfold try_except. destruct (Hm t) as [e1 [H1 R1]].
  destruct (m t) as [[a | x] t1]; simpl in H1; subst t1.
  - exists e1. split; [reflexivity | exact R1].
  - destruct (Hh x (t ++ e1)) as [e2 [H2 R2]].
    exists (e1 ++ e2). rewrite H2, app_assoc, forallb_app, R1, R2.
    split; reflexivity.
Qed.

Lemma only_events_try_except_only {A : Type} (catches : exn -> bool)
      (m h : M A) :
  only_events allowed m -> only_events allowed h ->
  only_events allowed (try_except_only catches m h).
Proof.
  intros Hm Hh t. unfold try_except_only. destruct (Hm t) as [e1 [H1 R1]].
  destruct (m t) as [[a | x] t1]; simpl in H1; subst t1.
  - exists e1. split; [reflexivity | exact R1].
  - destruct (catches x).
    + destruct (Hh (t ++ e1)) as [e2 [H2 R2]].
      exists (e1 ++ e2). rewrite H2, app_assoc, forallb_app, R1, R2.
      split; reflexivity.
    + exists e1. split; [reflexivity | exact R1].
Qed.

Lemma only_events_for_each {S : Type} (body : Z -> S -> M S) (l : list Z) :
  (forall i s, only_events allowed (body i s)) ->
  forall s, only_events allowed (for_each l body s).
Proof.
  intro Hbody. induction l as [|i l IH]; intro s; simpl.
  - apply only_events_ret.
  - apply only_events_bind; [apply Hbody | exact IH].
Qed.

(** Computations that agree at every history emit the same events. *)
Lemma only_events_ext {A : Type} (m m' : M A) :
  (forall t, m t = m' t) -> only_events allowed m' -> only_events allowed m.
Proof. intros E H t. rewrite E. apply H. Qed.

End OnlyEvents.

(** Syntax-directed proof that a computation emits only allowed events;
    an external call is checked against the allowed kinds by evaluation. *)
Ltac only_allowed :=
  repeat lazymatch goal with
    | |- only_events _ (bind _ _) => apply only_events_bind; [|intro]
    | |- only_events _ (try_except _ _) =>
        apply only_events_try_except; [|intro]
    | |- only_events _ (try_except_only _ _ _) =>
        apply only_events_try_except_only
    | |- only_events _ (for_each _ _ _) =>
        apply only_events_for_each; intros
    | |- only_events _ (ret _) => apply only_events_ret
    | |- only_events _ (raise _) => apply only_events_raise
    | |- only_events _ (lift _) => apply only_events_lift
    | |- only_events _ (match ?x with _ => _ end) => destruct x
    | |- only_events _ _ =>
        intro; eexists [_]; split; [reflexivity | reflexivity]
    end.

Section Never.

Variable env : Env.
Variable args : Args.

Lemma program_trace (t : trace) :
  snd (program env args t) = snd (main env args t).
Proof. unfold program. destruct (main env args t) as [[c | e] t']; reflexivity. Qed.

Lemma select_and_split_explicit (input_video : string) (t : trace) :
  method args <> Auto ->
  select_and_split env args input_video t
  = split_the_video env args input_video (method args) t.
Proof.
  intro Hm. unfold select_and_split, bind.
  rewrite determine_method_explicit by exact Hm. reflexivity.
Qed.

End Never.

(** X4. With [--method moviepy] the program never invokes an external
    tool, neither the prober nor ffmpeg, and never copies the source
    file: the short-circuit is not even considered. *)
Theorem moviepy_method_runs_no_tool (env : Env) (args : Args) (t : trace) :
  method args = Moviepy ->
  exists evs,
    snd (program env args t) = t ++ evs /\
    forallb (fun e => negb (tool_event e) && negb (copy_event e)) evs = true.
Proof.
  intro Hm. rewrite program_trace.
  revert t. change (only_events
                      (fun e => negb (tool_event e) && negb (copy_event e))
                      (main env args)).
  unfold main, short_circuit. rewrite Hm. cbv iota zeta. only_allowed.
  lazymatch goal with
  | |- only_events _ (select_and_split _ _ ?v) =>
      apply only_events_ext with (m' := split_the_video env args v Moviepy)
  end.
  - intro t. rewrite <- Hm. apply select_and_split_explicit.
    rewrite Hm. discriminate.
  - unfold split_the_video, check_moviepy_availability, split_video_moviepy,
      split_video_moviepy_counts, moviepy_chunk, moviepy_attempt.
    cbv zeta. only_allowed.
Qed.

Lemma moviepy_method_runs_no_tool_witness :
  exists evs,
    snd (program (Scenario.env_of Scenario.healthy)
                 (Scenario.args_of Moviepy 60) []) = [] ++ evs /\
    forallb (fun e => negb (tool_event e) && negb (copy_event e)) evs = true.
Proof.
  exact (moviepy_method_runs_no_tool (Scenario.env_of Scenario.healthy)
           (Scenario.args_of Moviepy 60) [] eq_refl).
Defined.

(** X5. With [--method ffmpeg] the program never touches the editing
    library: it imports nothing and opens, cuts, writes and closes no
    clip. *)
Theorem ffmpeg_method_never_uses_library (env : Env) (args : Args)
        (t : trace) :
  method args = Ffmpeg ->
  exists evs,
    snd (program env args t) = t ++ evs /\
    forallb (fun e => negb (library_event e)) evs = true.
Proof.
  intro Hm. rewrite program_trace.
  revert t. change (only_events (fun e => negb (library_event e))
                                (main env args)).
  unfold main, short_circuit, get_video_duration_ffmpeg. rewrite Hm.
  cbv iota zeta. only_allowed.
  lazymatch goal with
  | |- only_events _ (select_and_split _ _ ?v) =>
      apply only_events_ext with (m' := split_the_video env args v Ffmpeg)
  end.
  - intro t. rewrite <- Hm. apply select_and_split_explicit.
    rewrite Hm. discriminate.
  - unfold split_the_video, check_ffmpeg_availability, call_run_check,
      split_video_ffmpeg, split_video_ffmpeg_counts, ffmpeg_chunk,
      get_video_duration_ffmpeg.
    cbv zeta. only_allowed.
Qed.

Lemma ffmpeg_method_never_uses_library_witness :
  exists evs,
    snd (program (Scenario.env_of Scenario.healthy)
                 (Scenario.args_of Ffmpeg 60) []) = [] ++ evs /\
    forallb (fun e => negb (library_event e)) evs = true.
Proof.
  exact (ffmpeg_method_never_uses_library (Scenario.env_of Scenario.healthy)
           (Scenario.args_of Ffmpeg 60) [] eq_refl).
Defined.

(** X6. The duration prober and the two availability checks only look:
    whatever the environment answers, they create no directory, copy and
    write nothing; the prober and the ffmpeg check make no call into the
    library, and the moviepy check does nothing but one import. *)
Theorem probes_have_no_side_effect (env : Env) :
  (forall video_path,
     only_events (fun e => negb (output_event e) && negb (library_event e))
                 (get_video_duration_ffmpeg env video_path)) /\
  only_events (fun e => negb (output_event e) && negb (library_event e))
              (check_ffmpeg_availability env) /\
  only_events (fun e => match e with EvImport _ _ => true | _ => false end)
              (check_moviepy_availability env).
Proof.
  split; [|split].
  - intro video_path. unfold get_video_duration_ffmpeg. cbv zeta.
    only_allowed.
  - unfold check_ffmpeg_availability, call_run_check. only_allowed.
  - unfold check_moviepy_availability. only_allowed.
Qed.

(* ================================================================== *)
(** * More on the orchestrator *)
(* ================================================================== *)

(** X7. When the typed path does not exist the program exits 1 after
    these two calls alone: nothing is probed, no backend is checked and
    nothing is created.  When [input] itself raises (end of input) the
    program exits 1 at once. *)
Theorem missing_input_exits_1 (env : Env) (args : Args) (t0 : trace) :
  (forall answer,
     builtin_input env t0 = Ok answer ->
     os_path_exists env (t0 ++ [EvInput (Ok answer)]) (strip answer) = false ->
     program env args t0
     = (1, t0 ++ [EvInput (Ok answer); EvExists (strip answer) false])) /\
  (forall e,
     builtin_input env t0 = Raise e ->
     program env args t0 = (1, t0 ++ [EvInput (Raise e)])).
Proof.
  split.
  - intros answer Hin Hex. unfold program, main, bind, call_input, call_exists.
    rewrite Hin, Hex. simpl. rewrite <- app_assoc. reflexivity.
  - intros e Hin. unfold program, main, bind, call_input.
    rewrite Hin. reflexivity.
Qed.

Section Orchestrator.

Variable env : Env.
Variable args : Args.
Variable input_video : string.

(** The moviepy check is one import of [moviepy]. *)
Lemma check_moviepy_availability_true (t t1 : trace) :
  check_moviepy_availability env t = (Ok true, t1) <->
  import_module env t "moviepy" = Ok tt /\
  t1 = t ++ [EvImport "moviepy" (Ok tt)].
Proof.
  unfold check_moviepy_availability, try_except_only, bind, call_import, ret.
  destruct (import_module env t "moviepy") as [[] | e]; simpl.
  - split.
    + intro H. inversion H. split; reflexivity.
    + intros [_ ->]. reflexivity.
  - destruct (is_ImportError e); split; try discriminate;
      intros [H _]; discriminate.
Qed.

(** The re-encode splitter when its own import fails. *)
Lemma split_video_moviepy_no_editor (output : string) (L : Z) (t : trace) :
  import_module env t "moviepy.editor" = Raise ImportError ->
  split_video_moviepy env input_video output L t
  = (Ok false, t ++ [EvImport "moviepy.editor" (Raise ImportError)]).
Proof.
  intro H.
  unfold split_video_moviepy, split_video_moviepy_counts, bind,
    try_except_only, call_import.
  rewrite H. reflexivity.
Qed.

(** The stream-copy splitter when the probe gives nothing. *)
Lemma split_video_ffmpeg_no_duration (output : string) (L : Z)
      (t t1 : trace) :
  get_video_duration_ffmpeg env input_video t = (Ok None, t1) ->
  split_video_ffmpeg env input_video output L t = (Ok false, t1).
Proof.
  intro H. unfold split_video_ffmpeg, split_video_ffmpeg_counts, bind.
  rewrite H. reflexivity.
Qed.

End Orchestrator.

(** X8. The availability check of the library and the re-encode splitter
    import different modules ([moviepy] and [moviepy.editor]).  The check
    answers yes exactly when [moviepy] can be imported; when it does and
    [moviepy.editor] cannot be imported, [--method moviepy] passes the
    check and then exits 1 right after the failed import: the video is
    not opened and nothing is created. *)
Theorem moviepy_check_does_not_cover_editor (env : Env) (args : Args)
        (input_video : string) (t : trace) :
  method args = Moviepy ->
  import_module env t "moviepy" = Ok tt ->
  import_module env (t ++ [EvImport "moviepy" (Ok tt)]) "moviepy.editor"
  = Raise ImportError ->
  check_moviepy_availability env t
  = (Ok true, t ++ [EvImport "moviepy" (Ok tt)]) /\
  select_and_split env args input_video t
  = (Ok 1, t ++ [EvImport "moviepy" (Ok tt);
                 EvImport "moviepy.editor" (Raise ImportError)]).
Proof.
  intros Hm Himp Hed.
  assert (Hcheck : check_moviepy_availability env t
                   = (Ok true, t ++ [EvImport "moviepy" (Ok tt)]))
    by (apply check_moviepy_availability_true; auto).
  split; [exact Hcheck|].
  rewrite select_and_split_explicit by (rewrite Hm; discriminate).
  rewrite Hm. unfold split_the_video. unfold bind at 1. rewrite Hcheck.
  cbn [negb]. cbv iota. unfold bind.
  rewrite (split_video_moviepy_no_editor env input_video _ _ _ Hed).
  unfold ret. rewrite <- app_assoc. reflexivity.
Qed.

Lemma moviepy_check_does_not_cover_editor_witness :
  fst (program (Scenario.env_of Scenario.editor_missing)
               (Scenario.args_of Moviepy 60) []) = 1 /\
  select_and_split (Scenario.env_of Scenario.editor_missing)
                   (Scenario.args_of Moviepy 60) "movie.mp4" []
  = (Ok 1, [EvImport "moviepy" (Ok tt);
            EvImport "moviepy.editor" (Raise ImportError)]).
Proof.
  split; [reflexivity|].
  exact (proj2 (moviepy_check_does_not_cover_editor
                  (Scenario.env_of Scenario.editor_missing)
                  (Scenario.args_of Moviepy 60) "movie.mp4" []
                  eq_refl eq_refl eq_refl)).
Defined.

(** X9. The automatic choice does not come back on its choice: once the
    ffmpeg check has answered yes, a probe that gives no duration makes
    the run exit 1 at the end of the failed probe, whether or not the
    library is available; the library splitter is not tried. *)
Theorem auto_does_not_fall_back (env : Env) (args : Args)
        (input_video : string) (t t1 t2 t3 t4 : trace) (p : bool) :
  method args = Auto ->
  check_ffmpeg_availability env t = (Ok true, t1) ->
  check_moviepy_availability env t1 = (Ok p, t2) ->
  check_ffmpeg_availability env t2 = (Ok true, t3) ->
  get_video_duration_ffmpeg env input_video t3 = (Ok None, t4) ->
  select_and_split env args input_video t = (Ok 1, t4).
Proof.
  intros Hm Hf Hp Hf' Hprobe.
  unfold select_and_split. unfold bind at 1.
  rewrite (determine_method_auto env args t t1 t2 true p Hm Hf Hp).
  unfold split_the_video. unfold bind at 1. rewrite Hf'.
  cbn [negb]. cbv iota. unfold bind.
  rewrite (split_video_ffmpeg_no_duration env input_video _ _ _ _ Hprobe).
  reflexivity.
Qed.

Lemma auto_does_not_fall_back_witness :
  program (Scenario.env_of Scenario.probe_missing)
          (Scenario.args_of Auto 60) []
  = (1, [EvInput (Ok " movie.mp4 "); EvExists "movie.mp4" true;
         EvExists "C:\ffmpeg\ffprobe.exe" false;
         EvRun (ffprobe_cmd "ffprobe" "movie.mp4") (Raise FileNotFoundError);
         EvExists "C:\ffmpeg\ffmpeg.exe" false;
         EvRun ["ffmpeg"; "-version"]
               (Scenario.exited 0 "ffmpeg version 6.0");
         EvImport "moviepy" (Ok tt);
         EvExists "C:\ffmpeg\ffmpeg.exe" false;
         EvRun ["ffmpeg"; "-version"]
               (Scenario.exited 0 "ffmpeg version 6.0");
         EvExists "C:\ffmpeg\ffprobe.exe" false;
         EvRun (ffprobe_cmd "ffprobe" "movie.mp4")
               (Raise FileNotFoundError)]) /\
  select_and_split (Scenario.env_of Scenario.probe_missing)
                   (Scenario.args_of Auto 60) "movie.mp4" []
  = (Ok 1, [EvExists "C:\ffmpeg\ffmpeg.exe" false;
            EvRun ["ffmpeg"; "-version"]
                  (Scenario.exited 0 "ffmpeg version 6.0");
            EvImport "moviepy" (Ok tt);
            EvExists "C:\ffmpeg\ffmpeg.exe" false;
            EvRun ["ffmpeg"; "-version"]
                  (Scenario.exited 0 "ffmpeg version 6.0");
            EvExists "C:\ffmpeg\ffprobe.exe" false;
            EvRun (ffprobe_cmd "ffprobe" "movie.mp4")
                  (Raise FileNotFoundError)]).
Proof.
  split; [reflexivity|].
  exact (auto_does_not_fall_back
           (Scenario.env_of Scenario.probe_missing)
           (Scenario.args_of Auto 60) "movie.mp4" [] _ _ _ _ true
           eq_refl eq_refl eq_refl eq_refl eq_refl).
Defined.

(** X10. The ffmpeg check.  When the fixed install location exists it
    answers yes and runs nothing.  Otherwise it runs [ffmpeg -version]
    once and answers yes when the tool exits with status zero, no when it
    exits with another status or [subprocess.run] raises
    FileNotFoundError or CalledProcessError; any other exception of
    [subprocess.run] is not caught, and in an automatic run it ends the
    method resolution: the library is not considered. *)
Theorem check_ffmpeg_availability_answers (env : Env) (t : trace) :
  let ex := os_path_exists env t "C:\ffmpeg\ffmpeg.exe" in
  let t1 := t ++ [EvExists "C:\ffmpeg\ffmpeg.exe" ex] in
  let answer := subprocess_run env t1 ["ffmpeg"; "-version"] in
  let t2 := t1 ++ [EvRun ["ffmpeg"; "-version"] answer] in
  (ex = true -> check_ffmpeg_availability env t = (Ok true, t1)) /\
  (ex = false ->
   check_ffmpeg_availability env t
   = match answer with
     | Ok r => (Ok (returncode r =? 0), t2)
     | Raise e =>
         if is_CalledProcessError_or_FileNotFoundError e
         then (Ok false, t2) else (Raise e, t2)
     end) /\
  (forall args input_video e t',
     method args = Auto ->
     check_ffmpeg_availability env t = (Raise e, t') ->
     select_and_split env args input_video t = (Raise e, t') /\
     is_CalledProcessError_or_FileNotFoundError e = false /\
     answer = Raise e).
Proof.
  intros ex t1 answer t2.
  assert (Hyes : ex = true -> check_ffmpeg_availability env t = (Ok true, t1)).
  { subst t2 answer t1 ex. intro Hex.
    unfold check_ffmpeg_availability, try_except_only, bind, call_exists.
    rewrite Hex. reflexivity. }
  assert (Hno : ex = false ->
                check_ffmpeg_availability env t
                = match answer with
                  | Ok r => (Ok (returncode r =? 0), t2)
                  | Raise e =>
                      if is_CalledProcessError_or_FileNotFoundError e
                      then (Ok false, t2) else (Raise e, t2)
                  end).
  { subst t2 answer t1 ex. intro Hex.
    unfold check_ffmpeg_availability, try_except_only, bind, call_exists,
      call_run_check, bind, call_run.
    rewrite Hex.
    destruct (subprocess_run env _ _) as [r | e]; [|reflexivity].
    destruct (returncode r =? 0); reflexivity. }
  split; [exact Hyes|]. split; [exact Hno|].
  intros args input_video e t' Hm Hraise.
  split.
  - unfold select_and_split, determine_method. rewrite Hm.
    unfold bind. rewrite Hraise. reflexivity.
  - destruct ex eqn:Hex.
    + rewrite (Hyes eq_refl) in Hraise. discriminate.
    + rewrite (Hno eq_refl) in Hraise.
      destruct answer as [r | e0]; [discriminate|].
      destruct (is_CalledProcessError_or_FileNotFoundError e0) eqn:Hc;
        [discriminate|].
      inversion Hraise; subst. auto.
Qed.

(* ================================================================== *)
(** * More on the two splitters *)
(* ================================================================== *)

Lemma range_nonpos (n : Z) : n <= 0 -> range n = [].
Proof. intro H. unfold range. replace (Z.to_nat n) with 0%nat by lia. reflexivity. Qed.

Section SplitterEdges.

Variable env : Env.
Variable input_path output_dir : string.

(** A probe is two calls: the look-up of the fixed install location and
    one invocation of the probing tool. *)
Lemma probe_events (t t' : trace) (r : result (option pyfloat)) :
  get_video_duration_ffmpeg env input_path t = (r, t') ->
  let ex := os_path_exists env t "C:\ffmpeg\ffprobe.exe" in
  t' = t ++ [EvExists "C:\ffmpeg\ffprobe.exe" ex;
             EvRun (ffprobe_cmd (if ex then "C:\ffmpeg\ffprobe.exe"
                                 else "ffprobe") input_path)
                   (probe_answer env input_path t)].
Proof.
  unfold get_video_duration_ffmpeg, probe_answer, try_except, bind,
    call_exists, call_run, lift, ret, raise.
  cbv zeta.
  destruct (subprocess_run env _ _) as [cp | x].
  - destruct (returncode cp =? 0).
    + destruct (builtin_float env (strip (stdout cp))) as [v | x];
        intro H; inversion H; now rewrite <- app_assoc.
    + intro H; inversion H; now rewrite <- app_assoc.
  - intro H; inversion H; now rewrite <- app_assoc.
Qed.

(** The stream-copy splitter after a probe that gave a duration. *)
Lemma split_video_ffmpeg_counts_probed (L : Z) (t t1 : trace) (d : pyfloat) :
  get_video_duration_ffmpeg env input_path t = (Ok (Some d), t1) ->
  split_video_ffmpeg_counts env input_path output_dir L t
  = (num_chunks <- lift (plan_num_chunks d L) ;;
     call_makedirs env output_dir ;;
     ex <- call_exists env "C:\ffmpeg\ffmpeg.exe" ;;
     success_count <-
       for_each (range num_chunks)
         (ffmpeg_chunk env (if ex then "C:\ffmpeg\ffmpeg.exe" else "ffmpeg")
                       input_path output_dir (path_suffix env input_path) L)
         0 ;;
     ret (Some {| success_count := success_count;
                  num_chunks := num_chunks |})) t1.
Proof.
  intro H. unfold split_video_ffmpeg_counts. unfold bind at 1. rewrite H.
  reflexivity.
Qed.

(** The re-encode splitter after its import and the opening of the
    source went through. *)
Lemma split_video_moviepy_counts_opened (L : Z) (t : trace) (D : pyfloat) :
  import_module env t "moviepy.editor" = Ok tt ->
  moviepy_VideoFileClip env (t ++ [EvImport "moviepy.editor" (Ok tt)])
                        input_path = Ok D ->
  let t0 := t ++ [EvImport "moviepy.editor" (Ok tt)] in
  let video := List.length t0 in
  split_video_moviepy_counts env input_path output_dir L t
  = (num_chunks <- lift (plan_num_chunks D L) ;;
     call_makedirs env output_dir ;;
     success_count <-
       for_each (range num_chunks)
         (moviepy_chunk env video D output_dir (path_suffix env input_path) L)
         0 ;;
     call_close video ;;
     ret (Some {| success_count := success_count;
                  num_chunks := num_chunks |}))
      (t0 ++ [EvOpen input_path (Ok (video, D))]).
Proof.
  intros Himp Hopen t0 video.
  unfold split_video_moviepy_counts. unfold bind at 1.
  unfold try_except_only, bind at 1, call_import. rewrite Himp.
  cbn [ret negb]. cbv iota. unfold bind at 1.
  unfold try_except, bind at 1, call_VideoFileClip. rewrite Hopen.
  reflexivity.
Qed.

End SplitterEdges.

(** X11. A plan without a chunk (zero or negative, as for a zero
    duration or a negative chunk length).  The stream-copy splitter still
    creates the output directory and looks for the tool, issues no chunk
    command, and returns True exactly when the plan is 0.  The re-encode
    splitter creates the directory, extracts nothing, closes the source
    clip, and returns True exactly when the plan is 0.  So a run can
    succeed having produced no file. *)
Theorem empty_plan_splits_nothing (env : Env) (input_path output_dir : string)
        (L n : Z) (t : trace) :
  n <= 0 ->
  (forall t1 d,
     get_video_duration_ffmpeg env input_path t = (Ok (Some d), t1) ->
     plan_num_chunks d L = Ok n ->
     os_makedirs env t1 output_dir = Ok tt ->
     let t2 := t1 ++ [EvMakedirs output_dir (Ok tt)] in
     split_video_ffmpeg env input_path output_dir L t
     = (Ok (0 =? n),
        t2 ++ [EvExists "C:\ffmpeg\ffmpeg.exe"
                        (os_path_exists env t2 "C:\ffmpeg\ffmpeg.exe")])) /\
  (forall D,
     let t0 := t ++ [EvImport "moviepy.editor" (Ok tt)] in
     let video := List.length t0 in
     let t1 := t0 ++ [EvOpen input_path (Ok (video, D))] in
     import_module env t "moviepy.editor" = Ok tt ->
     moviepy_VideoFileClip env t0 input_path = Ok D ->
     plan_num_chunks D L = Ok n ->
     os_makedirs env t1 output_dir = Ok tt ->
     split_video_moviepy env input_path output_dir L t
     = (Ok (0 =? n),
        t1 ++ [EvMakedirs output_dir (Ok tt); EvClose video])).
Proof.
  intro Hn. split.
  - intros t1 d Hprobe Hplan Hmk t2.
    unfold split_video_ffmpeg. unfold bind at 1.
    rewrite (split_video_ffmpeg_counts_probed env _ _ _ _ _ _ Hprobe).
    unfold bind, lift, call_makedirs, call_exists. rewrite Hplan, Hmk.
    rewrite (range_nonpos n Hn). reflexivity.
  - intros D t0 video t1 Himp Hopen Hplan Hmk.
    unfold split_video_moviepy. unfold bind at 1.
    rewrite (split_video_moviepy_counts_opened env _ _ _ _ _ Himp Hopen).
    fold t0. fold video. fold t1.
    unfold bind, lift, call_makedirs, call_close. rewrite Hplan, Hmk.
    rewrite (range_nonpos n Hn). simpl. rewrite <- app_assoc. reflexivity.
Qed.

(** A video of duration zero: exit 0, the directory is made, no file. *)
Lemma empty_plan_splits_nothing_witness :
  let env := Scenario.env_of (Scenario.probing "0.0") in
  split_video_ffmpeg env "movie.mp4" "output_chunks" 60 []
  = (Ok true,
     [EvExists "C:\ffmpeg\ffprobe.exe" false;
      EvRun (ffprobe_cmd "ffprobe" "movie.mp4")
            (Scenario.exited 0 ("0.0" ++ Scenario.newline)%string);
      EvMakedirs "output_chunks" (Ok tt);
      EvExists "C:\ffmpeg\ffmpeg.exe" false]).
Proof.
  intro env.
  exact (proj1 (empty_plan_splits_nothing env "movie.mp4" "output_chunks"
                  60 0 [] ltac:(lia))
               _ (Finite 0) eq_refl eq_refl eq_refl).
Defined.

Lemma plan_num_chunks_zero_length (d : pyfloat) :
  plan_num_chunks d 0 = Raise ZeroDivisionError.
Proof. reflexivity. Qed.

(** A run of [main] that ended with the counters of a splitter went
    through that splitter, with the arguments of the command line. *)
Lemma main_outcome_SplitDone (env : Env) (args : Args) (t t' : trace)
      (r : SplitResult) :
  main_outcome env args t = (Ok (SplitDone r), t') ->
  exists input_video t1,
    split_video_ffmpeg_counts env input_video (output_dir args)
                              (duration args) t1 = (Ok (Some r), t') \/
    split_video_moviepy_counts env input_video (output_dir args)
                               (duration args) t1 = (Ok (Some r), t').
Proof.
  unfold main_outcome, bind.
  destruct (call_input env t) as [[answer | e] t1]; [|discriminate].
  destruct (call_exists env (strip answer) t1) as [[[|] | e] t2];
    simpl; try discriminate.
  destruct (short_circuit env args (strip answer) t2)
    as [[[[] | code] | e] t3]; try discriminate.
  unfold select_and_split_outcome, bind.
  destruct (determine_method env args t3) as [[[m | code] | e] t4];
    try discriminate.
  unfold split_the_video_outcome, bind, ret.
  destruct m; try discriminate.
  - destruct (check_moviepy_availability env t4) as [[[|] | e] t5]; simpl;
      try discriminate.
    destruct (split_video_moviepy_counts env _ _ _ t5)
      as [[[r'|] | e] t6] eqn:Hs; try discriminate.
    intro H. inversion H; subst. exists (strip answer), t5. right. exact Hs.
  - destruct (check_ffmpeg_availability env t4) as [[[|] | e] t5]; simpl;
      try discriminate.
    destruct (split_video_ffmpeg_counts env _ _ _ t5)
      as [[[r'|] | e] t6] eqn:Hs; try discriminate.
    intro H. inversion H; subst. exists (strip answer), t5. left. exact Hs.
Qed.

(** X12. A chunk length of 0.  Once it has a duration, each splitter
    raises ZeroDivisionError before it creates the output directory, and
    the re-encode splitter leaves the source clip it opened unclosed.  No
    splitter ever reports counters, so a run with [--duration 0] that
    exits 0 ended in the short-circuit copy. *)
Theorem zero_chunk_length_raises (env : Env) :
  (forall input_path output_dir t t1 d,
     get_video_duration_ffmpeg env input_path t = (Ok (Some d), t1) ->
     split_video_ffmpeg env input_path output_dir 0 t
     = (Raise ZeroDivisionError, t1)) /\
  (forall input_path output_dir t D,
     let t0 := t ++ [EvImport "moviepy.editor" (Ok tt)] in
     import_module env t "moviepy.editor" = Ok tt ->
     moviepy_VideoFileClip env t0 input_path = Ok D ->
     split_video_moviepy env input_path output_dir 0 t
     = (Raise ZeroDivisionError,
        t0 ++ [EvOpen input_path (Ok (List.length t0, D))])) /\
  (forall args t0,
     duration args = 0 ->
     fst (program env args t0) = 0 ->
     fst (main_outcome env args t0) = Ok CopiedWhole).
Proof.
  split; [|split].
  - intros input_path output_dir t t1 d Hprobe.
    unfold split_video_ffmpeg. unfold bind at 1.
    rewrite (split_video_ffmpeg_counts_probed env _ _ _ _ _ _ Hprobe).
    reflexivity.
  - intros input_path output_dir t D t0 Himp Hopen.
    unfold split_video_moviepy. unfold bind at 1.
    rewrite (split_video_moviepy_counts_opened env _ _ _ _ _ Himp Hopen).
    reflexivity.
  - intros args t0 HL. unfold program. rewrite main_exit_code.
    destruct (main_outcome env args t0) as [[o | e] t'] eqn:Hm; simpl;
      [|discriminate].
    destruct o; simpl; try discriminate; try reflexivity.
    exfalso. apply main_outcome_SplitDone in Hm.
    destruct Hm as [input_video [t1 [H | H]]]; rewrite HL in H.
    + apply split_video_ffmpeg_counts_inv in H.
      destruct H as [d [_ [_ [_ [_ [Hplan _]]]]]].
      rewrite plan_num_chunks_zero_length in Hplan. discriminate.
    + apply split_video_moviepy_counts_inv in H.
      destruct H as [video [D [_ [_ [_ [Hplan _]]]]]].
      rewrite plan_num_chunks_zero_length in Hplan. discriminate.
Qed.

(** X13. Giving up.  When the probe gives no duration the stream-copy
    splitter returns False after the two calls of the probe; when the
    source cannot be opened the re-encode splitter returns False after
    its import and the failed opening.  In both cases no directory is
    created and there is no clip to close. *)
Theorem splitters_give_up_cleanly (env : Env) (input_path output_dir : string)
        (L : Z) (t : trace) :
  (forall t1,
     get_video_duration_ffmpeg env input_path t = (Ok None, t1) ->
     let ex := os_path_exists env t "C:\ffmpeg\ffprobe.exe" in
     split_video_ffmpeg env input_path output_dir L t
     = (Ok false,
        t ++ [EvExists "C:\ffmpeg\ffprobe.exe" ex;
              EvRun (ffprobe_cmd (if ex then "C:\ffmpeg\ffprobe.exe"
                                  else "ffprobe") input_path)
                    (probe_answer env input_path t)])) /\
  (forall e,
     let t0 := t ++ [EvImport "moviepy.editor" (Ok tt)] in
     import_module env t "moviepy.editor" = Ok tt ->
     moviepy_VideoFileClip env t0 input_path = Raise e ->
     split_video_moviepy env input_path output_dir L t
     = (Ok false, t0 ++ [EvOpen input_path (Raise e)])).
Proof.
  split.
  - intros t1 Hprobe ex.
    rewrite (split_video_ffmpeg_no_duration env _ _ _ _ _ Hprobe).
    f_equal. exact (probe_events env input_path t t1 _ Hprobe).
  - intros e t0 Himp Hopen. subst t0.
    unfold split_video_moviepy, split_video_moviepy_counts.
    unfold bind at 1. unfold bind at 1.
    unfold try_except_only, bind at 1, call_import. rewrite Himp.
    cbn [ret negb]. cbv iota. unfold bind at 1.
    unfold try_except, bind at 1, call_VideoFileClip. rewrite Hopen.
    reflexivity.
Qed.

(** X14. When the re-encode splitter raises, it has closed no clip and
    written no file.  Either its import raised something other than
    ImportError and nothing else happened, or the source clip was opened
    and is left open: that is the case for an exception of the plan (a
    chunk length of 0, a duration that is nan or infinite) and of the
    creation of the output directory. *)
Theorem reencode_raise_closes_nothing (env : Env)
        (input_path output_dir : string) (L : Z) (t t' : trace) (e : exn) :
  split_video_moviepy env input_path output_dir L t = (Raise e, t') ->
  exists evs,
    t' = t ++ evs /\
    clips_closed evs = [] /\
    files_written evs = [] /\
    ((evs = [EvImport "moviepy.editor" (Raise e)] /\
      is_ImportError e = false) \/
     exists video D, In (EvOpen input_path (Ok (video, D))) evs).
Proof.
  unfold split_video_moviepy. unfold bind at 1.
  destruct (split_video_moviepy_counts env input_path output_dir L t)
    as [[r | x] t1] eqn:Hs; [discriminate|].
  intro H. inversion H; subst x t1. clear H. revert Hs.
  unfold split_video_moviepy_counts, bind, try_except_only, try_except.
  unfold call_import, ret.
  destruct (import_module env t "moviepy.editor") as [[] | x]; simpl.
  2:{ destruct (is_ImportError x) eqn:Hx; simpl; [discriminate|].
      intro H. inversion H; subst. eexists. split; [reflexivity|].
      split; [reflexivity|]. split; [reflexivity|].
      left. split; [reflexivity | exact Hx]. }
  unfold call_VideoFileClip.
  destruct (moviepy_VideoFileClip env _ input_path) as [D | x];
    [|discriminate].
  unfold lift. destruct (plan_num_chunks D L) as [n | x].
  2:{ intro H. inversion H; subst. eexists.
      split; [rewrite <- app_assoc; reflexivity|].
      repeat split. right. eexists. eexists. simpl. right. left.
      reflexivity. }
  unfold call_makedirs.
  destruct (os_makedirs env _ output_dir) as [[] | x].
  - match goal with
    | |- context [for_each (range n) ?body 0 ?t1] =>
        destruct (for_each_iterations _ _
                    (moviepy_chunk_step env (List.length
                       (t ++ [EvImport "moviepy.editor" (Ok tt)]))
                       D output_dir (path_suffix env input_path) L)
                    (range n) 0 t1) as [c [groups [Hrun _]]]
    end.
    rewrite Hrun. discriminate.
  - intro H. inversion H; subst. eexists.
    split; [rewrite <- !app_assoc; reflexivity|].
    repeat split. right. eexists. eexists. simpl. right. left. reflexivity.
Qed.

Lemma reencode_raise_closes_nothing_witness :
  exists evs,
    [EvImport "moviepy.editor" (Ok tt);
     EvOpen "movie.mp4" (Ok (1%nat, Finite (150 # 1)))] = [] ++ evs /\
    clips_closed evs = [] /\
    files_written evs = [] /\
    ((evs = [EvImport "moviepy.editor" (Raise ZeroDivisionError)] /\
      is_ImportError ZeroDivisionError = false) \/
     exists video D, In (EvOpen "movie.mp4" (Ok (video, D))) evs).
Proof.
  exact (reencode_raise_closes_nothing
           (Scenario.env_of Scenario.healthy) "movie.mp4" "output_chunks" 0
           [] _ ZeroDivisionError eq_refl).
Defined.

(* ================================================================== *)
(** * File names and commands *)
(* ================================================================== *)

(** [str] has an inverse: a decimal numeral denotes one integer. *)
Lemma int_of_str (n : Z) : NilZero.int_of_string (str n) = Some (Z.to_int n).
Proof.
  unfold str. apply NilZero.isi.
  - destruct n; simpl; try discriminate.
    intro H. injection H as H. exact (Unsigned.to_uint_nonnil p H).
  - destruct n; simpl; try discriminate.
    intro H. injection H as H. exact (Unsigned.to_uint_nonnil p H).
Qed.

Lemma str_injective (a b : Z) : str a = str b -> a = b.
Proof.
  intro H. apply (f_equal NilZero.int_of_string) in H.
  rewrite !int_of_str in H. injection H as H.
  apply DecimalZ.to_int_inj. exact H.
Qed.

Lemma string_length_append (a b : string) :
  String.length (a ++ b)%string = (String.length a + String.length b)%nat.
Proof. induction a as [|c a IH]; simpl; [reflexivity | now rewrite IH]. Qed.

Lemma string_app_inv_head (p x y : string) :
  (p ++ x)%string = (p ++ y)%string -> x = y.
Proof.
  induction p as [|c p IH]; simpl; intro H; [exact H|].
  injection H as H. exact (IH H).
Qed.

Lemma string_app_inv_tail (x y z : string) :
  (x ++ z)%string = (y ++ z)%string -> x = y.
Proof.
  revert y. induction x as [|c x IH]; intros [|c' y] H; simpl in H.
  - reflexivity.
  - exfalso. apply (f_equal String.length) in H. simpl in H.
    rewrite string_length_append in H. lia.
  - exfalso. apply (f_equal String.length) in H. simpl in H.
    rewrite string_length_append in H. lia.
  - injection H as -> H. f_equal. exact (IH y H).
Qed.

Lemma range_NoDup (n : Z) : NoDup (range n).
Proof.
  unfold range. apply Injective_map_NoDup.
  - intros a b H. lia.
  - apply seq_NoDup.
Qed.

Section FileNames.

Variable env : Env.
Variable output_dir extension : string.

Hypothesis join_injective : forall a b,
  os_path_join env output_dir ("chunk_" ++ a)%string
  = os_path_join env output_dir ("chunk_" ++ b)%string -> a = b.

Lemma chunk_file_injective (i j : Z) :
  chunk_file env output_dir extension i = chunk_file env output_dir extension j ->
  i = j.
Proof.
  unfold chunk_file. intro H. apply join_injective in H.
  apply string_app_inv_tail in H. apply str_injective in H. lia.
Qed.

Lemma chunk_files_NoDup (l : list Z) :
  NoDup l -> NoDup (map (chunk_file env output_dir extension) l).
Proof.
  apply Injective_map_NoDup. intros i j. apply chunk_file_injective.
Qed.

End FileNames.

(** X15. Where joining the output directory with a file name beginning
    with chunk_ loses nothing (as on a POSIX platform), different chunks
    have different output files: no chunk overwrites another, whatever
    the extension and however many chunks there are; and the commands of
    different chunks differ. *)
Theorem chunk_files_distinct (env : Env) (output_dir extension : string) :
  (forall a b,
     os_path_join env output_dir ("chunk_" ++ a)%string
     = os_path_join env output_dir ("chunk_" ++ b)%string -> a = b) ->
  (forall i j,
     chunk_file env output_dir extension i
     = chunk_file env output_dir extension j -> i = j) /\
  (forall n, NoDup (map (chunk_file env output_dir extension) (range n))) /\
  (forall ffmpeg_path input_path L i j,
     ffmpeg_cmd ffmpeg_path input_path
                (chunk_file env output_dir extension i) L i
     = ffmpeg_cmd ffmpeg_path input_path
                  (chunk_file env output_dir extension j) L j -> i = j).
Proof.
  intro Hjoin. split; [|split].
  - apply chunk_file_injective. exact Hjoin.
  - intro n. apply chunk_files_NoDup; [exact Hjoin | apply range_NoDup].
  - intros ffmpeg_path input_path L i j H. unfold ffmpeg_cmd in H.
    injection H as _ H. eapply chunk_file_injective; eassumption.
Qed.

Lemma posix_join_chunk_injective (a b : string) :
  Scenario.posix_join "output_chunks" ("chunk_" ++ a)%string
  = Scenario.posix_join "output_chunks" ("chunk_" ++ b)%string -> a = b.
Proof.
  change (("output_chunks/chunk_" ++ a)%string
          = ("output_chunks/chunk_" ++ b)%string -> a = b).
  apply string_app_inv_head.
Qed.

Lemma chunk_files_distinct_witness :
  NoDup (map (chunk_file (Scenario.env_of Scenario.healthy)
                         "output_chunks" ".mp4") (range 3)).
Proof.
  exact (proj1 (proj2 (chunk_files_distinct
                         (Scenario.env_of Scenario.healthy)
                         "output_chunks" ".mp4"
                         posix_join_chunk_injective)) 3).
Defined.

(** The stream-copy loop creates no directory. *)
Lemma ffmpeg_iterations_dirs env ffmpeg_path input_path output_dir extension L
      (l : list Z) t c c' groups :
  iterations (ffmpeg_step env ffmpeg_path input_path output_dir extension L)
             l t c c' groups ->
  dirs_made (List.concat groups) = [].
Proof.
  induction 1 as [|i l t c c1 c2 evs groups [Hevs _] _ IH]; simpl.
  - reflexivity.
  - unfold dirs_made in *. rewrite flat_map_app, IH, Hevs. reflexivity.
Qed.

(** X16. What a run of the stream-copy splitter that reports its
    counters has executed: one probe, then one command per planned chunk,
    in the order of the chunks, all with the same tool path (the fixed
    install location or the name on PATH), each writing to the file of
    its chunk; and it has created the output directory, once. *)
Theorem stream_copy_commands (env : Env) (input_path output_dir : string)
        (L : Z) (t t' : trace) (r : SplitResult) :
  split_video_ffmpeg_counts env input_path output_dir L t
  = (Ok (Some r), t') ->
  exists evs probe_tool ffmpeg_tool,
    t' = t ++ evs /\
    (probe_tool = "C:\ffmpeg\ffprobe.exe" \/ probe_tool = "ffprobe") /\
    (ffmpeg_tool = "C:\ffmpeg\ffmpeg.exe" \/ ffmpeg_tool = "ffmpeg") /\
    run_cmds evs
    = ffprobe_cmd probe_tool input_path
      :: map (fun i => ffmpeg_cmd ffmpeg_tool input_path
                         (chunk_file env output_dir
                                     (path_suffix env input_path) i) L i)
             (range (num_chunks r)) /\
    dirs_made evs = [output_dir].
Proof.
  intro H.
  destruct (get_video_duration_ffmpeg env input_path t)
    as [[[d|] | e] t1] eqn:Hprobe.
  2:{ unfold split_video_ffmpeg_counts, bind in H. rewrite Hprobe in H.
      discriminate. }
  2:{ unfold split_video_ffmpeg_counts, bind in H. rewrite Hprobe in H.
      discriminate. }
  rewrite (split_video_ffmpeg_counts_probed env _ _ _ _ _ _ Hprobe) in H.
  pose proof (probe_events env input_path t t1 _ Hprobe) as Ht1.
  cbv zeta in Ht1.
  revert H. unfold bind, lift.
  destruct (plan_num_chunks d L) as [n | e]; [|discriminate].
  unfold call_makedirs.
  destruct (os_makedirs env t1 output_dir) as [[] | e]; [|discriminate].
  unfold call_exists.
  set (t2 := (t1 ++ _) ++ _).
  set (ffmpeg_tool := if os_path_exists env _ "C:\ffmpeg\ffmpeg.exe"
                      then _ else _).
  destruct (for_each_iterations _ _
              (ffmpeg_chunk_step env ffmpeg_tool input_path output_dir
                                 (path_suffix env input_path) L)
              (range n) 0 t2) as [c [groups [Hrun Hiter]]].
  rewrite Hrun. unfold ret. intro H. inversion H; subst r t'. clear H.
  simpl num_chunks.
  exists ([EvExists "C:\ffmpeg\ffprobe.exe"
                    (os_path_exists env t "C:\ffmpeg\ffprobe.exe");
           EvRun (ffprobe_cmd
                    (if os_path_exists env t "C:\ffmpeg\ffprobe.exe"
                     then "C:\ffmpeg\ffprobe.exe" else "ffprobe") input_path)
                 (probe_answer env input_path t);
           EvMakedirs output_dir (Ok tt);
           EvExists "C:\ffmpeg\ffmpeg.exe"
                    (os_path_exists env (t1 ++ [EvMakedirs output_dir (Ok tt)])
                                    "C:\ffmpeg\ffmpeg.exe")]
          ++ List.concat groups),
    (if os_path_exists env t "C:\ffmpeg\ffprobe.exe"
     then "C:\ffmpeg\ffprobe.exe" else "ffprobe"),
    ffmpeg_tool.
  split.
  { subst t2. rewrite Ht1. rewrite <- !app_assoc. reflexivity. }
  split; [destruct (os_path_exists env t "C:\ffmpeg\ffprobe.exe");
          [left | right]; reflexivity|].
  split; [subst ffmpeg_tool;
          destruct (os_path_exists env (t1 ++ [EvMakedirs output_dir (Ok tt)])
                                   "C:\ffmpeg\ffmpeg.exe");
          [left | right]; reflexivity|].
  split.
  - rewrite run_cmds_app. simpl run_cmds at 1.
    rewrite (ffmpeg_iterations_cmds _ _ _ _ _ _ _ _ _ _ _ Hiter).
    reflexivity.
  - unfold dirs_made. rewrite flat_map_app. fold (dirs_made (List.concat groups)).
    rewrite (ffmpeg_iterations_dirs _ _ _ _ _ _ _ _ _ _ _ Hiter).
    reflexivity.
Qed.

Lemma stream_copy_commands_witness :
  exists evs probe_tool ffmpeg_tool,
    snd (split_video_ffmpeg_counts (Scenario.env_of Scenario.healthy)
           "movie.mp4" "output_chunks" 60 []) = [] ++ evs /\
    (probe_tool = "C:\ffmpeg\ffprobe.exe" \/ probe_tool = "ffprobe") /\
    (ffmpeg_tool = "C:\ffmpeg\ffmpeg.exe" \/ ffmpeg_tool = "ffmpeg") /\
    run_cmds evs
    = ffprobe_cmd probe_tool "movie.mp4"
      :: map (fun i => ffmpeg_cmd ffmpeg_tool "movie.mp4"
                         (chunk_file (Scenario.env_of Scenario.healthy)
                                     "output_chunks" ".mp4" i) 60 i)
             (range 3) /\
    dirs_made evs = ["output_chunks"].
Proof.
  pose (run := split_video_ffmpeg_counts (Scenario.env_of Scenario.healthy)
                 "movie.mp4" "output_chunks" 60 []).
  assert (Hrun : run = (Ok (Some {| success_count := 3; num_chunks := 3 |}),
                        snd run)) by (vm_compute; reflexivity).
  exact (stream_copy_commands (Scenario.env_of Scenario.healthy)
           "movie.mp4" "output_chunks" 60 [] (snd run)
           {| success_count := 3; num_chunks := 3 |} Hrun).
Defined.

(* ================================================================== *)
(** * What the re-encode loop leaves behind *)
(* ================================================================== *)

Lemma subsequence_NoDup {A : Type} (l1 l2 : list A) :
  subsequence l1 l2 -> NoDup l2 -> NoDup l1.
Proof.
  assert (Hin : forall (l1 l2 : list A), subsequence l1 l2 ->
                forall x, In x l1 -> In x l2).
  { induction 1; intros y Hy; simpl in *; intuition. }
  induction 1 as [|x l1 l2 H IH | x l1 l2 H IH]; intro Hnd.
  - constructor.
  - inversion Hnd; subst. auto.
  - inversion Hnd; subst. constructor; [|auto].
    intro Hx. apply (Hin _ _ H) in Hx. contradiction.
Qed.

Lemma subsequence_map {A B : Type} (f : A -> B) (l1 l2 : list A) :
  subsequence l1 l2 -> subsequence (map f l1) (map f l2).
Proof. induction 1; simpl; constructor; assumption. Qed.

Lemma clips_closed_app (t1 t2 : trace) :
  clips_closed (t1 ++ t2) = clips_closed t1 ++ clips_closed t2.
Proof. unfold clips_closed. apply flat_map_app. Qed.

Lemma subclips_opened_app (t1 t2 : trace) :
  subclips_opened (t1 ++ t2) = subclips_opened t1 ++ subclips_opened t2.
Proof. unfold subclips_opened. apply flat_map_app. Qed.

Lemma writes_raised_app (t1 t2 : trace) :
  writes_raised (t1 ++ t2) = writes_raised t1 ++ writes_raised t2.
Proof. unfold writes_raised. apply flat_map_app. Qed.

Lemma subclip_windows_app (t1 t2 : trace) :
  subclip_windows (t1 ++ t2) = subclip_windows t1 ++ subclip_windows t2.
Proof. unfold subclip_windows. apply flat_map_app. Qed.

Lemma dirs_made_app (t1 t2 : trace) :
  dirs_made (t1 ++ t2) = dirs_made t1 ++ dirs_made t2.
Proof. unfold dirs_made. apply flat_map_app. Qed.

(** The tally of one rung: a sub-clip is closed exactly when its write
    went through; a write that raised leaves one sub-clip open. *)
Lemma rung_tally video s e file codec audio_codec t ok evs :
  rung_events video s e file codec audio_codec t ok evs ->
  List.length (clips_closed evs) = List.length (files_written evs) /\
  List.length (subclips_opened evs)
  = (List.length (files_written evs) + List.length (writes_raised evs))%nat /\
  dirs_made evs = [] /\
  Forall (fun w => w = (video, s, e)) (subclip_windows evs).
Proof. destruct 1; simpl; repeat split; repeat constructor. Qed.

Lemma ladder_tally video s e file t c c' evs :
  ladder_events video s e file t c c' evs ->
  List.length (clips_closed evs) = List.length (files_written evs) /\
  List.length (subclips_opened evs)
  = (List.length (files_written evs) + List.length (writes_raised evs))%nat /\
  dirs_made evs = [] /\
  Forall (fun w => w = (video, s, e)) (subclip_windows evs).
Proof.
  destruct 1;
    repeat match goal with
           | H : rung_events _ _ _ _ _ _ _ _ _ |- _ =>
               apply rung_tally in H; destruct H as [? [? [? ?]]]
           end;
    rewrite ?clips_closed_app, ?files_written_app, ?subclips_opened_app,
      ?writes_raised_app, ?dirs_made_app, ?subclip_windows_app, ?length_app;
    repeat split;
      try lia;
      try (repeat match goal with H : dirs_made _ = [] |- _ => rewrite H end;
           reflexivity);
      repeat (apply Forall_app; split); assumption.
Qed.

Section ReencodeLoop.

Variable env : Env.
Variable video : handle.
Variable D : pyfloat.
Variable output_dir extension : string.
Variable L : Z.

(** The files written by the loop are those of the counted chunks, in
    the order of the chunks. *)
Lemma moviepy_iterations_files (l : list Z) t c c' groups :
  iterations (moviepy_step env video D output_dir extension L)
             l t c c' groups ->
  exists done,
    subsequence done l /\
    files_written (List.concat groups)
    = map (chunk_file env output_dir extension) done /\
    c' = c + Z.of_nat (List.length done).
Proof.
  induction 1 as [|i l t c c1 c2 evs groups Hstep _ IH].
  - exists []. simpl. repeat split; [constructor | lia].
  - destruct IH as [done [Hsub [Hfiles Hc]]].
    unfold moviepy_step in Hstep.
    pose proof (ladder_files_written _ _ _ _ _ _ _ _ Hstep) as Hw.
    apply ladder_counter in Hstep.
    simpl List.concat. rewrite files_written_app, Hw, Hfiles.
    destruct Hstep as [-> | ->].
    + destruct (c =? c + 1) eqn:E; [apply Z.eqb_eq in E; lia|].
      exists done. repeat split; [now constructor | assumption].
    + rewrite Z.eqb_refl. exists (i :: done).
      repeat split; [now constructor | simpl List.length; lia].
Qed.

Lemma moviepy_iterations_tally (l : list Z) t c c' groups :
  iterations (moviepy_step env video D output_dir extension L)
             l t c c' groups ->
  List.length (clips_closed (List.concat groups))
  = List.length (files_written (List.concat groups)) /\
  List.length (subclips_opened (List.concat groups))
  = (List.length (files_written (List.concat groups))
     + List.length (writes_raised (List.concat groups)))%nat /\
  dirs_made (List.concat groups) = [] /\
  Forall (fun w => exists i, In i l /\
                   w = (video, float_of_int (chunk_start L i),
                        chunk_end D L i))
         (subclip_windows (List.concat groups)).
Proof.
  induction 1 as [|i l t c c1 c2 evs groups Hstep _ IH].
  - simpl. repeat split; constructor.
  - destruct IH as [IH1 [IH2 [IH3 IH4]]].
    apply ladder_tally in Hstep. destruct Hstep as [H1 [H2 [H3 H4]]].
    simpl List.concat.
    rewrite clips_closed_app, files_written_app, subclips_opened_app,
      writes_raised_app, dirs_made_app, subclip_windows_app, !length_app.
    repeat split; try lia.
    + rewrite H3, IH3. reflexivity.
    + apply Forall_app. split.
      * eapply Forall_impl; [|exact H4]. intros w ->. exists i.
        split; [now left | reflexivity].
      * eapply Forall_impl; [|exact IH4]. intros w [j [Hj ->]]. exists j.
        split; [now right | reflexivity].
Qed.

End ReencodeLoop.

(** A run of the re-encode splitter that reports its counters, with all
    its events: the import, the opening, the creation of the directory,
    the loop, and the closing of the source clip. *)
Lemma split_video_moviepy_counts_events (env : Env)
      (input_path output_dir : string) (L : Z) (t t' : trace)
      (r : SplitResult) :
  split_video_moviepy_counts env input_path output_dir L t
  = (Ok (Some r), t') ->
  exists D groups,
    let t0 := t ++ [EvImport "moviepy.editor" (Ok tt)] in
    let video := List.length t0 in
    let t1 := t0 ++ [EvOpen input_path (Ok (video, D));
                     EvMakedirs output_dir (Ok tt)] in
    plan_num_chunks D L = Ok (num_chunks r) /\
    iterations (moviepy_step env video D output_dir
                             (path_suffix env input_path) L)
               (range (num_chunks r)) t1 0 (success_count r) groups /\
    t' = t ++ ([EvImport "moviepy.editor" (Ok tt);
                EvOpen input_path (Ok (video, D));
                EvMakedirs output_dir (Ok tt)]
               ++ List.concat groups ++ [EvClose video]).
Proof.
  unfold split_video_moviepy_counts, bind, try_except_only, try_except.
  unfold call_import, ret.
  destruct (import_module env t "moviepy.editor") as [[]|e]; simpl.
  2:{ destruct (is_ImportError e); simpl; discriminate. }
  unfold call_VideoFileClip.
  set (t0 := t ++ _).
  destruct (moviepy_VideoFileClip env t0 input_path) as [D|e];
    try discriminate.
  unfold lift. destruct (plan_num_chunks D L) as [n|e] eqn:Hplan;
    try discriminate.
  unfold call_makedirs.
  destruct (os_makedirs env _ output_dir) as [[]|e]; try discriminate.
  set (t1 := (t0 ++ _) ++ _).
  destruct (for_each_iterations _ _
              (moviepy_chunk_step env (List.length t0) D output_dir
                                  (path_suffix env input_path) L)
              (range n) 0 t1) as [c [groups [Hrun Hiter]]].
  rewrite Hrun. unfold call_close. intro H. inversion H; subst; clear H.
  exists D, groups. simpl. split; [exact Hplan|]. split.
  - subst t1 t0. rewrite <- app_assoc in Hiter. exact Hiter.
  - subst t1 t0. rewrite <- !app_assoc. reflexivity.
Qed.

(** X17. In a run of the re-encode splitter that reports its counters,
    the files written are the output files of the counted chunks, each
    written once, in the order of the chunks, and success_count is their
    number; the output directory is created once.  Where the platform's
    join keeps chunk names apart the written files are pairwise
    different. *)
Theorem reencode_files_written (env : Env) (input_path output_dir : string)
        (L : Z) (t t' : trace) (r : SplitResult) :
  split_video_moviepy_counts env input_path output_dir L t
  = (Ok (Some r), t') ->
  exists evs done,
    t' = t ++ evs /\
    subsequence done (range (num_chunks r)) /\
    files_written evs
    = map (chunk_file env output_dir (path_suffix env input_path)) done /\
    success_count r = Z.of_nat (List.length done) /\
    dirs_made evs = [output_dir] /\
    ((forall a b,
        os_path_join env output_dir ("chunk_" ++ a)%string
        = os_path_join env output_dir ("chunk_" ++ b)%string -> a = b) ->
     NoDup (files_written evs)).
Proof.
  intro H. apply split_video_moviepy_counts_events in H.
  destruct H as [D [groups [Hplan [Hiter ->]]]].
  pose proof (moviepy_iterations_files _ _ _ _ _ _ _ _ _ _ _ Hiter)
    as [done [Hsub [Hfiles Hc]]].
  pose proof (moviepy_iterations_tally _ _ _ _ _ _ _ _ _ _ _ Hiter)
    as [_ [_ [Hdirs _]]].
  eexists. exists done. split; [reflexivity|].
  assert (Hw : files_written
                 ([EvImport "moviepy.editor" (Ok tt);
                   EvOpen input_path
                     (Ok (List.length (t ++ [EvImport "moviepy.editor" (Ok tt)]),
                          D));
                   EvMakedirs output_dir (Ok tt)]
                  ++ List.concat groups
                  ++ [EvClose (List.length
                                 (t ++ [EvImport "moviepy.editor" (Ok tt)]))])
               = map (chunk_file env output_dir (path_suffix env input_path))
                     done).
  { rewrite !files_written_app, Hfiles. simpl. apply app_nil_r. }
  split; [exact Hsub|]. split; [exact Hw|]. split; [lia|]. split.
  - rewrite !dirs_made_app, Hdirs. reflexivity.
  - intro Hjoin. rewrite Hw.
    apply (subsequence_NoDup _ _ (subsequence_map _ _ _ Hsub)).
    apply chunk_files_NoDup; [exact Hjoin | apply range_NoDup].
Qed.

Lemma reencode_files_written_witness :
  exists evs done,
    snd (split_video_moviepy_counts (Scenario.env_of Scenario.library_only)
           "movie.mp4" "output_chunks" 60 []) = [] ++ evs /\
    subsequence done (range 3) /\
    files_written evs
    = map (chunk_file (Scenario.env_of Scenario.library_only)
                      "output_chunks" ".mp4") done /\
    3 = Z.of_nat (List.length done).
Proof.
  assert (Hrun : split_video_moviepy_counts
                   (Scenario.env_of Scenario.library_only)
                   "movie.mp4" "output_chunks" 60 []
                 = (Ok (Some {| success_count := 3; num_chunks := 3 |}),
                    snd (split_video_moviepy_counts
                           (Scenario.env_of Scenario.library_only)
                           "movie.mp4" "output_chunks" 60 [])))
    by (vm_compute; reflexivity).
  destruct (reencode_files_written _ _ _ _ _ _ _ Hrun)
    as [evs [done [H1 [H2 [H3 [H4 _]]]]]].
  exists evs, done. repeat split; assumption.
Defined.

(** X18. In a run of the re-encode splitter that reports its counters,
    the clips closed are the source clip and one sub-clip per file
    written, and the sub-clips extracted are one per file written plus
    one per write that raised: every write that raised leaves one
    sub-clip that is never closed. *)
Theorem reencode_clip_tally (env : Env) (input_path output_dir : string)
        (L : Z) (t t' : trace) (r : SplitResult) :
  split_video_moviepy_counts env input_path output_dir L t
  = (Ok (Some r), t') ->
  exists evs,
    t' = t ++ evs /\
    List.length (clips_closed evs)
    = Datatypes.S (List.length (files_written evs)) /\
    List.length (subclips_opened evs)
    = (List.length (files_written evs)
       + List.length (writes_raised evs))%nat /\
    Z.of_nat (List.length (files_written evs)) = success_count r.
Proof.
  intro H. apply split_video_moviepy_counts_events in H.
  destruct H as [D [groups [Hplan [Hiter ->]]]].
  pose proof (moviepy_iterations_files _ _ _ _ _ _ _ _ _ _ _ Hiter)
    as [done [Hsub [Hfiles Hc]]].
  pose proof (moviepy_iterations_tally _ _ _ _ _ _ _ _ _ _ _ Hiter)
    as [Hclosed [Hopened _]].
  eexists. split; [reflexivity|].
  rewrite !clips_closed_app, !files_written_app, !subclips_opened_app,
    !writes_raised_app, !length_app.
  simpl List.length. rewrite Hclosed, Hopened.
  repeat split; try lia.
  rewrite Hfiles, length_map. lia.
Qed.

Lemma reencode_clip_tally_witness :
  exists evs,
    snd (split_video_moviepy_counts (Scenario.env_of Scenario.library_only)
           "movie.mp4" "output_chunks" 60 []) = [] ++ evs /\
    List.length (clips_closed evs)
    = Datatypes.S (List.length (files_written evs)) /\
    List.length (subclips_opened evs)
    = (List.length (files_written evs)
       + List.length (writes_raised evs))%nat.
Proof.
  assert (Hrun : split_video_moviepy_counts
                   (Scenario.env_of Scenario.library_only)
                   "movie.mp4" "output_chunks" 60 []
                 = (Ok (Some {| success_count := 3; num_chunks := 3 |}),
                    snd (split_video_moviepy_counts
                           (Scenario.env_of Scenario.library_only)
                           "movie.mp4" "output_chunks" 60 [])))
    by (vm_compute; reflexivity).
  destruct (reencode_clip_tally _ _ _ _ _ _ _ Hrun)
    as [evs [H1 [H2 [H3 _]]]].
  exists evs. repeat split; assumption.
Defined.



(* ================================================================== *)
(** * The chunk plan of the two splitters (claim C1) *)
(* ================================================================== *)

(** C1, as stated, fails: the number of chunks is the ceiling of a float
    quotient, not of D / L.  With D = 2^55 and L = 3 the quotient is
    rounded down to an integer and the plan is one chunk short of
    ceil(D / L), so the planned windows end before D.  With the least
    positive duration, 2^-1074, and L = 2 the quotient is rounded to
    zero: no chunk is planned, both splitters extract nothing, and the
    re-encode run exits 0.  With L = 10^400 the chunk length has no
    float and the division raises OverflowError: the run exits 1. *)
Lemma float_quotient_breaks_cover :
  (plan_num_chunks (Finite (inject_Z (2 ^ 55))) 3 = Ok 12009599006321322 /\
   Qceiling (inject_Z (2 ^ 55) / inject_Z 3) = 12009599006321323 /\
   (inject_Z (ffmpeg_window_end 3 (12009599006321322 - 1))
    < inject_Z (2 ^ 55))%Q) /\
  ((0 < 1 # 2 ^ 1074)%Q /\
   Qceiling ((1 # 2 ^ 1074) / inject_Z 2) = 1 /\
   plan_num_chunks (Finite (1 # 2 ^ 1074)) 2 = Ok 0 /\
   (let env := Scenario.env_of Scenario.shortest_clip in
    fst (split_video_ffmpeg_counts env "movie.mp4" "output_chunks" 2 [])
    = Ok (Some {| success_count := 0; num_chunks := 0 |}) /\
    split_video_moviepy_counts env "movie.mp4" "output_chunks" 2 []
    = (Ok (Some {| success_count := 0; num_chunks := 0 |}),
       [EvImport "moviepy.editor" (Ok tt);
        EvOpen "movie.mp4" (Ok (1%nat, Finite (1 # 2 ^ 1074)));
        EvMakedirs "output_chunks" (Ok tt); EvClose 1%nat]) /\
    fst (program env (Scenario.args_of Moviepy 2) []) = 0)) /\
  ((0 < 10 ^ 400) /\
   plan_num_chunks (Finite (150 # 1)) (10 ^ 400) = Raise OverflowError /\
   (let env := Scenario.env_of Scenario.healthy in
    fst (main env (Scenario.args_of Moviepy (10 ^ 400)) [])
    = Raise OverflowError /\
    fst (program env (Scenario.args_of Moviepy (10 ^ 400)) []) = 1)) /\
  ~ (forall (D : Q) (L : Z),
       (0 < D)%Q -> 0 < L ->
       plan_num_chunks (Finite D) L = Ok (Qceiling (D / inject_Z L))).
Proof.
  split; [|split; [|split]].
  - vm_compute. repeat split; reflexivity.
  - vm_compute. repeat split; reflexivity.
  - vm_compute. repeat split; reflexivity.
  - intro H.
    specialize (H (inject_Z (2 ^ 55)) 3 ltac:(reflexivity) ltac:(reflexivity)).
    vm_compute in H. discriminate.
Qed.

(** C1, amended.  Let the duration D > 0 be a binary64 value below 2^53
    (D = M * 2^E with 0 < M < 2^53 and -1074 <= E <= 0), the chunk length
    L an integer with 0 < L < 2^53, and D / L above 2^-1075 (below, the
    float quotient is zero).  Then both splitter strategies plan exactly
    n = ceil(D / L) >= 1 chunks.  The stream-copy splitter, once its probe
    has answered D and the output directory is made, runs to its end,
    reports num_chunks = n and hands the tool exactly the commands of the
    chunks 0 .. n - 1, in this order, chunk i with start offset i * L and
    length L.  The re-encode splitter, once the library is imported, the
    source is opened with duration D and the directory is made, runs to
    its end, reports num_chunks = n, runs one ladder per chunk
    0 .. n - 1, in this order, and extracts only windows from i * L to
    [chunk_end] of one of these chunks.  Each window is non-empty and
    ends where the next one starts, the last re-encode window ends at D,
    and every instant of [0, D) lies in the window of a planned chunk,
    and of only one. *)
Theorem chunk_plan_covers_duration (env : Env)
        (input_path output_dir : string) (D : Q) (L M E : Z) (t : trace) :
  0 < L < 2 ^ 53 -> 0 < M < 2 ^ 53 -> -1074 <= E <= 0 ->
  (D == inject_Z M * 2 ^ E)%Q ->
  (2 ^ (-1075) < D / inject_Z L)%Q ->
  let n := Qceiling (D / inject_Z L) in
  let extension := path_suffix env input_path in
  plan_num_chunks (Finite D) L = Ok n /\
  1 <= n /\
  Z.of_nat (List.length (range n)) = n /\
  (forall t1,
     get_video_duration_ffmpeg env input_path t
     = (Ok (Some (Finite D)), t1) ->
     os_makedirs env t1 output_dir = Ok tt ->
     let t2 := t1 ++ [EvMakedirs output_dir (Ok tt)] in
     let ex := os_path_exists env t2 "C:\ffmpeg\ffmpeg.exe" in
     let ffmpeg_path := if ex then "C:\ffmpeg\ffmpeg.exe" else "ffmpeg" in
     let t3 := t2 ++ [EvExists "C:\ffmpeg\ffmpeg.exe" ex] in
     exists c groups,
       split_video_ffmpeg_counts env input_path output_dir L t
       = (Ok (Some {| success_count := c; num_chunks := n |}),
          t3 ++ List.concat groups) /\
       iterations (ffmpeg_step env ffmpeg_path input_path output_dir
                               extension L)
                  (range n) t3 0 c groups /\
       run_cmds (List.concat groups)
       = map (fun i => ffmpeg_cmd ffmpeg_path input_path
                                  (chunk_file env output_dir extension i) L i)
             (range n) /\
       map (fun cmd => (nth 4 cmd "", nth 6 cmd ""))
           (run_cmds (List.concat groups))
       = map (fun i => (str (i * L), str L)) (range n)) /\
  (let t0 := t ++ [EvImport "moviepy.editor" (Ok tt)] in
   let video := List.length t0 in
   let t1 := t0 ++ [EvOpen input_path (Ok (video, Finite D))] in
   let t2 := t1 ++ [EvMakedirs output_dir (Ok tt)] in
   import_module env t "moviepy.editor" = Ok tt ->
   moviepy_VideoFileClip env t0 input_path = Ok (Finite D) ->
   os_makedirs env t1 output_dir = Ok tt ->
   exists c groups,
     split_video_moviepy_counts env input_path output_dir L t
     = (Ok (Some {| success_count := c; num_chunks := n |}),
        (t2 ++ List.concat groups) ++ [EvClose video]) /\
     iterations (moviepy_step env video (Finite D) output_dir extension L)
                (range n) t2 0 c groups /\
     Forall (fun w => exists i,
                 0 <= i < n /\
                 w = (video, Finite (inject_Z (i * L)),
                      chunk_end (Finite D) L i))
            (subclip_windows (List.concat groups))) /\
  (forall i, 0 <= i < n ->
     chunk_start L i = i * L /\
     ffmpeg_window_end L i = (i + 1) * L /\
     exists e, chunk_end (Finite D) L i = Finite e /\
               (inject_Z (chunk_start L i) < e)%Q /\
               (e <= inject_Z (ffmpeg_window_end L i))%Q /\
               (e <= D)%Q /\
               (i + 1 < n -> (e == inject_Z (chunk_start L (i + 1)))%Q /\
                             ffmpeg_window_end L i = chunk_start L (i + 1)) /\
               (i + 1 = n -> (e == D)%Q /\
                             (D <= inject_Z (ffmpeg_window_end L i))%Q)) /\
  (forall x, (0 <= x)%Q -> (x < D)%Q ->
     exists i, 0 <= i < n /\
               (inject_Z (chunk_start L i) <= x)%Q /\
               (x < inject_Z (ffmpeg_window_end L i))%Q /\
               exists e, chunk_end (Finite D) L i = Finite e /\ (x < e)%Q) /\
  (forall x i j,
     (inject_Z (chunk_start L i) <= x)%Q ->
     (x < inject_Z (ffmpeg_window_end L i))%Q ->
     (inject_Z (chunk_start L j) <= x)%Q ->
     (x < inject_Z (ffmpeg_window_end L j))%Q ->
     i = j).
Proof.
  intros HLr HM HE HDM Hmin n extension.
  assert (HL : 0 < L) by lia.
  assert (HD : (0 < D)%Q).
  { pose proof (pow2_pos (-1075)) as Hp.
    pose proof (inject_Z_pos L HL) as HLq.
    assert (Hq : (0 < D / inject_Z L)%Q) by lra.
    assert (Hd : (D == D / inject_Z L * inject_Z L)%Q) by (field; lra).
    rewrite Hd. apply Qmult_lt_0_compat; assumption. }
  assert (Hplan : plan_num_chunks (Finite D) L = Ok n)
    by (apply (plan_num_chunks_exact D L M E); assumption).
  assert (Hn : 1 <= n) by (apply at_least_one_chunk; assumption).
  assert (Hw : forall i, ffmpeg_window_end L i = (i + 1) * L)
    by (intro i; unfold ffmpeg_window_end, chunk_start; ring).
  split; [exact Hplan|].
  split; [exact Hn|].
  split; [rewrite range_length; lia|].
  split.
  { intros t1 Hprobe Hmk t2 ex ffmpeg_path t3.
    rewrite (split_video_ffmpeg_counts_probed env _ _ _ _ _ _ Hprobe).
    unfold bind at 1. unfold lift. rewrite Hplan.
    unfold bind at 1. unfold call_makedirs. rewrite Hmk.
    unfold bind at 1. unfold call_exists. fold t2. fold ex. fold t3.
    fold ffmpeg_path. fold extension.
    destruct (for_each_iterations _ _
                (ffmpeg_chunk_step env ffmpeg_path input_path output_dir
                                   extension L) (range n) 0 t3)
      as [c [groups [Hrun Hiter]]].
    exists c, groups. unfold bind. rewrite Hrun.
    split; [reflexivity|]. split; [exact Hiter|].
    pose proof (ffmpeg_iterations_cmds _ _ _ _ _ _ _ _ _ _ _ Hiter) as Hcmds.
    split; [exact Hcmds|].
    rewrite Hcmds, map_map. reflexivity. }
  split.
  { intros t0 video t1 t2 Himp Hopen Hmk.
    rewrite (split_video_moviepy_counts_opened env _ _ _ _ _ Himp Hopen).
    fold t0. fold video. fold t1.
    unfold bind at 1. unfold lift. rewrite Hplan.
    unfold bind at 1. unfold call_makedirs. rewrite Hmk. fold t2.
    fold extension.
    destruct (for_each_iterations _ _
                (moviepy_chunk_step env video (Finite D) output_dir
                                    extension L) (range n) 0 t2)
      as [c [groups [Hrun Hiter]]].
    exists c, groups. unfold bind. rewrite Hrun.
    split; [reflexivity|]. split; [exact Hiter|].
    pose proof (moviepy_iterations_tally _ _ _ _ _ _ _ _ _ _ _ Hiter)
      as [_ [_ [_ Hwin]]].
    eapply Forall_impl; [|exact Hwin].
    intros w [i [Hi ->]]. exists i. split; [|reflexivity].
    apply range_In. exact Hi. }
  split.
  { intros i Hi. split; [reflexivity|]. split; [apply Hw|].
    destruct (chunk_end_bounds D L i HL) as [e [He [Hmin' [Hlo [Hhi HeD]]]]];
      [change (i < n); lia|].
    exists e. repeat split; try assumption.
    - pose proof (chunk_end_inner L HL D i H) as Hin.
      rewrite He in Hin. injection Hin as ->. reflexivity.
    - rewrite Hw. unfold chunk_start. reflexivity.
    - rewrite Hmin'. apply Q.min_r. rewrite H.
      apply duration_le_plan_end. exact HL.
    - rewrite Hw, H. apply duration_le_plan_end. exact HL. }
  split.
  { intros x Hx0 HxD.
    pose proof (instant_chunk_planned L HL D x Hx0 HxD) as Hi.
    pose proof (instant_in_its_chunk L HL x) as [Hlo Hhi].
    set (i := Qfloor (x / inject_Z L)) in *.
    exists i. split; [exact Hi|]. split; [exact Hlo|].
    split; [rewrite Hw; exact Hhi|].
    destruct (chunk_end_Finite D L i) as [e [He Hmin']].
    exists e. split; [exact He|]. rewrite Hmin'.
    apply Q.min_glb_lt; assumption. }
  intros x i j Hi1 Hi2 Hj1 Hj2. rewrite Hw in Hi2, Hj2.
  exact (windows_disjoint L HL x i j Hi1 Hi2 Hj1 Hj2).
Qed.

(** The 150 s video in chunks of 60 s: three chunks, three commands. *)
Lemma chunk_plan_covers_duration_witness :
  let env := Scenario.env_of Scenario.healthy in
  plan_num_chunks (Finite (150 # 1)) 60 = Ok 3 /\
  exists c groups t3,
    split_video_ffmpeg_counts env "movie.mp4" "output_chunks" 60 []
    = (Ok (Some {| success_count := c; num_chunks := 3 |}),
       t3 ++ List.concat groups) /\
    run_cmds (List.concat groups)
    = map (fun i => ffmpeg_cmd "ffmpeg" "movie.mp4"
                               (chunk_file env "output_chunks" ".mp4" i) 60 i)
          (range 3).
Proof.
  intro env.
  pose (probe := get_video_duration_ffmpeg env "movie.mp4" []).
  assert (Hprobe : probe = (Ok (Some (Finite (150 # 1))), snd probe))
    by (vm_compute; reflexivity).
  destruct (chunk_plan_covers_duration env "movie.mp4" "output_chunks"
              (150 # 1) 60 150 0 []
              ltac:(lia) ltac:(lia) ltac:(lia)
              ltac:(reflexivity) ltac:(reflexivity))
    as [Hplan [_ [_ [Hcopy _]]]].
  split; [exact Hplan|].
  destruct (Hcopy (snd probe) Hprobe eq_refl)
    as [c [groups [Hrun [_ [Hcmds _]]]]].
  exists c, groups. eexists. split; [exact Hrun | exact Hcmds].
Defined.

(* ================================================================== *)
(** * The exit code and the chunks of the run (claim C3) *)
(* ================================================================== *)

(** The stream-copy loop counts every iteration exactly when every
    invocation exits with status zero. *)
Lemma ffmpeg_iterations_all_ok env ffmpeg_path input_path output_dir extension
      L (l : list Z) t c c' groups :
  iterations (ffmpeg_step env ffmpeg_path input_path output_dir extension L)
             l t c c' groups ->
  (forall cmd r, In (EvRun cmd r) (List.concat groups) -> run_ok r = true) ->
  c' = c + Z.of_nat (List.length l).
Proof.
  induction 1 as [|i l t c c1 c2 evs groups [Hevs Hc] _ IH]; intro Hall.
  - simpl. lia.
  - simpl List.concat in Hall. subst evs.
    rewrite (Hall _ _ (or_introl eq_refl)) in Hc.
    rewrite IH by (intros cmd r Hin; apply (Hall cmd r); now right).
    simpl List.length. lia.
Qed.

Lemma subsequence_length {A : Type} (l1 l2 : list A) :
  subsequence l1 l2 -> (List.length l1 <= List.length l2)%nat.
Proof. induction 1; simpl; lia. Qed.

(** A subsequence as long as the whole is the whole. *)
Lemma subsequence_full {A : Type} (l1 l2 : list A) :
  subsequence l1 l2 -> List.length l1 = List.length l2 -> l1 = l2.
Proof.
  induction 1 as [|x l1 l2 H IH|x l1 l2 H IH]; simpl; intro Hlen.
  - reflexivity.
  - apply subsequence_length in H. lia.
  - f_equal. apply IH. lia.
Qed.

(** C3, as stated, fails for a negative chunk length, which the command
    line accepts.  With the 150 s video and [--duration -60] the plan is
    -2 chunks: the short-circuit does not copy, no chunk is attempted,
    every invocation of a tool exits with status zero and nothing
    raises, so every planned chunk succeeded and succeeded == attempted
    (0 == 0); yet the splitter compares 0 with -2 and the run exits 1.
    The same happens in the re-encode strategy. *)
Lemma no_chunk_fails_yet_exit_1 :
  (let env := Scenario.env_of Scenario.healthy in
   let args := Scenario.args_of Ffmpeg (-60) in
   let run := program env args [] in
   fst run = 1 /\
   fst (main env args []) = Ok 1 /\
   fst (main_outcome env args [])
   = Ok (SplitDone {| success_count := 0; num_chunks := -2 |}) /\
   copies (snd run) = [] /\
   run_cmds (snd run)
   = [ffprobe_cmd "ffprobe" "movie.mp4"; ["ffmpeg"; "-version"];
      ffprobe_cmd "ffprobe" "movie.mp4"] /\
   runs_ok (snd run) = run_cmds (snd run)) /\
  (let env := Scenario.env_of Scenario.healthy in
   let args := Scenario.args_of Moviepy (-60) in
   let run := program env args [] in
   fst run = 1 /\
   fst (main env args []) = Ok 1 /\
   fst (main_outcome env args [])
   = Ok (SplitDone {| success_count := 0; num_chunks := -2 |}) /\
   subclip_windows (snd run) = [] /\
   writes_raised (snd run) = [] /\
   run_cmds (snd run) = []).
Proof. vm_compute. repeat split; reflexivity. Qed.

(** C3, amended.  For every input, the exit status of the program is 0
    or 1, and it is 0 exactly when the run ended in the short-circuit,
    right after a copy that did not raise, or a splitter ran to its end
    with success_count equal to num_chunks.  A run whose splitter ran to
    its end ends with the loop of that splitter over the chunks
    0 .. num_chunks - 1.  In the stream-copy loop every chunk gets
    exactly one invocation of the tool, whatever the earlier invocations
    answered: a failed invocation (non-zero status, or an exception) is
    not retried and does not end the loop; success_count is the number
    of invocations that exited with status zero.  In the re-encode loop
    success_count is the number of chunks whose file was written.  For a
    plan that is not negative, success_count equals num_chunks exactly
    when every planned chunk was attempted and succeeded: every
    invocation exited with status zero, respectively the file of every
    planned chunk was written; after a failed chunk the run exits 1.
    For a negative plan nothing is attempted, success_count is 0 and the
    run exits 1. *)
Theorem exit_code_iff_all_succeeded (env : Env) (args : Args) (t0 : trace) :
  let code := fst (program env args t0) in
  let t' := snd (program env args t0) in
  (code = 0 \/ code = 1) /\
  t' = snd (main_outcome env args t0) /\
  (code = 0 <->
   fst (main_outcome env args t0) = Ok CopiedWhole \/
   exists r, fst (main_outcome env args t0) = Ok (SplitDone r) /\
             success_count r = num_chunks r) /\
  (fst (main_outcome env args t0) = Ok CopiedWhole ->
   exists t1 src dst, t' = t1 ++ [EvCopy2 src dst (Ok tt)]) /\
  (forall r,
     fst (main_outcome env args t0) = Ok (SplitDone r) ->
     let n := num_chunks r in
     let L := duration args in
     exists input_video t1 groups,
       let extension := path_suffix env input_video in
       ((exists ffmpeg_path,
           t' = t1 ++ List.concat groups /\
           iterations (ffmpeg_step env ffmpeg_path input_video
                                   (output_dir args) extension L)
                      (range n) t1 0 (success_count r) groups /\
           run_cmds (List.concat groups)
           = map (fun i => ffmpeg_cmd ffmpeg_path input_video
                             (chunk_file env (output_dir args) extension i)
                             L i)
                 (range n) /\
           success_count r
           = Z.of_nat (List.length (runs_ok (List.concat groups))) /\
           (0 <= n ->
            (success_count r = n <->
             forall cmd res, In (EvRun cmd res) (List.concat groups) ->
                             run_ok res = true)))
        \/
        (exists video D done,
           t' = (t1 ++ List.concat groups) ++ [EvClose video] /\
           iterations (moviepy_step env video D (output_dir args)
                                    extension L)
                      (range n) t1 0 (success_count r) groups /\
           subsequence done (range n) /\
           files_written (List.concat groups)
           = map (chunk_file env (output_dir args) extension) done /\
           success_count r = Z.of_nat (List.length done) /\
           (0 <= n ->
            (success_count r = n <->
             files_written (List.concat groups)
             = map (chunk_file env (output_dir args) extension)
                   (range n))))) /\
       (n < 0 -> groups = [] /\ success_count r = 0 /\ code = 1)) /\
  (forall ffmpeg_path input_path output_dir extension L n c t,
     exists c' evs,
       for_each (range n)
         (ffmpeg_chunk env ffmpeg_path input_path output_dir extension L) c t
       = (Ok c', t ++ evs) /\
       run_cmds evs
       = map (fun i => ffmpeg_cmd ffmpeg_path input_path
                                  (chunk_file env output_dir extension i) L i)
             (range n) /\
       c' = c + Z.of_nat (List.length (runs_ok evs)) /\
       ((exists cmd r, In (EvRun cmd r) evs /\ run_ok r = false) ->
        c' < c + n)).
Proof.
  intros code t'. subst code t'. unfold program. rewrite main_exit_code.
  split; [|split; [|split; [|split; [|split]]]].
  - destruct (main_outcome env args t0) as [[o | e] t']; simpl; auto.
    destruct o; simpl; auto.
    destruct (success_count r =? num_chunks r); auto.
  - destruct (main_outcome env args t0) as [[o | e] t']; reflexivity.
  - destruct (main_outcome env args t0) as [[o | e] t']; simpl.
    + destruct o; simpl; split; intro H;
        try discriminate; try (left; reflexivity); try reflexivity;
        try (destruct H as [H | [r' [H _]]]; discriminate).
      * right. exists r. split; [reflexivity|].
        destruct (success_count r =? num_chunks r) eqn:E;
          [apply Z.eqb_eq in E; exact E | discriminate].
      * destruct H as [H | [r' [H Heq]]]; [discriminate|].
        inversion H; subst. apply Z.eqb_eq in Heq. rewrite Heq. reflexivity.
    + split; [discriminate|].
      intros [H | [r [H _]]]; discriminate.
  - destruct (main_outcome env args t0) as [[o | e] t'] eqn:Hm; simpl;
      [|discriminate].
    intro H. inversion H; subst.
    apply (main_outcome_CopiedWhole env args t0 t' Hm).
  - intros r Hr. cbv zeta.
    destruct (main_outcome env args t0) as [[o | e] t'] eqn:Hm;
      simpl in Hr; [|discriminate].
    inversion Hr; subst o. clear Hr. simpl fst. simpl snd.
    destruct (main_outcome_SplitDone env args t0 t' r Hm)
      as [input_video [ts [Hs | Hs]]].
    + apply split_video_ffmpeg_counts_inv in Hs.
      destruct Hs as [d [t1 [ffmpeg_path [groups [_ [_ [Hiter ->]]]]]]].
      exists input_video, t1, groups.
      pose proof (ffmpeg_iterations_counts _ _ _ _ _ _ _ _ _ _ _ Hiter)
        as [Hc [Hlen [Hle Hlt]]].
      pose proof (range_length (num_chunks r)) as Hrange.
      split.
      * left. exists ffmpeg_path.
        split; [reflexivity|]. split; [exact Hiter|].
        split; [eapply ffmpeg_iterations_cmds; exact Hiter|].
        split; [lia|].
        intro Hn. split.
        -- intros Heq cmd res Hin.
           destruct (run_ok res) eqn:Hok; [reflexivity|]. exfalso.
           assert (Hfail : exists cmd r, In (EvRun cmd r) (List.concat groups)
                                         /\ run_ok r = false) by eauto.
           apply Hlt in Hfail. lia.
        -- intro Hall.
           rewrite (ffmpeg_iterations_all_ok _ _ _ _ _ _ _ _ _ _ _
                      Hiter Hall).
           lia.
      * intro Hn. rewrite (range_nonpos (num_chunks r)) in Hiter by lia.
        inversion Hiter; subst.
        split; [reflexivity|]. split; [reflexivity|].
        destruct (0 =? num_chunks r) eqn:E;
          [apply Z.eqb_eq in E; lia | reflexivity].
    + apply split_video_moviepy_counts_inv in Hs.
      destruct Hs as [video [D [t1 [groups [_ [_ [Hiter ->]]]]]]].
      exists input_video, t1, groups.
      destruct (moviepy_iterations_files _ _ _ _ _ _ _ _ _ _ _ Hiter)
        as [done [Hsub [Hfiles Hc]]].
      pose proof (range_length (num_chunks r)) as Hrange.
      split.
      * right. exists video, D, done.
        split; [reflexivity|]. split; [exact Hiter|].
        split; [exact Hsub|]. split; [exact Hfiles|].
        split; [lia|].
        intro Hn. split.
        -- intro Heq. rewrite Hfiles. f_equal.
           apply subsequence_full; [exact Hsub|]. lia.
        -- intro Hall. rewrite Hfiles in Hall.
           apply (f_equal (@List.length string)) in Hall.
           rewrite !length_map in Hall. lia.
      * intro Hn. rewrite (range_nonpos (num_chunks r)) in Hiter by lia.
        inversion Hiter; subst.
        split; [reflexivity|]. split; [reflexivity|].
        destruct (0 =? num_chunks r) eqn:E;
          [apply Z.eqb_eq in E; lia | reflexivity].
  - intros ffmpeg_path input_path output_dir extension L n c t.
    destruct (for_each_iterations _ _
                (ffmpeg_chunk_step env ffmpeg_path input_path output_dir
                                   extension L) (range n) c t)
      as [c' [groups [Hrun Hiter]]].
    exists c', (List.concat groups). split; [exact Hrun|].
    split; [eapply ffmpeg_iterations_cmds; exact Hiter|].
    apply ffmpeg_iterations_counts in Hiter.
    destruct Hiter as [Hc [Hn [Hle Hlt]]]. split; [exact Hc|].
    intro Hfail. apply Hlt in Hfail.
    pose proof (range_length n) as Hr. lia.
Qed.
